(** * traefik-github-auth: the token cache and the validation flow

    A shallow embedding of the Go packages of the repository,
    - [internal/github]    (types.go, the Client interface, httpclient.go),
    - [internal/validator] (validator.go),
    - [internal/cache]     (cache.go),
    - [internal/handler]   (handler.go: the ForwardAuth handler),
    - [main]               (the configuration and its check),
    followed by the properties of the cache, of [Validate], of the HTTP
    client and of the handler.

    Conventions of the embedding.
    - Go strings are byte strings: [string].  [int], [int64] and
      [time.Duration] values are [Z]; the code does no arithmetic on them
      that could wrap.
    - A [time.Time] is an instant on the clock of the process, in
      nanoseconds: [Z].  [time.Now()] is an argument of the operation that
      reads the clock.
    - [for key, entry := range m] over a Go map visits the entries in an
      order the runtime chooses anew for every loop.  An operation that
      ranges over the map takes the order of that visit as an argument
      [visit], a list of the (key, entry) pairs of the map.
    - The mutex, the stop channel and the telemetry (logs, spans, metric
      instruments) are left out: every operation below is one critical
      section of the Go code. *)

From Stdlib Require Import ZArith String Ascii List Lia Bool.
From stdpp Require Import base option list gmap strings fin_maps relations pretty.

Local Open Scope string_scope.
Local Open Scope Z_scope.

(** ** The Go library functions the code calls *)

(** [crypto/sha256]: SHA-256 over bytes, words as [Z] below [2^32]. *)
Module sha256.

Definition wrap32 (x : Z) : Z := x mod 2 ^ 32.
Definition add32 (x y : Z) : Z := wrap32 (x + y).
Definition rotr (n x : Z) : Z :=
  Z.lor (Z.shiftr x n) (wrap32 (Z.shiftl x (32 - n))).
Definition not32 (x : Z) : Z := Z.lxor x (Z.ones 32).

Definition Ch (x y z : Z) : Z := Z.lxor (Z.land x y) (Z.land (not32 x) z).
Definition Maj (x y z : Z) : Z :=
  Z.lxor (Z.lxor (Z.land x y) (Z.land x z)) (Z.land y z).
Definition Sigma0 (x : Z) : Z := Z.lxor (Z.lxor (rotr 2 x) (rotr 13 x)) (rotr 22 x).
Definition Sigma1 (x : Z) : Z := Z.lxor (Z.lxor (rotr 6 x) (rotr 11 x)) (rotr 25 x).
Definition sigma0 (x : Z) : Z := Z.lxor (Z.lxor (rotr 7 x) (rotr 18 x)) (Z.shiftr x 3).
Definition sigma1 (x : Z) : Z := Z.lxor (Z.lxor (rotr 17 x) (rotr 19 x)) (Z.shiftr x 10).

(** The constants of the standard: the first 32 bits of the fractional
    parts of the cube roots ([K]) and of the square roots ([init]) of the
    first primes. *)
Definition is_prime (n : nat) : bool :=
  forallb (fun d => negb (Nat.eqb (Nat.modulo n d) 0)) (seq 2 (n - 2)).

Definition primes (upto : nat) : list Z :=
  map Z.of_nat (List.filter is_prime (seq 2 (upto - 1))).

Definition cube_root (n : Z) : Z :=
  fold_left (fun r i => let r' := r + 2 ^ Z.of_nat i in
                        if r' * r' * r' <=? n then r' else r)
            (rev (seq 0 40)) 0.

Definition K : list Z :=
  Eval vm_compute in map (fun p => wrap32 (cube_root (p * 2 ^ 96))) (primes 311).

Definition init : list Z :=
  Eval vm_compute in map (fun p => wrap32 (Z.sqrt (p * 2 ^ 64))) (primes 19).

(** Padding: the byte 0x80, zero bytes up to 56 modulo 64, then the bit
    length of the message as 8 big-endian bytes. *)
Definition be_bytes (count : nat) (x : Z) : list Z :=
  map (fun i => Z.land (Z.shiftr x (8 * Z.of_nat i)) 255) (rev (seq 0 count)).

Definition pad (msg : list Z) : list Z :=
  let len := Z.of_nat (length msg) in
  let zeros := Z.to_nat ((55 - len) mod 64) in
  msg ++ [128] ++ repeat 0 zeros ++ be_bytes 8 (8 * len).

Fixpoint be_words (bytes : list Z) : list Z :=
  match bytes with
  | b0 :: b1 :: b2 :: b3 :: rest =>
      (Z.shiftl b0 24 + Z.shiftl b1 16 + Z.shiftl b2 8 + b3) :: be_words rest
  | _ => []
  end.

(** The message schedule, grown from the 16 words of the block to 64. *)
Definition word (w : list Z) (i : nat) : Z := nth i w 0.

Fixpoint schedule (more : nat) (w : list Z) : list Z :=
  match more with
  | O => w
  | S more' =>
      let t := length w in
      let next := add32 (add32 (sigma1 (word w (t - 2))) (word w (t - 7)))
                        (add32 (sigma0 (word w (t - 15))) (word w (t - 16))) in
      schedule more' (w ++ [next])
  end.

Definition round (s : list Z) (kw : Z * Z) : list Z :=
  match s with
  | [a; b; c; d; e; f; g; h] =>
      let t1 := add32 (add32 (add32 h (Sigma1 e)) (add32 (Ch e f g) (fst kw))) (snd kw) in
      let t2 := add32 (Sigma0 a) (Maj a b c) in
      [add32 t1 t2; a; b; c; add32 d t1; e; f; g]
  | _ => s
  end.

Definition block (h : list Z) (words16 : list Z) : list Z :=
  let w := schedule 48 words16 in
  let s := fold_left round (combine K w) h in
  map (fun p => add32 (fst p) (snd p)) (combine h s).

Fixpoint blocks (count : nat) (h : list Z) (words : list Z) : list Z :=
  match count with
  | O => h
  | S count' => blocks count' (block h (firstn 16 words)) (skipn 16 words)
  end.

(** [sha256.Sum256(data)]: the 32 bytes of the digest. *)
Definition Sum256 (data : list Z) : list Z :=
  let words := be_words (pad data) in
  let h := blocks (length words / 16) init words in
  flat_map (be_bytes 4) h.

End sha256.

(** [[]byte(s)] *)
Definition bytes_of_string (s : string) : list Z :=
  map (fun a => Z.of_N (N_of_ascii a)) (list_ascii_of_string s).

(** [encoding/hex]: two lower-case digits per byte. *)
Module hex.

Definition hextable : string := "0123456789abcdef".

Definition digit (n : Z) : ascii :=
  match String.get (Z.to_nat n) hextable with
  | Some a => a
  | None => "0"%char
  end.

Fixpoint EncodeToString (src : list Z) : string :=
  match src with
  | [] => EmptyString
  | v :: rest =>
      String (digit (Z.shiftr v 4)) (String (digit (Z.land v 15)) (EncodeToString rest))
  end.

End hex.


(** [time]: instants and durations, both in nanoseconds. *)
Module time.

Abbreviation Time := Z (only parsing).
Abbreviation Duration := Z (only parsing).

(** [t.After(u)] *)
Definition After (t u : Time) : bool := u <? t.
(** [t.Before(u)] *)
Definition Before (t u : Time) : bool := t <? u.
(** [t.Add(d)] *)
Definition Add (t : Time) (d : Duration) : Time := t + d.
(** [time.Second] *)
Definition Second : Duration := 1000000000.

End time.

(** [errors] and [fmt.Errorf]: an error value is a chain.  [errors_New] is
    a value made by [errors.New], told apart by its text (the texts of the
    package-level errors of the repository are pairwise different);
    [fmt_Errorf format err] is [fmt.Errorf(format, err)] for a format with
    one [%w] verb.  A nil [error] is [None] in [option error]. *)
Inductive error : Type :=
  | errors_New (text : string)
  | fmt_Errorf (format : string) (err : error).

#[global] Instance error_eq_dec : EqDecision error.
Proof. solve_decision. Defined.

(** [errors.Is(err, target)]: some error of the chain of [err] is
    [target].  (The targets of the code are package-level errors.) *)
Fixpoint errors_Is (err target : error) : bool :=
  if decide (err = target) then true
  else match err with
       | errors_New _ => false
       | fmt_Errorf _ wrapped => errors_Is wrapped target
       end.

(** ** Package internal/github *)
Module github.

(** types.go; [Email] is read by validator.go and by the client's tests. *)
Record User : Type := mkUser {
  User_Login : string;
  User_ID : Z;
  User_Email : string }.

Record Organization : Type := mkOrganization {
  Organization_Login : string }.

Record Team : Type := mkTeam {
  Team_Slug : string;
  Team_Organization : Organization }.

Definition ErrUnauthorized : error :=
  errors_New "github: unauthorized (invalid or revoked token)".
Definition ErrNotOrgMember : error :=
  errors_New "github: user is not a member of the organization".
Definition ErrRateLimited : error :=
  errors_New "github: API rate limit exceeded".

(** The [Client] interface.  A method that returns [(value, error)]
    returns a sum here: the value when the error is nil, the error
    otherwise ([Validate] reads the value only when the error is nil). *)
Record Client : Type := mkClient {
  GetUser : string -> (User * bool) + error;
  CheckOrgMembership : string -> string -> string -> option error;
  ListUserTeams : string -> string -> list Team + error }.

(** [HTTPClient]: of the struct, the base URL; the HTTP round trips are
    the two variables of the section below. *)
Record HTTPClient : Type := mkHTTPClient {
  baseURL : string }.

Section HTTPClient_ListUserTeams.

(** [strings.EqualFold] of the Go library. *)
Variable strings_EqualFold : string -> string -> bool.

(** [fetchTeamsPage c token url]: one page of teams and the URL of the
    next page (empty when there is none), or the error of the request. *)
Variable fetchTeamsPage : HTTPClient -> string -> string -> (list Team * string) + error.

(** The loop [for nextURL != (empty string)] of [ListUserTeams].  It follows the
    links the server sends and ends only when a page has no next link or
    a request fails: [fuel] bounds the pages fetched, [None] is "not
    finished within [fuel] pages". *)
Fixpoint fetchAllTeams (fuel : nat) (c : HTTPClient) (token nextURL : string)
    (allTeams : list Team) : option (list Team + error) :=
  if decide (nextURL = EmptyString) then Some (inl allTeams)
  else match fuel with
       | O => None
       | S fuel' =>
           match fetchTeamsPage c token nextURL with
           | inr err => Some (inr err)
           | inl (teams, next) => fetchAllTeams fuel' c token next (allTeams ++ teams)
           end
       end.

(** The test of the filter loop: [strings.EqualFold(t.Organization.Login, org)]. *)
Definition inOrg (org : string) (t : Team) : bool :=
  strings_EqualFold (Organization_Login (Team_Organization t)) org.

(** [ListUserTeams], first half: all the pages, from the first URL on. *)
Definition HTTPClient_allTeams (fuel : nat) (c : HTTPClient) (token : string)
  : option (list Team + error) :=
  let urlPath := "/user/teams" in
  fetchAllTeams fuel c token (baseURL c +:+ urlPath +:+ "?per_page=100") [].

(** [ListUserTeams]: the pages, then the filter to the teams of [org]. *)
Definition HTTPClient_ListUserTeams (fuel : nat) (c : HTTPClient) (token org : string)
  : option (list Team + error) :=
  match HTTPClient_allTeams fuel c token with
  | None => None
  | Some (inr err) => Some (inr err)
  | Some (inl allTeams) => Some (inl (List.filter (inOrg org) allTeams))
  end.

End HTTPClient_ListUserTeams.

End github.

(** ** Package internal/validator *)
Module validator.

Definition ErrUnauthorized : error :=
  errors_New "unauthorized: invalid or revoked token".
Definition ErrNotOrgMember : error :=
  errors_New "forbidden: user is not a member of the organization".
Definition ErrClassicPAT : error :=
  errors_New "forbidden: classic PATs are not allowed, use a fine-grained PAT".
Definition ErrRateLimited : error :=
  errors_New "rate limited: GitHub API rate limit exceeded".

Record ValidationResult : Type := mkValidationResult {
  Login : string;
  ID : Z;
  Email : string;
  Org : string;
  Teams : list string }.

(** [ValidationResult{}] *)
Definition zero : ValidationResult :=
  {| Login := EmptyString; ID := 0; Email := EmptyString; Org := EmptyString;
     Teams := [] |}.

(** The [Cache] interface, over the state [C] of the cache behind it: a
    method that changes the cache returns its new state. *)
Record Cache (C : Type) : Type := mkCache {
  Get : C -> string -> ValidationResult * option error * bool;
  Set_ : C -> string -> ValidationResult -> option error -> C;
  Delete : C -> string -> C }.
Arguments Get {C}.
Arguments Set_ {C}.
Arguments Delete {C}.

(** The [Validator] struct.  [cache] is the method table of the cache
    the validator points to; the state of that cache is an argument of
    [Validate], which returns it updated. *)
Record Validator (C : Type) : Type := mkValidator {
  github : github.Client;
  cache : Cache C;
  org : string;
  rejectClassicPATs : bool }.
Arguments github {C}.
Arguments cache {C}.
Arguments org {C}.
Arguments rejectClassicPATs {C}.

(** [New], without the logger and the instruments. *)
Definition New {C : Type} (ghClient : github.Client) (cache : Cache C)
    (org : string) (rejectClassicPATs : bool) : Validator C :=
  {| github := ghClient; cache := cache; org := org;
     rejectClassicPATs := rejectClassicPATs |}.

(** The calls [Validate] makes on its two collaborators, in order. *)
Inductive Call : Type :=
  | cache_Get (token : string)
  | cache_Set (token : string) (result : ValidationResult) (err : option error)
  | github_GetUser (token : string)
  | github_CheckOrgMembership (token org username : string)
  | github_ListUserTeams (token org : string).

(** What a run of [Validate] leaves: the pair it returns
    ([*ValidationResult], [error]), the state of the cache, the calls made. *)
Record Run (C : Type) : Type := mkRun {
  result : option ValidationResult;
  err : option error;
  cache_state : C;
  calls : list Call }.
Arguments mkRun {C}.
Arguments result {C}.
Arguments err {C}.
Arguments cache_state {C}.
Arguments calls {C}.

Definition Validate {C : Type} (v : Validator C) (c : C) (token : string) : Run C :=
  (* Check cache first. *)
  let '(result, cachedErr, ok) := Get (cache v) c token in
  if ok then
    match cachedErr with
    | Some cachedErr => mkRun None (Some cachedErr) c [cache_Get token]
    | None => mkRun (Some result) None c [cache_Get token]
    end
  else
  (* Step 1: Identify the user. *)
  match github.GetUser (github v) token with
  | inr err =>
      if errors_Is err github.ErrRateLimited then
        mkRun None (Some (fmt_Errorf "%w" ErrRateLimited)) c
          [cache_Get token; github_GetUser token]
      else if errors_Is err github.ErrUnauthorized then
        let c := Set_ (cache v) c token zero (Some ErrUnauthorized) in
        mkRun None (Some (fmt_Errorf "%w" ErrUnauthorized)) c
          [cache_Get token; github_GetUser token;
           cache_Set token zero (Some ErrUnauthorized)]
      else
        mkRun None (Some (fmt_Errorf "getting user: %w" err)) c
          [cache_Get token; github_GetUser token]
  | inl (user, isClassicPAT) =>
  (* Check for classic PAT rejection. *)
  if rejectClassicPATs v && isClassicPAT then
    mkRun None (Some (fmt_Errorf "%w" ErrClassicPAT)) c
      [cache_Get token; github_GetUser token]
  else
  (* Step 2: Verify organization membership. *)
  let login := github.User_Login user in
  match github.CheckOrgMembership (github v) token (org v) login with
  | Some err =>
      let called := [cache_Get token; github_GetUser token;
                     github_CheckOrgMembership token (org v) login] in
      if errors_Is err github.ErrRateLimited then
        mkRun None (Some (fmt_Errorf "%w" ErrRateLimited)) c called
      else if errors_Is err github.ErrNotOrgMember then
        mkRun None (Some (fmt_Errorf "%w" ErrNotOrgMember)) c called
      else
        mkRun None (Some (fmt_Errorf "checking org membership: %w" err)) c called
  | None =>
  (* Step 3: Get teams. *)
  match github.ListUserTeams (github v) token (org v) with
  | inr err =>
      let called := [cache_Get token; github_GetUser token;
                     github_CheckOrgMembership token (org v) login;
                     github_ListUserTeams token (org v)] in
      if errors_Is err github.ErrRateLimited then
        mkRun None (Some (fmt_Errorf "%w" ErrRateLimited)) c called
      else
        mkRun None (Some (fmt_Errorf "listing user teams: %w" err)) c called
  | inl teams =>
      (* Extract team slugs. *)
      let teamSlugs := map github.Team_Slug teams in
      (* Build result. *)
      let result := {| Login := github.User_Login user;
                       ID := github.User_ID user;
                       Email := github.User_Email user;
                       Org := org v;
                       Teams := teamSlugs |} in
      (* Cache the result. *)
      let c := Set_ (cache v) c token result None in
      mkRun (Some result) None c
        [cache_Get token; github_GetUser token;
         github_CheckOrgMembership token (org v) login;
         github_ListUserTeams token (org v);
         cache_Set token result None]
  end end end.

End validator.

(** ** Package internal/cache *)
Module cache.

Record Entry : Type := mkEntry {
  Result : validator.ValidationResult;
  Err : option error;
  ExpiresAt : time.Time }.

Record Cache : Type := mkCache {
  ttl : time.Duration;
  maxSize : Z;
  entries : gmap string Entry }.

(** The cache [c] with [m] as its map: what an assignment to, or a
    [delete] on, [c.entries] leaves. *)
Definition with_entries (c : Cache) (m : gmap string Entry) : Cache :=
  {| ttl := ttl c; maxSize := maxSize c; entries := m |}.

Definition hashToken (token : string) : string :=
  let h := sha256.Sum256 (bytes_of_string token) in
  hex.EncodeToString h.

Definition New (ttl : time.Duration) (maxSize : Z) : Cache :=
  {| ttl := ttl; maxSize := maxSize; entries := ∅ |}.

(** [len(c.entries)] *)
Definition Len (c : Cache) : Z := Z.of_nat (size (entries c)).

(** The interval of the ticker of [cleanupLoop] ([/] of Go truncates). *)
Definition cleanupLoop_interval (c : Cache) : time.Duration :=
  let interval := Z.quot (ttl c) 2 in
  let interval := if 30 * time.Second <? interval then 30 * time.Second else interval in
  if interval <=? 0 then time.Second else interval.

(** The body of the loop of [removeExpired], on the map. *)
Definition removeExpired_body (now : time.Time) (m : gmap string Entry)
    (visited : string * Entry) : gmap string Entry :=
  let '(key, entry) := visited in
  if time.After now (ExpiresAt entry) then delete key m else m.

(** One tick of [cleanupLoop]: [now] is the clock at the tick, [visit]
    the order of the [range]. *)
Definition removeExpired (visit : list (string * Entry)) (now : time.Time)
    (c : Cache) : Cache :=
  with_entries c (foldl (removeExpired_body now) (entries c) visit).

Definition Get (now : time.Time) (c : Cache) (token : string)
  : validator.ValidationResult * option error * bool :=
  if ttl c =? 0 then (validator.zero, None, false)
  else
    let key := hashToken token in
    match entries c !! key with
    | None => (validator.zero, None, false)
    | Some entry =>
        if time.After now (ExpiresAt entry) then (validator.zero, None, false)
        else (Result entry, Err entry, true)
    end.

(** The variables of the loop of [evictOldest]. *)
Record Oldest : Type := mkOldest {
  oldestKey : string;
  oldestTime : time.Time;
  first : bool }.

Definition evictOldest_body (o : Oldest) (visited : string * Entry) : Oldest :=
  let '(key, entry) := visited in
  if first o || time.Before (ExpiresAt entry) (oldestTime o) then
    {| oldestKey := key; oldestTime := ExpiresAt entry; first := false |}
  else o.

Definition evictOldest (visit : list (string * Entry)) (c : Cache) : Cache :=
  let o := foldl evictOldest_body
             {| oldestKey := EmptyString; oldestTime := 0; first := true |} visit in
  if negb (first o) then with_entries c (delete (oldestKey o) (entries c))
  else c.

(** [Set]; [visit] is the order of the [range] of [evictOldest] when the
    call evicts, [now] the clock when the entry is built. *)
Definition Set_ (visit : list (string * Entry)) (now : time.Time) (c : Cache)
    (token : string) (result : validator.ValidationResult) (err : option error)
  : Cache :=
  if ttl c =? 0 then c
  else
    let key := hashToken token in
    let exists_ := bool_decide (is_Some (entries c !! key)) in
    (* Evict the entry closest to expiry if we're at capacity and this is a new key. *)
    let c := if negb exists_ && (0 <? maxSize c) && (maxSize c <=? Len c)
             then evictOldest visit c else c in
    with_entries c
      (<[key := {| Result := result; Err := err;
                   ExpiresAt := time.Add now (ttl c) |}]> (entries c)).

Definition Delete (c : Cache) (token : string) : Cache :=
  let key := hashToken token in
  if bool_decide (is_Some (entries c !! key))
  then with_entries c (delete key (entries c))
  else c.

(** [*Cache] as a [validator.Cache], for one run of [Validate]: [tGet]
    is the clock when [Get] reads it, [tSet] the clock when [Set] does,
    [visit] the order of the [range] in [Set]. *)
Definition as_validator_Cache (tGet : time.Time) (visit : list (string * Entry))
    (tSet : time.Time) : validator.Cache Cache :=
  {| validator.Get := Get tGet;
     validator.Set_ := Set_ visit tSet;
     validator.Delete := Delete |}.

(** A [range] over the map [m] visits each of its entries once. *)
Definition ranges (visit : list (string * Entry)) (m : gmap string Entry) : Prop :=
  visit ≡ₚ map_to_list m.

(** The operations that change the map of a cache, as steps. *)
Inductive step (c : Cache) : Cache -> Prop :=
  | step_Set visit now token result err :
      ranges visit (entries c) ->
      step c (Set_ visit now c token result err)
  | step_Delete token :
      step c (Delete c token)
  | step_removeExpired visit now :
      ranges visit (entries c) ->
      step c (removeExpired visit now c)
  | step_evictOldest visit :
      ranges visit (entries c) ->
      step c (evictOldest visit c).

(** The states of a cache made by [New ttl maxSize]. *)
Definition reachable (ttl : time.Duration) (maxSize : Z) (c : Cache) : Prop :=
  rtc step (New ttl maxSize) c.

(** [inserted c tokens c']: calls of [Set] on [tokens], one after the
    other and at any times, lead from [c] to [c']. *)
Inductive inserted : Cache -> list string -> Cache -> Prop :=
  | inserted_nil c : inserted c [] c
  | inserted_cons c visit now token result err tokens c' :
      ranges visit (entries c) ->
      inserted (Set_ visit now c token result err) tokens c' ->
      inserted c (token :: tokens) c'.

(** The keys of [tokens] are new to [c] and pairwise different. *)
Definition distinct_new_keys (c : Cache) (tokens : list string) : Prop :=
  NoDup (hashToken <$> tokens) /\
  forall token, token ∈ tokens -> entries c !! hashToken token = None.

(** Ticks of the background sweep, one after the other: each with the
    order of its [range] and its clock. *)
Definition sweeps (ticks : list (list (string * Entry) * time.Time)) (c : Cache)
  : Cache :=
  foldl (fun c tick => removeExpired (fst tick) (snd tick) c) c ticks.

End cache.

(** ** Vocabulary of the statements *)

(** The entry [Set] builds. *)
Definition set_entry (now : time.Time) (c : cache.Cache)
    (result : validator.ValidationResult) (err : option error) : cache.Entry :=
  {| cache.Result := result; cache.Err := err;
     cache.ExpiresAt := time.Add now (cache.ttl c) |}.

(** The loop of [evictOldest]: after a visit that is not empty, [first]
    is down and the loop holds a key of the visit whose expiry is the
    least of the visit. *)
Definition holds_oldest (o : cache.Oldest) (seen : list (string * cache.Entry)) : Prop :=
  cache.first o = false /\
  (exists e, (cache.oldestKey o, e) ∈ seen /\ cache.ExpiresAt e = cache.oldestTime o) /\
  (forall kv, kv ∈ seen -> cache.oldestTime o <= cache.ExpiresAt kv.2).

(** The innermost error of a chain. *)
Fixpoint innermost (err : error) : error :=
  match err with
  | errors_New _ => err
  | fmt_Errorf _ wrapped => innermost wrapped
  end.

(** The run of [Validate] on [token] meets the rate limit of the
    provider: a call it makes is answered with an error that is
    [github.ErrRateLimited].  That call is [GetUser]; or, after a
    [GetUser] that succeeds on a token not rejected as a classic PAT,
    [CheckOrgMembership]; or, after both succeed, [ListUserTeams]. *)
Definition rate_limited (gh : github.Client) (org : string)
    (rejectClassicPATs : bool) (token : string) : Prop :=
  (exists err, github.GetUser gh token = inr err /\
               errors_Is err github.ErrRateLimited = true)
  \/
  (exists user isClassicPAT,
     github.GetUser gh token = inl (user, isClassicPAT) /\
     rejectClassicPATs && isClassicPAT = false /\
     ((exists err,
         github.CheckOrgMembership gh token org (github.User_Login user) = Some err /\
         errors_Is err github.ErrRateLimited = true)
      \/
      (github.CheckOrgMembership gh token org (github.User_Login user) = None /\
       exists err, github.ListUserTeams gh token org = inr err /\
                   errors_Is err github.ErrRateLimited = true))).

(** [strings.EqualFold] on ASCII strings: equality up to the case of the
    letters A to Z. *)
Definition lower_ascii (a : ascii) : ascii :=
  let n := nat_of_ascii a in
  if (65 <=? n)%nat && (n <=? 90)%nat then ascii_of_nat (n + 32) else a.

Fixpoint EqualFold_ascii (s t : string) : bool :=
  match s, t with
  | EmptyString, EmptyString => true
  | String a s', String b t' =>
      Ascii.eqb (lower_ascii a) (lower_ascii b) && EqualFold_ascii s' t'
  | _, _ => false
  end.

(** ** Sample data, after the tests of the repository *)

Definition userA : validator.ValidationResult :=
  {| validator.Login := "userA"; validator.ID := 1; validator.Email := "a@example.com";
     validator.Org := "myorg"; validator.Teams := ["backend"] |}.
Definition userB : validator.ValidationResult :=
  {| validator.Login := "userB"; validator.ID := 2; validator.Email := "b@example.com";
     validator.Org := "myorg"; validator.Teams := [] |}.
Definition userC : validator.ValidationResult :=
  {| validator.Login := "userC"; validator.ID := 3; validator.Email := "c@example.com";
     validator.Org := "myorg"; validator.Teams := ["frontend"; "infra"] |}.

(** [New(60, 2)] after [Set("token-a")] at 1 and [Set("token-b")] at 2:
    a cache at capacity whose entries expire at 61 and 62. *)
Definition cache_a : cache.Cache :=
  cache.Set_ [] 1 (cache.New 60 2) "token-a" userA None.
Definition cache_ab : cache.Cache :=
  cache.Set_ (map_to_list (cache.entries cache_a)) 2 cache_a "token-b" userB None.

(** [New(0, 1000)]: the cache disabled, as with the flag [-cache-ttl 0]. *)
Definition cache_disabled : cache.Cache := cache.New 0 1000.

Definition testuser : github.User :=
  {| github.User_Login := "testuser"; github.User_ID := 42;
     github.User_Email := "test@example.com" |}.

(** A provider that rejects the token. *)
Definition gh_unauthorized : github.Client :=
  {| github.GetUser := fun _ => inr github.ErrUnauthorized;
     github.CheckOrgMembership := fun _ _ _ => None;
     github.ListUserTeams := fun _ _ => inl [] |}.

(** A provider that knows the user and is out of quota at the
    membership check. *)
Definition gh_rate_limited : github.Client :=
  {| github.GetUser := fun _ => inl (testuser, false);
     github.CheckOrgMembership := fun _ _ _ => Some github.ErrRateLimited;
     github.ListUserTeams := fun _ _ => inl [] |}.

(** The API behind the HTTP client: two pages of teams. *)
Definition api : github.HTTPClient := {| github.baseURL := "https://api.github.com" |}.

Definition team (slug org : string) : github.Team :=
  {| github.Team_Slug := slug;
     github.Team_Organization := {| github.Organization_Login := org |} |}.

Definition api_pages (c : github.HTTPClient) (token url : string)
  : (list github.Team * string) + error :=
  if decide (url = "https://api.github.com/user/teams?per_page=100") then
    inl ([team "platform" "Acme"; team "docs" "other-org"; team "security" "ACME"],
         "https://api.github.com/user/teams?per_page=100&page=2")
  else if decide (url = "https://api.github.com/user/teams?per_page=100&page=2") then
    inl ([team "sre" "acme"], EmptyString)
  else inr (errors_New "github: unexpected status 404: ").

(** A provider that knows the user as a member and lists the teams with
    the HTTP client over [api_pages]. *)
Definition gh_member : github.Client :=
  {| github.GetUser := fun _ => inl (testuser, false);
     github.CheckOrgMembership := fun _ _ _ => None;
     github.ListUserTeams := fun token org =>
       match github.HTTPClient_ListUserTeams EqualFold_ascii api_pages 8 api token org with
       | Some r => r
       | None => inr (errors_New "github: executing request: context deadline exceeded")
       end |}.

(** No element of a list of calls written out is a [cache_Set]. *)
Ltac no_cache_Set :=
  intros ? ? ?;
  repeat (apply not_elem_of_cons; split; [discriminate|]);
  apply not_elem_of_nil.

(** ** More of the Go library: strings, strconv, fmt, net/http *)

(** [strings.HasPrefix(s, prefix)] *)
Definition strings_HasPrefix (s prefix : string) : bool := String.prefix prefix s.

(** [strings.TrimPrefix(s, prefix)]: [s[len(prefix):]] when [s] has the
    prefix, [s] otherwise. *)
Definition strings_TrimPrefix (s prefix : string) : string :=
  if strings_HasPrefix s prefix
  then String.substring (String.length prefix)
                        (String.length s - String.length prefix)%nat s
  else s.

(** [strings.Join(elems, sep)] *)
Fixpoint strings_Join (elems : list string) (sep : string) : string :=
  match elems with
  | [] => EmptyString
  | [e] => e
  | e :: rest => e +:+ sep +:+ strings_Join rest sep
  end.

(** [strings.TrimSpace] on ASCII strings: the white space of ASCII is the
    space and the bytes 9 to 13. *)
Definition is_space_ascii (a : ascii) : bool :=
  let n := nat_of_ascii a in
  Nat.eqb n 32 || ((9 <=? n)%nat && (n <=? 13)%nat).

Fixpoint trim_left_ascii (s : string) : string :=
  match s with
  | String a s' => if is_space_ascii a then trim_left_ascii s' else s
  | EmptyString => EmptyString
  end.

Fixpoint trim_right_ascii (s : string) : string :=
  match s with
  | String a s' =>
      match trim_right_ascii s' with
      | EmptyString => if is_space_ascii a then EmptyString else String a EmptyString
      | rest => String a rest
      end
  | EmptyString => EmptyString
  end.

Definition TrimSpace_ascii (s : string) : string :=
  trim_right_ascii (trim_left_ascii s).

(** [strconv.Atoi(s)] with [int] of 64 bits: an optional sign, then one
    or more decimal digits, of a value that fits [int]; [None] is the
    result with an error. *)
Definition digit_value (a : ascii) : option Z :=
  let n := Z.of_N (N_of_ascii a) in
  if (48 <=? n) && (n <=? 57) then Some (n - 48) else None.

Fixpoint digits_value (s : string) (acc : Z) : option Z :=
  match s with
  | EmptyString => Some acc
  | String a s' =>
      match digit_value a with
      | Some d => digits_value s' (10 * acc + d)
      | None => None
      end
  end.

Definition strconv_Atoi (s : string) : option Z :=
  let '(neg, digits) :=
    match s with
    | String "+" rest => (false, rest)
    | String "-" rest => (true, rest)
    | _ => (false, s)
    end in
  match digits with
  | EmptyString => None
  | _ =>
      match digits_value digits 0 with
      | None => None
      | Some un =>
          let n := if neg then - un else un in
          if (- 2 ^ 63 <=? n) && (n <? 2 ^ 63) then Some n else None
      end
  end.

(** The verb [%d] of [fmt] on an integer. *)
Definition fmt_d (n : Z) : string := pretty n.

(** [net/http]: headers, and of requests and responses the fields the
    code reads or writes. *)
Module http.

(** [map[string][]string] *)
Definition Header : Type := gmap string (list string).

(** The bytes of a header name: letters, digits and the marks of a token. *)
Definition validHeaderFieldByte (a : ascii) : bool :=
  let n := nat_of_ascii a in
  ((48 <=? n) && (n <=? 57))%nat || ((97 <=? n) && (n <=? 122))%nat
  || ((65 <=? n) && (n <=? 90))%nat
  || existsb (Ascii.eqb a) (list_ascii_of_string "!#$%&'*+-.^_`|~").

Definition upper_ascii (a : ascii) : ascii :=
  let n := nat_of_ascii a in
  if (97 <=? n)%nat && (n <=? 122)%nat then ascii_of_nat (n - 32) else a.

Fixpoint canonical (upper : bool) (s : string) : string :=
  match s with
  | EmptyString => EmptyString
  | String a s' =>
      let a' := if upper then upper_ascii a else lower_ascii a in
      String a' (canonical (Ascii.eqb a' "-") s')
  end.

(** [http.CanonicalHeaderKey]: the first letter and every letter after a
    hyphen in upper case, the others in lower case; a name with a byte
    that no header name has is left as it is. *)
Definition CanonicalHeaderKey (s : string) : string :=
  if forallb validHeaderFieldByte (list_ascii_of_string s)
  then canonical true s else s.

(** [h.Get(key)] *)
Definition Header_Get (h : Header) (key : string) : string :=
  match h !! CanonicalHeaderKey key with
  | Some (v :: _) => v
  | _ => EmptyString
  end.

(** [h.Set(key, value)] *)
Definition Header_Set (h : Header) (key value : string) : Header :=
  <[CanonicalHeaderKey key := [value]]> h.

Record Request : Type := mkRequest {
  Method : string;
  URL : string;
  Request_Header : Header }.

Record Response : Type := mkResponse {
  StatusCode : Z;
  Response_Header : Header;
  Body : string }.

Definition MethodGet : string := "GET".
Definition StatusOK : Z := 200.
Definition StatusNoContent : Z := 204.
Definition StatusUnauthorized : Z := 401.
Definition StatusForbidden : Z := 403.
Definition StatusNotFound : Z := 404.
Definition StatusTooManyRequests : Z := 429.
Definition StatusInternalServerError : Z := 500.

End http.

(** ** Package internal/github, httpclient.go: the requests *)
Module httpclient.

Definition acceptHeader : string := "application/vnd.github+json".

(** [setHeaders] *)
Definition setHeaders (req : http.Request) (token : string) : http.Request :=
  let h := http.Header_Set (http.Request_Header req) "Authorization" ("Bearer " +:+ token) in
  let h := http.Header_Set h "Accept" acceptHeader in
  {| http.Method := http.Method req; http.URL := http.URL req;
     http.Request_Header := h |}.

(** [checkRateLimit] *)
Definition checkRateLimit (resp : http.Response) : option error :=
  if http.StatusCode resp =? http.StatusTooManyRequests then Some github.ErrRateLimited
  else
    let remaining := http.Header_Get (http.Response_Header resp) "X-RateLimit-Remaining" in
    if decide (remaining = EmptyString) then None
    else
      match strconv_Atoi remaining with
      | None => None
      | Some n => if n =? 0 then Some github.ErrRateLimited else None
      end.

Section requests.

(** The error of [url.Parse] on a URL, nil when it parses: the one way
    [http.NewRequestWithContext] fails on the calls of the code. *)
Variable url_Parse : string -> option error.

(** [c.httpClient.Do(req)]: the round trip. *)
Variable httpClient_Do : http.Request -> http.Response + error.

(** [json.NewDecoder(resp.Body).Decode] into a [User] and into a
    [[]Team]. *)
Variable json_Decode_User : string -> github.User + error.
Variable json_Decode_Teams : string -> list github.Team + error.

(** [linkNextRE.FindStringSubmatch]: the match and its groups, or nil. *)
Variable linkNextRE_FindStringSubmatch : string -> list string.

(** [strings.TrimSpace] *)
Variable strings_TrimSpace : string -> string.

(** [newRequest] *)
Definition newRequest (method url : string) : http.Request + error :=
  match url_Parse url with
  | Some err => inr err
  | None => inl {| http.Method := method; http.URL := url; http.Request_Header := ∅ |}
  end.

(** [fmt.Errorf] on the status and the body of a response: an error
    that wraps none. *)
Definition unexpected_status (resp : http.Response) : error :=
  errors_New ("github: unexpected status " +:+ fmt_d (http.StatusCode resp) +:+ ": "
              +:+ strings_TrimSpace (http.Body resp)).

Definition GetUser (c : github.HTTPClient) (token : string)
  : (github.User * bool) + error :=
  let urlPath := "/user" in
  let fullURL := github.baseURL c +:+ urlPath in
  match newRequest http.MethodGet fullURL with
  | inr err => inr (fmt_Errorf "github: creating request: %w" err)
  | inl req =>
  let req := setHeaders req token in
  match httpClient_Do req with
  | inr err => inr (fmt_Errorf "github: executing request: %w" err)
  | inl resp =>
  (* Check for rate limiting before other status checks. *)
  match checkRateLimit resp with
  | Some err => inr err
  | None =>
  if http.StatusCode resp =? http.StatusUnauthorized then inr github.ErrUnauthorized
  else if (http.StatusCode resp <? 200) || (300 <=? http.StatusCode resp) then
    inr (unexpected_status resp)
  else
  match json_Decode_User (http.Body resp) with
  | inr err => inr (fmt_Errorf "github: decoding user response: %w" err)
  | inl user =>
      (* X-OAuth-Scopes is present for classic PATs. *)
      let isClassicPAT :=
        negb (bool_decide (http.Header_Get (http.Response_Header resp) "X-OAuth-Scopes"
                           = EmptyString)) in
      inl (user, isClassicPAT)
  end end end end.

Definition CheckOrgMembership (c : github.HTTPClient) (token org username : string)
  : option error :=
  let urlPath := "/orgs/" +:+ org +:+ "/members/" +:+ username in
  let fullURL := github.baseURL c +:+ urlPath in
  match newRequest http.MethodGet fullURL with
  | inr err => Some (fmt_Errorf "github: creating request: %w" err)
  | inl req =>
  let req := setHeaders req token in
  match httpClient_Do req with
  | inr err => Some (fmt_Errorf "github: executing request: %w" err)
  | inl resp =>
  match checkRateLimit resp with
  | Some err => Some err
  | None =>
  if http.StatusCode resp =? http.StatusNoContent then None
  else if http.StatusCode resp =? http.StatusNotFound then Some github.ErrNotOrgMember
  else if http.StatusCode resp =? http.StatusUnauthorized then Some github.ErrUnauthorized
  else Some (unexpected_status resp)
  end end end.

(** [parseLinkNext] *)
Definition parseLinkNext (header : string) : string :=
  if decide (header = EmptyString) then EmptyString
  else
    let matches := linkNextRE_FindStringSubmatch header in
    if (length matches <? 2)%nat then EmptyString
    else nth 1 matches EmptyString.

Definition fetchTeamsPage (c : github.HTTPClient) (token url : string)
  : (list github.Team * string) + error :=
  match newRequest http.MethodGet url with
  | inr err => inr (fmt_Errorf "github: creating request: %w" err)
  | inl req =>
  let req := setHeaders req token in
  match httpClient_Do req with
  | inr err => inr (fmt_Errorf "github: executing request: %w" err)
  | inl resp =>
  match checkRateLimit resp with
  | Some err => inr err
  | None =>
  if http.StatusCode resp =? http.StatusUnauthorized then inr github.ErrUnauthorized
  else if (http.StatusCode resp <? 200) || (300 <=? http.StatusCode resp) then
    inr (unexpected_status resp)
  else
  match json_Decode_Teams (http.Body resp) with
  | inr err => inr (fmt_Errorf "github: decoding teams response: %w" err)
  | inl teams =>
      (* Parse Link header for pagination. *)
      let nextURL := parseLinkNext (http.Header_Get (http.Response_Header resp) "Link") in
      inl (teams, nextURL)
  end end end end.

End requests.

End httpclient.

(** ** Package internal/handler *)
Module handler.

(** The [TokenValidator] interface, over the state [S] of the validator
    behind it: [Validate] returns the pair of the Go method and the new
    state. *)
Record TokenValidator (S : Type) : Type := mkTokenValidator {
  Validate : S -> string -> option validator.ValidationResult * option error * S }.
Arguments Validate {S}.

(** [*validator.Validator] as a [TokenValidator]. *)
Definition of_Validator {C : Type} (v : validator.Validator C) : TokenValidator C :=
  {| Validate := fun c token =>
       let run := validator.Validate v c token in
       (validator.result run, validator.err run, validator.cache_state run) |}.

Record errorResponse : Type := mkErrorResponse {
  Error : string }.

(** What the handler writes as body: nothing, or the JSON text of an
    [errorResponse] (kept as the value encoded). *)
Inductive Body : Type :=
  | no_body
  | json_body (v : errorResponse).

(** The [http.ResponseWriter], as what it has received: the headers,
    the status of [WriteHeader], the body. *)
Record ResponseWriter : Type := mkResponseWriter {
  Header : http.Header;
  Code : Z;
  Written : Body }.

(** The writer a server hands to a handler. *)
Definition new_writer : ResponseWriter :=
  {| Header := ∅; Code := 0; Written := no_body |}.

Definition authHeaderPrefix : string := "X-Auth-User-".

(** [writeJSONError] *)
Definition writeJSONError (w : ResponseWriter) (statusCode : Z) (message : string)
  : ResponseWriter :=
  {| Header := http.Header_Set (Header w) "Content-Type" "application/json";
     Code := statusCode;
     Written := json_body {| Error := message |} |}.

(** [handleValidationError] *)
Definition handleValidationError (w : ResponseWriter) (err : error) : ResponseWriter :=
  if errors_Is err validator.ErrUnauthorized then
    writeJSONError w http.StatusUnauthorized "access denied"
  else if errors_Is err validator.ErrNotOrgMember then
    writeJSONError w http.StatusForbidden "access denied"
  else if errors_Is err validator.ErrClassicPAT then
    writeJSONError w http.StatusForbidden "forbidden: classic PATs are not allowed"
  else if errors_Is err validator.ErrRateLimited then
    writeJSONError w http.StatusTooManyRequests "rate limit exceeded, try again later"
  else
    writeJSONError w http.StatusInternalServerError "internal server error".

(** What serving a request leaves: the response, the state of the
    validator, the tokens [Validate] was called on. *)
Record Served (S : Type) : Type := mkServed {
  response : ResponseWriter;
  state : S;
  validated : list string }.
Arguments mkServed {S}.
Arguments response {S}.
Arguments state {S}.
Arguments validated {S}.

Section handleValidate.

(** [strings.TrimSpace] *)
Variable strings_TrimSpace : string -> string.

(** [parseBearerToken] *)
Definition parseBearerToken (header : string) : string * bool :=
  let prefix := "Bearer " in
  if negb (strings_HasPrefix header prefix) then (EmptyString, false)
  else
    let token := strings_TrimPrefix header prefix in
    let token := strings_TrimSpace token in
    if decide (token = EmptyString) then (EmptyString, false)
    else (token, true).

(** The loop over the names of the headers of the request: some name
    has the prefix of the headers of this service. *)
Definition injected (h : http.Header) : bool :=
  existsb (fun kv => strings_HasPrefix kv.1 authHeaderPrefix) (map_to_list h).

(** [handleValidate].  [None] is the panic of Go on [result.Login] when
    the validator returns a nil result with a nil error. *)
Definition handleValidate {S : Type} (h : TokenValidator S) (s : S)
    (w : ResponseWriter) (r : http.Request) : option (Served S) :=
  (* Reject requests with pre-set auth identity headers. *)
  if injected (http.Request_Header r) then
    Some (mkServed
      (writeJSONError w http.StatusForbidden "forbidden: request contains disallowed headers")
      s [])
  else
  (* Extract the Authorization header. *)
  let authHeader := http.Header_Get (http.Request_Header r) "Authorization" in
  if decide (authHeader = EmptyString) then
    Some (mkServed
      (writeJSONError w http.StatusUnauthorized "missing or malformed Authorization header")
      s [])
  else
  (* Parse the bearer token. *)
  let '(token, ok) := parseBearerToken authHeader in
  if negb ok then
    Some (mkServed
      (writeJSONError w http.StatusUnauthorized "missing or malformed Authorization header")
      s [])
  else
  (* Validate the token. *)
  let '(result, err, s) := Validate h s token in
  match err with
  | Some err => Some (mkServed (handleValidationError w err) s [token])
  | None =>
  match result with
  | None => None
  | Some result =>
      (* Success: set response headers with user info. *)
      let hd := http.Header_Set (Header w) "X-Auth-User-Login" (validator.Login result) in
      let hd := http.Header_Set hd "X-Auth-User-Id" (fmt_d (validator.ID result)) in
      let hd := http.Header_Set hd "X-Auth-User-Org" (validator.Org result) in
      let hd := http.Header_Set hd "X-Auth-User-Teams"
                  (strings_Join (validator.Teams result) ",") in
      Some (mkServed {| Header := hd; Code := http.StatusOK; Written := Written w |}
                     s [token])
  end end.

End handleValidate.

End handler.

(** ** Package main: the configuration *)
Module main.

Record Config : Type := mkConfig {
  Org : string;
  Listen : string;
  CacheTTL : time.Duration;
  CacheMaxSize : Z;
  RejectClassicPATs : bool }.

Section validate.

(** [Duration.String], the text of the verb [%s] on a [time.Duration]. *)
Variable Duration_String : time.Duration -> string.

(** [validate] *)
Definition validate (c : Config) : option error :=
  if decide (Org c = EmptyString) then Some (errors_New "flag -org is required")
  else if CacheTTL c <? 0 then
    Some (errors_New ("flag -cache-ttl must be non-negative, got "
                      +:+ Duration_String (CacheTTL c)))
  else if CacheMaxSize c <=? 0 then
    Some (errors_New ("flag -cache-max-size must be positive, got "
                      +:+ fmt_d (CacheMaxSize c)))
  else None.

End validate.

(** The cache [main] builds from a configuration. *)
Definition tokenCache (cfg : Config) : cache.Cache :=
  cache.New (CacheTTL cfg) (CacheMaxSize cfg).

End main.

(** ** More vocabulary *)

(** An error that is none of the four errors of the validator. *)
Definition internal_error (err : error) : Prop :=
  errors_Is err validator.ErrUnauthorized = false /\
  errors_Is err validator.ErrNotOrgMember = false /\
  errors_Is err validator.ErrClassicPAT = false /\
  errors_Is err validator.ErrRateLimited = false.

(** The calls of [Validate] on the provider. *)
Definition is_provider_call (call : validator.Call) : bool :=
  match call with
  | validator.github_GetUser _
  | validator.github_CheckOrgMembership _ _ _
  | validator.github_ListUserTeams _ _ => true
  | _ => false
  end.

(** The pages the loop of [ListUserTeams] goes through from [url] on:
    the teams of each page, and how the walk ends, at a page with no
    next link ([None]) or at a request that fails ([Some err]). *)
Inductive follows (fetchTeamsPage : github.HTTPClient -> string -> string ->
                                    (list github.Team * string) + error)
    (c : github.HTTPClient) (token : string)
  : string -> list (list github.Team) -> option error -> Prop :=
  | follows_end : follows fetchTeamsPage c token EmptyString [] None
  | follows_fail url err :
      url <> EmptyString ->
      fetchTeamsPage c token url = inr err ->
      follows fetchTeamsPage c token url [] (Some err)
  | follows_next url teams next pages outcome :
      url <> EmptyString ->
      fetchTeamsPage c token url = inl (teams, next) ->
      follows fetchTeamsPage c token next pages outcome ->
      follows fetchTeamsPage c token url (teams :: pages) outcome.

(** The request the client sends to [url] for [token]: a GET with the
    headers of [setHeaders]. *)
Definition api_request (url token : string) : http.Request :=
  httpclient.setHeaders
    {| http.Method := http.MethodGet; http.URL := url; http.Request_Header := ∅ |}
    token.

(** The messages of the error responses of [handleValidate]. *)
Definition error_messages : list string :=
  ["forbidden: request contains disallowed headers";
   "missing or malformed Authorization header";
   "access denied";
   "forbidden: classic PATs are not allowed";
   "rate limit exceeded, try again later";
   "internal server error"].

(** The request has no header of the service and the bearer token
    [token]: its Authorization header is [Bearer ] and a text that
    [strings.TrimSpace] trims to [token], which is not empty. *)
Definition bearer (strings_TrimSpace : string -> string) (r : http.Request)
    (token : string) : Prop :=
  (forall name values, http.Request_Header r !! name = Some values ->
                       strings_HasPrefix name handler.authHeaderPrefix = false) /\
  token <> EmptyString /\
  exists rest more,
    http.Request_Header r !! "Authorization" = Some (("Bearer " +:+ rest) :: more) /\
    strings_TrimSpace rest = token.

(** An element of a list written out. *)
Ltac in_list := repeat (apply elem_of_cons; ((by left) || right)).

(** ** More sample data *)

(** A provider whose user holds a classic PAT. *)
Definition gh_classic : github.Client :=
  {| github.GetUser := fun _ => inl (testuser, true);
     github.CheckOrgMembership := fun _ _ _ => None;
     github.ListUserTeams := fun _ _ => inl [] |}.

(** A provider whose user is no member of the organization. *)
Definition gh_not_member : github.Client :=
  {| github.GetUser := fun _ => inl (testuser, false);
     github.CheckOrgMembership := fun _ _ _ => Some github.ErrNotOrgMember;
     github.ListUserTeams := fun _ _ => inl [] |}.


(** A provider that cannot be reached. *)
Definition connection_refused : error :=
  fmt_Errorf "github: executing request: %w" (errors_New "dial tcp: connection refused").

Definition gh_down : github.Client :=
  {| github.GetUser := fun _ => inr connection_refused;
     github.CheckOrgMembership := fun _ _ _ => Some connection_refused;
     github.ListUserTeams := fun _ _ => inr connection_refused |}.

(** A response with status 401 and a remaining quota of 0, and one with
    status 401 and quota left. *)
Definition resp_exhausted : http.Response :=
  {| http.StatusCode := 401;
     http.Response_Header := {[ "X-Ratelimit-Remaining" := ["0"] ]};
     http.Body := "Bad credentials" |}.

Definition resp_bad_credentials : http.Response :=
  {| http.StatusCode := 401;
     http.Response_Header := {[ "X-Ratelimit-Remaining" := ["4999"] ]};
     http.Body := "Bad credentials" |}.

(** A provider behind the HTTP client, over a network that answers
    every request with [resp]. *)
Definition gh_http (resp : http.Response) : github.Client :=
  {| github.GetUser :=
       httpclient.GetUser (fun _ => None) (fun _ => inl resp) (fun _ => inl testuser)
         TrimSpace_ascii api;
     github.CheckOrgMembership :=
       httpclient.CheckOrgMembership (fun _ => None) (fun _ => inl resp)
         TrimSpace_ascii api;
     github.ListUserTeams := fun _ _ => inl [] |}.

(** Requests to [/validate]: with a bearer token, and with a header of
    the service besides. *)
Definition request_bearer : http.Request :=
  {| http.Method := "GET"; http.URL := "/validate";
     http.Request_Header := {[ "Authorization" := ["Bearer tok"] ]} |}.

Definition request_injected : http.Request :=
  {| http.Method := "GET"; http.URL := "/validate";
     http.Request_Header := {[ "Authorization" := ["Bearer tok"];
                               "X-Auth-User-Login" := ["admin"] ]} |}.

(** The validator over a provider and the cache, with the clock at 5
    for [Get] and at 6 for [Set]. *)
Definition sample_validator (gh : github.Client) : validator.Validator cache.Cache :=
  validator.New gh
    (cache.as_validator_Cache 5 (map_to_list (cache.entries cache_ab)) 6) "acme" true.

(** The mock validator of the tests of the handler: it answers every
    token with [answer], and has no state. *)
Definition mockValidator (answer : option validator.ValidationResult * option error)
  : handler.TokenValidator unit :=
  {| handler.Validate := fun s _ => (answer, s) |}.

Definition octocat (teams : list string) : validator.ValidationResult :=
  {| validator.Login := "octocat"; validator.ID := 12345; validator.Email := EmptyString;
     validator.Org := "test-org"; validator.Teams := teams |}.

(** [httptest.NewRequest(GET, /validate)] with the Authorization header
    set to [auth]. *)
Definition request_auth (auth : string) : http.Request :=
  {| http.Method := "GET"; http.URL := "/validate";
     http.Request_Header := http.Header_Set ∅ "Authorization" auth |}.

(** ** The embedding on the tests of the repository *)

(** The digests of the standard's test messages. *)
Example hashToken_abc :
  cache.hashToken "abc"
  = "ba7816bf8f01cfea414140de5dae2223b00361a396177a9cb410ff61f20015ad".
Proof. vm_compute. reflexivity. Qed.

Example hashToken_empty :
  cache.hashToken EmptyString
  = "e3b0c44298fc1c149afbf4c8996fb92427ae41e4649b934ca495991b7852b855".
Proof. vm_compute. reflexivity. Qed.

Example hashToken_two_blocks :
  cache.hashToken "abcdbcdecdefdefgefghfghighijhijkijkljklmklmnlmnomnopnopq"
  = "248d6a61d20638b8e5c026930c3e6039a33ce45964ff2167f6ecedd419db06c1".
Proof. vm_compute. reflexivity. Qed.

Example TestCache_HashToken :
  String.length (cache.hashToken "test-token-1") = 64%nat /\
  cache.hashToken "test-token-1" <> cache.hashToken "test-token-2".
Proof. split; [vm_compute; reflexivity|]. vm_compute. discriminate. Qed.

(** The package-level errors are seven different values. *)
Example package_errors_differ :
  NoDup [github.ErrUnauthorized; github.ErrNotOrgMember; github.ErrRateLimited;
         validator.ErrUnauthorized; validator.ErrNotOrgMember;
         validator.ErrClassicPAT; validator.ErrRateLimited].
Proof. apply (bool_decide_unpack _). vm_compute. exact I. Qed.

Example errors_Is_wrapped :
  errors_Is (fmt_Errorf "%w" validator.ErrRateLimited) validator.ErrRateLimited = true /\
  errors_Is (fmt_Errorf "github: executing request: %w" (errors_New "EOF"))
            github.ErrRateLimited = false.
Proof. split; vm_compute; reflexivity. Qed.

Example TestCache_ZeroTTL :
  let c := cache.Set_ [] 1 (cache.New 0 1000) "test-token-1" userA None in
  cache.Get 1 c "test-token-1" = (validator.zero, None, false) /\ cache.Len c = 0.
Proof. split; vm_compute; reflexivity. Qed.

Example TestCache_Expiry :
  let c := cache.Set_ [] 0 (cache.New 50 1000) "test-token-1" userA None in
  cache.Get 0 c "test-token-1" = (userA, None, true) /\
  cache.Get 70 c "test-token-1" = (validator.zero, None, false).
Proof. split; vm_compute; reflexivity. Qed.

Example TestCache_MaxSize_EvictsOldest :
  let c := cache.Set_ (map_to_list (cache.entries cache_ab)) 3 cache_ab
             "token-c" userC None in
  cache.Len cache_ab = 2 /\ cache.Len c = 2 /\
  cache.Get 3 c "token-a" = (validator.zero, None, false) /\
  cache.Get 3 c "token-b" = (userB, None, true) /\
  cache.Get 3 c "token-c" = (userC, None, true).
Proof. repeat split; vm_compute; reflexivity. Qed.

(** The other order of the [range] evicts the same entry. *)
Example TestCache_MaxSize_EvictsOldest_reversed :
  cache.Set_ (rev (map_to_list (cache.entries cache_ab))) 3 cache_ab "token-c" userC None
  = cache.Set_ (map_to_list (cache.entries cache_ab)) 3 cache_ab "token-c" userC None.
Proof. vm_compute. reflexivity. Qed.

Example TestCache_Cleanup :
  cache.Len (cache.removeExpired (map_to_list (cache.entries cache_ab)) 150 cache_ab) = 0.
Proof. vm_compute. reflexivity. Qed.

Example TestHTTPClient_ListUserTeams_CaseInsensitiveFilter :
  List.filter (github.inOrg EqualFold_ascii "my-org")
    [team "backend" "My-Org"; team "frontend" "MY-ORG"; team "infra" "other-org"]
  = [team "backend" "My-Org"; team "frontend" "MY-ORG"].
Proof. vm_compute. reflexivity. Qed.

Example TestHTTPClient_ListUserTeams_Pagination :
  github.HTTPClient_ListUserTeams EqualFold_ascii api_pages 2 api "token" "acme"
  = Some (inl [team "platform" "Acme"; team "security" "ACME"; team "sre" "acme"]) /\
  github.HTTPClient_ListUserTeams EqualFold_ascii api_pages 1 api "token" "acme" = None.
Proof. split; vm_compute; reflexivity. Qed.

Example TestValidate_ClassicPAT_Rejected :
  let gh := {| github.GetUser := fun _ => inl (testuser, true);
               github.CheckOrgMembership := fun _ _ _ => None;
               github.ListUserTeams := fun _ _ => inl [] |} in
  validator.Validate
    (validator.New gh (cache.as_validator_Cache 5 [] 6) "myorg" true)
    (cache.New 60 1000) "fake-token-classic"
  = validator.mkRun None (Some (fmt_Errorf "%w" validator.ErrClassicPAT))
      (cache.New 60 1000)
      [validator.cache_Get "fake-token-classic";
       validator.github_GetUser "fake-token-classic"].
Proof. vm_compute. reflexivity. Qed.

Example TestValidate_NotOrgMember :
  let gh := {| github.GetUser := fun _ => inl (testuser, false);
               github.CheckOrgMembership := fun _ _ _ => Some github.ErrNotOrgMember;
               github.ListUserTeams := fun _ _ => inl [] |} in
  let run := validator.Validate
               (validator.New gh (cache.as_validator_Cache 5 [] 6) "myorg" false)
               (cache.New 60 1000) "fake-token-nonmember" in
  validator.err run = Some (fmt_Errorf "%w" validator.ErrNotOrgMember) /\
  validator.cache_state run = cache.New 60 1000.
Proof. split; vm_compute; reflexivity. Qed.

(** ** Properties of the cache *)

(** The ticker of the sweep gets a positive interval of at most 30 s. *)
Lemma cleanupLoop_interval_bounds c :
  0 < cache.cleanupLoop_interval c <= 30 * time.Second.
Proof.
  unfold cache.cleanupLoop_interval, time.Second.
  destruct (Z.ltb_spec (30 * 1000000000) (Z.quot (cache.ttl c) 2)).
  - destruct (Z.leb_spec (30 * 1000000000) 0); lia.
  - destruct (Z.leb_spec (Z.quot (cache.ttl c) 2) 0); lia.
Qed.

Lemma with_entries_entries c m : cache.entries (cache.with_entries c m) = m.
Proof. reflexivity. Qed.

Lemma with_entries_ttl c m : cache.ttl (cache.with_entries c m) = cache.ttl c.
Proof. reflexivity. Qed.

Lemma with_entries_maxSize c m : cache.maxSize (cache.with_entries c m) = cache.maxSize c.
Proof. reflexivity. Qed.

Lemma with_entries_same c : cache.with_entries c (cache.entries c) = c.
Proof. by destruct c. Qed.

Lemma After_true t u : time.After t u = true <-> u < t.
Proof. unfold time.After. apply Z.ltb_lt. Qed.

Lemma After_false t u : time.After t u = false <-> t <= u.
Proof. unfold time.After. apply Z.ltb_ge. Qed.

Lemma Before_true t u : time.Before t u = true <-> t < u.
Proof. unfold time.Before. apply Z.ltb_lt. Qed.

Lemma Before_false t u : time.Before t u = false <-> u <= t.
Proof. unfold time.Before. apply Z.ltb_ge. Qed.

Lemma ranges_elem_of visit (m : gmap string cache.Entry) k e :
  cache.ranges visit m -> (k, e) ∈ visit <-> m !! k = Some e.
Proof.
  unfold cache.ranges. intros Hvisit.
  rewrite <- elem_of_map_to_list. by apply elem_of_Permutation_proper.
Qed.

(** The loop of [removeExpired] deletes the keys it visits with an
    expired entry, and nothing else. *)
Lemma removeExpired_loop_lookup now visit (m : gmap string cache.Entry) key :
  foldl (cache.removeExpired_body now) m visit !! key
  = if bool_decide (Exists (fun kv => kv.1 = key /\ cache.ExpiresAt kv.2 < now) visit)
    then None else m !! key.
Proof.
  revert m. induction visit as [|[k e] visit IH]; intros m; simpl.
  - done.
  - rewrite IH.
    destruct (time.After now (cache.ExpiresAt e)) eqn:Hexp.
    + apply After_true in Hexp.
      destruct (decide (k = key)) as [->|Hne].
      * rewrite lookup_delete_eq.
        rewrite (bool_decide_eq_true_2 (Exists _ (_ :: _))).
        2:{ apply Exists_cons. left. done. }
        by case_bool_decide.
      * rewrite lookup_delete_ne by done.
        apply (f_equal (fun b : bool => if b then None else m !! key)).
        apply bool_decide_ext. rewrite Exists_cons. simpl.
        split; [by right|]. intros [[? _]|?]; [congruence|done].
    + apply After_false in Hexp.
      apply (f_equal (fun b : bool => if b then None else m !! key)).
      apply bool_decide_ext. rewrite Exists_cons. simpl.
      split; [by right|]. intros [[_ ?]|?]; [lia|done].
Qed.

(** A sweep keeps or removes an entry; it never changes or adds one. *)
Lemma removeExpired_lookup_any visit now c key :
  cache.entries (cache.removeExpired visit now c) !! key = cache.entries c !! key
  \/ cache.entries (cache.removeExpired visit now c) !! key = None.
Proof.
  unfold cache.removeExpired. rewrite with_entries_entries, removeExpired_loop_lookup.
  case_bool_decide; auto.
Qed.

Lemma removeExpired_lookup visit now c key :
  cache.ranges visit (cache.entries c) ->
  cache.entries (cache.removeExpired visit now c) !! key
  = match cache.entries c !! key with
    | Some e => if time.After now (cache.ExpiresAt e) then None else Some e
    | None => None
    end.
Proof.
  intros Hvisit. unfold cache.removeExpired.
  rewrite with_entries_entries, removeExpired_loop_lookup.
  destruct (cache.entries c !! key) as [e|] eqn:Hkey.
  - destruct (time.After now (cache.ExpiresAt e)) eqn:Hexp.
    + apply After_true in Hexp. rewrite bool_decide_eq_true_2; [done|].
      apply Exists_exists. exists (key, e). split; [|done].
      by apply (ranges_elem_of _ _ _ _ Hvisit).
    + apply After_false in Hexp. rewrite bool_decide_eq_false_2; [done|].
      intros ([k e'] & Hin & Hk & Hlt)%Exists_exists. simpl in *. subst k.
      apply (ranges_elem_of _ _ _ _ Hvisit) in Hin.
      assert (e' = e) by congruence. subst. lia.
  - by case_bool_decide.
Qed.


Lemma evictOldest_body_holds o seen kv :
  (cache.first o = true /\ seen = []) \/ holds_oldest o seen ->
  holds_oldest (cache.evictOldest_body o kv) (seen ++ [kv]).
Proof.
  destruct kv as [k e]. unfold cache.evictOldest_body.
  intros [[Hfirst ->]|(Hfirst & (e0 & Hin & Htime) & Hmin)].
  - rewrite Hfirst. simpl. split; [done|]. split.
    + exists e. split; [apply list_elem_of_singleton|]; done.
    + intros kv ->%list_elem_of_singleton. simpl. lia.
  - rewrite Hfirst. simpl.
    destruct (time.Before (cache.ExpiresAt e) (cache.oldestTime o)) eqn:Hlt.
    + apply Before_true in Hlt. split; [done|]. simpl. split.
      * exists e. split; [|done]. apply elem_of_app. right. by apply list_elem_of_singleton.
      * intros kv [Hkv| ->%list_elem_of_singleton]%elem_of_app; simpl; [|lia].
        specialize (Hmin _ Hkv). lia.
    + apply Before_false in Hlt. split; [done|]. split.
      * exists e0. split; [|done]. apply elem_of_app. by left.
      * intros kv [Hkv| ->%list_elem_of_singleton]%elem_of_app; simpl; [|lia].
        by apply Hmin.
Qed.

Lemma evictOldest_loop_holds visit o seen :
  (cache.first o = true /\ seen = []) \/ holds_oldest o seen ->
  visit <> [] ->
  holds_oldest (foldl cache.evictOldest_body o visit) (seen ++ visit).
Proof.
  revert o seen. induction visit as [|kv visit IH]; intros o seen Hinv Hne; [done|].
  simpl. pose proof (evictOldest_body_holds o seen kv Hinv) as Hstep.
  destruct visit as [|kv' visit].
  - done.
  - rewrite (cons_middle kv seen), app_assoc. apply IH; [by right|done].
Qed.

(** What [evictOldest] does to a map that is not empty: it deletes one
    key, whose entry expires no later than any other. *)
Lemma evictOldest_evicts visit c :
  cache.ranges visit (cache.entries c) ->
  cache.entries c <> ∅ ->
  exists k e,
    cache.entries c !! k = Some e /\
    (forall k' e', cache.entries c !! k' = Some e' -> cache.ExpiresAt e <= cache.ExpiresAt e') /\
    cache.evictOldest visit c = cache.with_entries c (delete k (cache.entries c)).
Proof.
  intros Hvisit Hne.
  assert (visit <> []) as Hvne.
  { intros ->. apply Hne. apply map_to_list_empty_iff.
    unfold cache.ranges in Hvisit. by apply Permutation_nil_l in Hvisit. }
  pose proof (evictOldest_loop_holds visit
    {| cache.oldestKey := EmptyString; cache.oldestTime := 0; cache.first := true |} []
    (or_introl (conj eq_refl eq_refl)) Hvne) as (Hfirst & (e & Hin & Htime) & Hmin).
  simpl in Hin, Hmin.
  unfold cache.evictOldest. rewrite Hfirst. simpl.
  eexists _, e. split; [|split; [|reflexivity]].
  - by apply (ranges_elem_of _ _ _ _ Hvisit).
  - intros k' e' Hk'. rewrite Htime. apply (Hmin (k', e')).
    by apply (ranges_elem_of _ _ _ _ Hvisit).
Qed.

Lemma evictOldest_empty visit c :
  cache.ranges visit (cache.entries c) ->
  cache.entries c = ∅ ->
  cache.evictOldest visit c = c.
Proof.
  intros Hvisit Hempty. unfold cache.ranges in Hvisit.
  rewrite Hempty, map_to_list_empty in Hvisit.
  apply Permutation_nil_r in Hvisit. by subst visit.
Qed.

(** Whatever the visit, [evictOldest] deletes at most one key. *)
Lemma evictOldest_entries visit c :
  cache.evictOldest visit c = c \/
  exists k, cache.evictOldest visit c = cache.with_entries c (delete k (cache.entries c)).
Proof.
  unfold cache.evictOldest. destruct (negb _); eauto.
Qed.

Lemma evictOldest_ttl visit c : cache.ttl (cache.evictOldest visit c) = cache.ttl c.
Proof. destruct (evictOldest_entries visit c) as [->|[k ->]]; done. Qed.

Lemma evictOldest_maxSize visit c :
  cache.maxSize (cache.evictOldest visit c) = cache.maxSize c.
Proof. destruct (evictOldest_entries visit c) as [->|[k ->]]; done. Qed.

Lemma evictOldest_subseteq visit c :
  cache.entries (cache.evictOldest visit c) ⊆ cache.entries c.
Proof.
  destruct (evictOldest_entries visit c) as [->|[k ->]]; [done|].
  apply delete_subseteq.
Qed.


(** [Set] without eviction: the key is there already, or the cache is
    below its capacity, or it has none. *)
Lemma Set_no_eviction visit now c token result err :
  cache.ttl c <> 0 ->
  is_Some (cache.entries c !! cache.hashToken token) \/
  cache.maxSize c <= 0 \/ cache.Len c < cache.maxSize c ->
  cache.Set_ visit now c token result err
  = cache.with_entries c
      (<[cache.hashToken token := set_entry now c result err]> (cache.entries c)).
Proof.
  intros Httl Hcase. unfold cache.Set_.
  rewrite (proj2 (Z.eqb_neq _ _) Httl).
  destruct Hcase as [Hex|[Hmax|Hlen]].
  - by rewrite (bool_decide_eq_true_2 _ Hex).
  - rewrite (proj2 (Z.ltb_ge _ _) Hmax). by rewrite andb_false_r.
  - assert ((cache.maxSize c <=? cache.Len c) = false) as -> by (apply Z.leb_gt; lia).
    by rewrite andb_false_r.
Qed.

(** [Set] of a new key at capacity: one call of [evictOldest], then the
    insertion. *)
Lemma Set_eviction visit now c token result err :
  cache.ttl c <> 0 ->
  cache.entries c !! cache.hashToken token = None ->
  0 < cache.maxSize c <= cache.Len c ->
  cache.Set_ visit now c token result err
  = cache.with_entries c
      (<[cache.hashToken token := set_entry now c result err]>
         (cache.entries (cache.evictOldest visit c))).
Proof.
  intros Httl Hnew [Hmax Hlen]. unfold cache.Set_.
  rewrite (proj2 (Z.eqb_neq _ _) Httl).
  rewrite bool_decide_eq_false_2 by (rewrite Hnew; by intros [? ?]).
  rewrite (proj2 (Z.ltb_lt _ _) Hmax), (proj2 (Z.leb_le _ _) Hlen). simpl.
  unfold set_entry. rewrite evictOldest_ttl.
  destruct (evictOldest_entries visit c) as [->|[k ->]]; done.
Qed.

(** In every case the key holds the new entry after [Set]. *)
Lemma Set_lookup visit now c token result err :
  cache.ttl c <> 0 ->
  cache.entries (cache.Set_ visit now c token result err) !! cache.hashToken token
  = Some (set_entry now c result err).
Proof.
  intros Httl.
  destruct (cache.entries c !! cache.hashToken token) as [e0|] eqn:Hkey.
  { rewrite Set_no_eviction; [apply lookup_insert_eq|done|].
    left. rewrite Hkey. by eexists. }
  destruct (decide (0 < cache.maxSize c <= cache.Len c)) as [Hfull|Hroom].
  - rewrite Set_eviction by done. apply lookup_insert_eq.
  - rewrite Set_no_eviction; [apply lookup_insert_eq|done|]. right. lia.
Qed.

Lemma Set_ttl visit now c token result err :
  cache.ttl (cache.Set_ visit now c token result err) = cache.ttl c.
Proof.
  unfold cache.Set_. destruct (cache.ttl c =? 0); [done|].
  destruct (negb _ && _ && _); [|done]. simpl. apply evictOldest_ttl.
Qed.

Lemma Set_maxSize visit now c token result err :
  cache.maxSize (cache.Set_ visit now c token result err) = cache.maxSize c.
Proof.
  unfold cache.Set_. destruct (cache.ttl c =? 0); [done|].
  destruct (negb _ && _ && _); [|done]. simpl. apply evictOldest_maxSize.
Qed.

(** [Get] on a key that holds an entry. *)
Lemma Get_entry now c token e :
  cache.ttl c <> 0 ->
  cache.entries c !! cache.hashToken token = Some e ->
  cache.Get now c token
  = if time.After now (cache.ExpiresAt e) then (validator.zero, None, false)
    else (cache.Result e, cache.Err e, true).
Proof.
  intros Httl Hkey. unfold cache.Get.
  by rewrite (proj2 (Z.eqb_neq _ _) Httl), Hkey.
Qed.

(** A miss is one of three: the cache is disabled, the key is absent,
    the entry is expired. *)
Lemma Get_miss now c token :
  (cache.Get now c token).2 = false <->
  cache.ttl c = 0 \/
  cache.entries c !! cache.hashToken token = None \/
  exists e, cache.entries c !! cache.hashToken token = Some e /\ cache.ExpiresAt e < now.
Proof.
  unfold cache.Get. destruct (Z.eqb_spec (cache.ttl c) 0) as [Hz|Hnz].
  { simpl. split; auto. }
  destruct (cache.entries c !! cache.hashToken token) as [e|] eqn:Hkey.
  - destruct (time.After now (cache.ExpiresAt e)) eqn:Hexp; simpl.
    + apply After_true in Hexp. split; [|done]. intros _. right. right. eauto.
    + apply After_false in Hexp. split; [done|].
      intros [?|[?|(e' & [= <-] & ?)]]; [done|done|lia].
  - simpl. split; auto.
Qed.

(** A miss gives the zero result and no error. *)
Lemma Get_miss_value now c token :
  (cache.Get now c token).2 = false ->
  cache.Get now c token = (validator.zero, None, false).
Proof.
  unfold cache.Get. destruct (cache.ttl c =? 0); [done|].
  destruct (cache.entries c !! cache.hashToken token) as [e|]; [|done].
  destruct (time.After now (cache.ExpiresAt e)); done.
Qed.

(** On the same cache a miss stays a miss as the clock advances. *)
Lemma Get_miss_later now later c token :
  now <= later ->
  (cache.Get now c token).2 = false ->
  (cache.Get later c token).2 = false.
Proof.
  intros Hle. rewrite !Get_miss.
  intros [?|[?|(e & ? & ?)]]; [auto|auto|].
  right. right. exists e. split; [done|lia].
Qed.

Lemma sweeps_ttl ticks c : cache.ttl (cache.sweeps ticks c) = cache.ttl c.
Proof.
  revert c. induction ticks as [|tick ticks IH]; intros c; [done|].
  simpl. by rewrite IH.
Qed.

Lemma sweeps_lookup_any ticks c key :
  cache.entries (cache.sweeps ticks c) !! key = cache.entries c !! key
  \/ cache.entries (cache.sweeps ticks c) !! key = None.
Proof.
  revert c. induction ticks as [|tick ticks IH]; intros c; [by left|].
  simpl. destruct (IH (cache.removeExpired tick.1 tick.2 c)) as [-> | ->]; [|by right].
  apply removeExpired_lookup_any.
Qed.

(** C1. An entry whose [ExpiresAt] has passed is never returned: [Get]
    on its token is a miss, whether or not, and however often, the sweep
    has run in between.  (The cache may have any [ttl] and [maxSize].) *)
Theorem Get_never_returns_expired c token e now ticks :
  cache.entries c !! cache.hashToken token = Some e ->
  cache.ExpiresAt e < now ->
  cache.Get now (cache.sweeps ticks c) token = (validator.zero, None, false).
Proof.
  intros Hkey Hexp. apply Get_miss_value, Get_miss.
  destruct (sweeps_lookup_any ticks c (cache.hashToken token)) as [Hsame|Hgone].
  - right. right. exists e. split; [|done]. by rewrite Hsame.
  - right. by left.
Qed.

(** [Get] after [Set], up to and including the instant [tSet + ttl]. *)
Lemma Get_after_Set visit tSet c token result err tGet :
  cache.ttl c <> 0 ->
  tGet <= time.Add tSet (cache.ttl c) ->
  cache.Get tGet (cache.Set_ visit tSet c token result err) token
  = (result, err, true).
Proof.
  intros Httl Hwithin.
  rewrite (Get_entry _ _ _ (set_entry tSet c result err)).
  - unfold set_entry. simpl. by rewrite (proj2 (After_false _ _)).
  - by rewrite Set_ttl.
  - by apply Set_lookup.
Qed.

(** C6. [Set(t, o)] followed by [Get(t)] before [ttl] has elapsed
    returns [o], found: [o] is a result with a nil error or the zero
    result with an error, and any other pair as well. *)
Theorem Set_then_Get visit tSet c token result err tGet :
  0 < cache.ttl c ->
  tGet - tSet < cache.ttl c ->
  cache.Get tGet (cache.Set_ visit tSet c token result err) token
  = (result, err, true).
Proof.
  intros Httl Hwithin. apply Get_after_Set; [lia|]. unfold time.Add. lia.
Qed.

(** C7. [Set] on a key that is present replaces its entry by the new
    one and touches nothing else: no eviction, the same [Len], every
    other key as before. *)
Theorem Set_existing_key visit now c token result err :
  0 < cache.ttl c ->
  is_Some (cache.entries c !! cache.hashToken token) ->
  cache.entries (cache.Set_ visit now c token result err)
  = <[cache.hashToken token :=
        {| cache.Result := result; cache.Err := err;
           cache.ExpiresAt := time.Add now (cache.ttl c) |}]> (cache.entries c)
  /\ cache.Len (cache.Set_ visit now c token result err) = cache.Len c
  /\ forall key, key <> cache.hashToken token ->
       cache.entries (cache.Set_ visit now c token result err) !! key
       = cache.entries c !! key.
Proof.
  intros Httl Hex.
  rewrite Set_no_eviction; [|lia|by left].
  rewrite with_entries_entries. split; [done|]. split.
  - unfold cache.Len. rewrite with_entries_entries.
    by rewrite map_size_insert_Some.
  - intros key Hne. by rewrite lookup_insert_ne.
Qed.

(** C5. [Set] of a key that is not present, on a cache at capacity,
    evicts one entry, one whose [ExpiresAt] is the earliest of the
    cache, and then inserts; below capacity [Set] evicts nothing. *)
Theorem Set_new_key_evicts_earliest visit now c token result err :
  0 < cache.ttl c ->
  0 < cache.maxSize c ->
  cache.ranges visit (cache.entries c) ->
  let key := cache.hashToken token in
  let entry := {| cache.Result := result; cache.Err := err;
                  cache.ExpiresAt := time.Add now (cache.ttl c) |} in
  let c' := cache.Set_ visit now c token result err in
  (cache.maxSize c <= cache.Len c ->
   cache.entries c !! key = None ->
   exists k e,
     cache.entries c !! k = Some e /\
     (forall k' e', cache.entries c !! k' = Some e' ->
                    cache.ExpiresAt e <= cache.ExpiresAt e') /\
     cache.entries c' = <[key := entry]> (delete k (cache.entries c)) /\
     cache.Len c' = cache.Len c)
  /\ (cache.Len c < cache.maxSize c ->
      cache.entries c' = <[key := entry]> (cache.entries c)).
Proof.
  intros Httl Hmax Hvisit key entry c'. split.
  - intros Hfull Hnew.
    destruct (evictOldest_evicts visit c Hvisit) as (k & e & Hk & Hmin & Hev).
    { intros Hempty. unfold cache.Len in Hfull.
      rewrite Hempty, map_size_empty in Hfull. lia. }
    exists k, e. split; [done|]. split; [done|].
    subst c'. rewrite Set_eviction; [|lia|done|lia].
    rewrite Hev, !with_entries_entries. split; [done|].
    unfold cache.Len. rewrite with_entries_entries.
    rewrite map_size_insert_None.
    2:{ destruct (decide (k = key)) as [->|Hne];
        [apply lookup_delete_eq|by rewrite lookup_delete_ne]. }
    rewrite map_size_delete_Some by (by rewrite Hk).
    assert (size (cache.entries c) <> 0%nat).
    { apply map_size_non_empty_iff. intros Hempty.
      rewrite Hempty, lookup_empty in Hk. done. }
    lia.
  - intros Hroom. subst c'.
    rewrite Set_no_eviction; [done|lia|]. right. by right.
Qed.

(** C9, as the code has it.  A tick of the sweep removes every entry
    whose [ExpiresAt] is before the time of the tick, keeps every entry
    whose [ExpiresAt] is that time or later, and adds none. *)
Theorem removeExpired_removes_the_expired visit now c :
  cache.ranges visit (cache.entries c) ->
  forall key,
    match cache.entries c !! key with
    | Some e =>
        (cache.ExpiresAt e < now ->
         cache.entries (cache.removeExpired visit now c) !! key = None) /\
        (now <= cache.ExpiresAt e ->
         cache.entries (cache.removeExpired visit now c) !! key = Some e)
    | None => cache.entries (cache.removeExpired visit now c) !! key = None
    end.
Proof.
  intros Hvisit key. rewrite (removeExpired_lookup _ _ _ _ Hvisit).
  destruct (cache.entries c !! key) as [e|]; [|done].
  split; intros Hcmp.
  - by rewrite (proj2 (After_true _ _) Hcmp).
  - by rewrite (proj2 (After_false _ _) Hcmp).
Qed.

(** C10. Expiry is strict.  With [now] equal to [ExpiresAt], [Get]
    still returns the entry and the sweep still keeps it; [Get] misses,
    and the sweep removes the entry, exactly when [now] is after
    [ExpiresAt]. *)
Theorem expiry_is_strict visit now c token e :
  0 < cache.ttl c ->
  cache.entries c !! cache.hashToken token = Some e ->
  cache.ranges visit (cache.entries c) ->
  (cache.Get now c token = (cache.Result e, cache.Err e, true)
     <-> now <= cache.ExpiresAt e) /\
  (cache.Get now c token = (validator.zero, None, false)
     <-> cache.ExpiresAt e < now) /\
  (cache.entries (cache.removeExpired visit now c) !! cache.hashToken token = Some e
     <-> now <= cache.ExpiresAt e) /\
  (cache.entries (cache.removeExpired visit now c) !! cache.hashToken token = None
     <-> cache.ExpiresAt e < now) /\
  cache.Get (cache.ExpiresAt e) c token = (cache.Result e, cache.Err e, true) /\
  cache.entries (cache.removeExpired visit (cache.ExpiresAt e) c)
    !! cache.hashToken token = Some e.
Proof.
  intros Httl Hkey Hvisit.
  rewrite !(Get_entry _ c token e) by (lia || done).
  rewrite !(removeExpired_lookup _ _ _ _ Hvisit), Hkey.
  rewrite (proj2 (After_false (cache.ExpiresAt e) (cache.ExpiresAt e))) by lia.
  destruct (time.After now (cache.ExpiresAt e)) eqn:Hexp.
  - apply After_true in Hexp. repeat split; (done || lia).
  - apply After_false in Hexp. repeat split; (done || lia).
Qed.

(** *** The bound on the number of entries *)

Lemma removeExpired_subseteq visit now c :
  cache.entries (cache.removeExpired visit now c) ⊆ cache.entries c.
Proof.
  apply map_subseteq_spec. intros key e Hkey.
  destruct (removeExpired_lookup_any visit now c key) as [Hsame|Hgone]; congruence.
Qed.

Lemma Len_subseteq c c' :
  cache.entries c' ⊆ cache.entries c -> cache.Len c' <= cache.Len c.
Proof. intros Hsub%map_subseteq_size. unfold cache.Len. lia. Qed.

Lemma Len_nonneg c : 0 <= cache.Len c.
Proof. unfold cache.Len. lia. Qed.

(** [Len] after [Set] of a new key, on a cache within its bound. *)
Lemma Set_new_key_Len visit now c token result err :
  cache.ttl c <> 0 ->
  cache.ranges visit (cache.entries c) ->
  cache.entries c !! cache.hashToken token = None ->
  0 < cache.maxSize c ->
  cache.Len c <= cache.maxSize c ->
  cache.Len (cache.Set_ visit now c token result err)
  = Z.min (cache.Len c + 1) (cache.maxSize c).
Proof.
  intros Httl Hvisit Hnew Hmax Hbound.
  destruct (decide (cache.Len c < cache.maxSize c)) as [Hroom|Hfull].
  - rewrite Set_no_eviction; [|done|by right; right].
    unfold cache.Len in *. rewrite with_entries_entries.
    rewrite map_size_insert_None by done. lia.
  - destruct (evictOldest_evicts visit c Hvisit) as (k & e & Hk & _ & Hev).
    { intros Hempty. unfold cache.Len in Hfull.
      rewrite Hempty, map_size_empty in Hfull. lia. }
    rewrite Set_eviction; [|done|done|lia].
    rewrite Hev. unfold cache.Len in *. rewrite !with_entries_entries.
    rewrite map_size_insert_None.
    2:{ destruct (decide (k = cache.hashToken token)) as [->|Hne];
        [apply lookup_delete_eq|by rewrite lookup_delete_ne]. }
    rewrite map_size_delete_Some by (by rewrite Hk).
    assert (size (cache.entries c) <> 0%nat).
    { apply map_size_non_empty_iff. intros Hempty.
      rewrite Hempty, lookup_empty in Hk. done. }
    lia.
Qed.

(** [Set] never lets [Len] pass a positive [maxSize]. *)
Lemma Set_Len_bound visit now c token result err :
  cache.ranges visit (cache.entries c) ->
  0 < cache.maxSize c ->
  cache.Len c <= cache.maxSize c ->
  cache.Len (cache.Set_ visit now c token result err) <= cache.maxSize c.
Proof.
  intros Hvisit Hmax Hbound.
  destruct (decide (cache.ttl c = 0)) as [Hz|Hnz].
  { unfold cache.Set_. by rewrite Hz. }
  destruct (cache.entries c !! cache.hashToken token) as [e|] eqn:Hkey.
  - rewrite Set_no_eviction; [|done|left; rewrite Hkey; by eexists].
    unfold cache.Len in *. rewrite with_entries_entries.
    rewrite map_size_insert_Some by (rewrite Hkey; by eexists). done.
  - rewrite Set_new_key_Len by done. lia.
Qed.

(** A key other than the one set is absent after [Set] if it was before. *)
Lemma Set_other_key_absent visit now c token result err key :
  key <> cache.hashToken token ->
  cache.entries c !! key = None ->
  cache.entries (cache.Set_ visit now c token result err) !! key = None.
Proof.
  intros Hne Hnone. unfold cache.Set_.
  destruct (cache.ttl c =? 0); [done|].
  rewrite with_entries_entries, lookup_insert_ne by done.
  destruct (negb _ && _ && _); [|done].
  eapply lookup_weaken_None; [exact Hnone|apply evictOldest_subseteq].
Qed.

Lemma Delete_subseteq c token :
  cache.entries (cache.Delete c token) ⊆ cache.entries c.
Proof.
  unfold cache.Delete. case_bool_decide; [|done]. apply delete_subseteq.
Qed.

Lemma step_preserves c c' :
  cache.step c c' ->
  cache.ttl c' = cache.ttl c /\ cache.maxSize c' = cache.maxSize c /\
  (0 < cache.maxSize c -> cache.Len c <= cache.maxSize c ->
   cache.Len c' <= cache.maxSize c).
Proof.
  intros [visit now token result err Hvisit|token|visit now Hvisit|visit Hvisit].
  - rewrite Set_ttl, Set_maxSize. split; [done|]. split; [done|].
    intros. by apply Set_Len_bound.
  - split; [|split].
    + unfold cache.Delete. by case_bool_decide.
    + unfold cache.Delete. by case_bool_decide.
    + intros _ Hbound. etrans; [apply Len_subseteq, Delete_subseteq|done].
  - split; [done|]. split; [done|].
    intros _ Hbound. etrans; [apply Len_subseteq, removeExpired_subseteq|done].
  - rewrite evictOldest_ttl, evictOldest_maxSize. split; [done|]. split; [done|].
    intros _ Hbound. etrans; [apply Len_subseteq, evictOldest_subseteq|done].
Qed.

Lemma reachable_bound ttl maxSize c :
  cache.reachable ttl maxSize c ->
  cache.ttl c = ttl /\ cache.maxSize c = maxSize /\
  (0 < maxSize -> cache.Len c <= maxSize).
Proof.
  unfold cache.reachable. revert c. apply rtc_ind_r.
  - split; [done|]. split; [done|]. intros Hmax. unfold cache.Len. simpl.
    rewrite map_size_empty. lia.
  - intros c1 c2 Hrtc Hstep IH. destruct IH as (Httl & Hmax & Hbound).
    destruct (step_preserves _ _ Hstep) as (Httl' & Hmax' & Hbound').
    split; [congruence|]. split; [congruence|].
    intros Hpos. rewrite Hmax in Hbound'. apply Hbound'; auto.
Qed.

(** [Len] after inserting new, pairwise different keys. *)
Lemma inserted_Len c tokens c' :
  cache.inserted c tokens c' ->
  cache.ttl c <> 0 ->
  0 < cache.maxSize c ->
  cache.Len c <= cache.maxSize c ->
  cache.distinct_new_keys c tokens ->
  cache.Len c' = Z.min (cache.Len c + Z.of_nat (length tokens)) (cache.maxSize c).
Proof.
  induction 1 as [c|c visit now token result err tokens c' Hvisit Hrest IH];
    intros Httl Hmax Hbound [Hnodup Hnew].
  - simpl. lia.
  - simpl in Hnodup. apply NoDup_cons in Hnodup as [Hnotin Hnodup].
    assert (cache.entries c !! cache.hashToken token = None) as Hkey.
    { apply Hnew. apply elem_of_cons. by left. }
    rewrite IH.
    + rewrite Set_maxSize, Set_new_key_Len by done.
      rewrite length_cons. lia.
    + by rewrite Set_ttl.
    + by rewrite Set_maxSize.
    + rewrite Set_maxSize. by apply Set_Len_bound.
    + split; [done|]. intros token' Hin.
      apply Set_other_key_absent.
      * intros Heq. apply Hnotin. rewrite <- Heq.
        by apply list_elem_of_fmap_2.
      * apply Hnew. apply elem_of_cons. by right.
Qed.

(** C4, as the code has it.  From [New] on, whatever [Set], [Delete],
    sweeps and evictions follow, [Len] stays at or below a positive
    [maxSize]; and on a cache whose [ttl] is not zero, inserting
    [maxSize + 1] new, pairwise different keys leaves [Len] equal to
    [maxSize]. *)
Theorem Len_never_exceeds_maxSize ttl maxSize c :
  0 < maxSize ->
  cache.reachable ttl maxSize c ->
  cache.Len c <= maxSize /\
  forall tokens c',
    ttl <> 0 ->
    cache.distinct_new_keys c tokens ->
    Z.of_nat (length tokens) = maxSize + 1 ->
    cache.inserted c tokens c' ->
    cache.Len c' = maxSize.
Proof.
  intros Hmax Hreach.
  destruct (reachable_bound _ _ _ Hreach) as (Httl & HmaxSize & Hbound).
  split; [auto|].
  intros tokens c' Hnz Hkeys Hlen Hins.
  rewrite (inserted_Len _ _ _ Hins); rewrite ?Httl, ?HmaxSize; auto.
  pose proof (Len_nonneg c). lia.
Qed.

(** ** Properties of [Validate] *)

(** [errors.Is] against a value of [errors.New] looks at the innermost
    error of the chain. *)
Lemma errors_Is_innermost err text :
  errors_Is err (errors_New text) = bool_decide (innermost err = errors_New text).
Proof.
  induction err as [text'|format wrapped IH]; simpl.
  - destruct (decide (errors_New text' = errors_New text)) as [Heq|Hne].
    + by rewrite bool_decide_eq_true_2.
    + by rewrite bool_decide_eq_false_2.
  - destruct (decide (fmt_Errorf format wrapped = errors_New text)); [done|].
    apply IH.
Qed.

(** An error that is [github.ErrUnauthorized] is not [github.ErrRateLimited]. *)
Lemma Unauthorized_not_RateLimited err :
  errors_Is err github.ErrUnauthorized = true ->
  errors_Is err github.ErrRateLimited = false.
Proof.
  unfold github.ErrUnauthorized, github.ErrRateLimited.
  rewrite !errors_Is_innermost. intros Hun%bool_decide_eq_true.
  apply bool_decide_eq_false. rewrite Hun. discriminate.
Qed.

(** More pages allowed do not change the outcome of a paging loop that
    has finished. *)
Lemma fetchAllTeams_more_fuel fetchTeamsPage fuel fuel' c token nextURL allTeams r :
  (fuel <= fuel')%nat ->
  github.fetchAllTeams fetchTeamsPage fuel c token nextURL allTeams = Some r ->
  github.fetchAllTeams fetchTeamsPage fuel' c token nextURL allTeams = Some r.
Proof.
  revert fuel' nextURL allTeams.
  induction fuel as [|fuel IH]; intros fuel' nextURL allTeams Hle; simpl.
  - destruct (decide (nextURL = EmptyString)) as [->|Hne]; [|done].
    intros <-. by destruct fuel'.
  - destruct fuel' as [|fuel']; [lia|]. simpl.
    destruct (decide (nextURL = EmptyString)); [done|].
    destruct (fetchTeamsPage c token nextURL) as [[teams next]|err]; [|done].
    apply IH. lia.
Qed.

(** C2, as the code has it.  On a miss, when the provider answers a
    call of the run with its rate-limit error, [Validate] returns no
    result and an error that wraps [ErrRateLimited]; it calls [Set] for
    no token and leaves the cache as it was.  So the token has no entry
    afterwards if it had none; the only entry it can have is one that
    had expired before the lookup and that the sweep has not removed yet
    (or one in the map of a disabled cache, which [Get] does not read);
    and [Get] on the token is a miss, then and at any later time. *)
Theorem Validate_rate_limited_not_cached gh org rejectClassicPATs tGet visit tSet c token :
  (cache.Get tGet c token).2 = false ->
  rate_limited gh org rejectClassicPATs token ->
  let v := validator.New gh (cache.as_validator_Cache tGet visit tSet)
             org rejectClassicPATs in
  let run := validator.Validate v c token in
  validator.result run = None /\
  validator.err run = Some (fmt_Errorf "%w" validator.ErrRateLimited) /\
  (forall token' result err,
     validator.cache_Set token' result err ∉ validator.calls run) /\
  validator.cache_state run = c /\
  (cache.entries c !! cache.hashToken token = None ->
   cache.entries (validator.cache_state run) !! cache.hashToken token = None) /\
  (forall e,
     cache.entries (validator.cache_state run) !! cache.hashToken token = Some e ->
     cache.ttl c = 0 \/ cache.ExpiresAt e < tGet) /\
  forall later, tGet <= later ->
    cache.Get later (validator.cache_state run) token = (validator.zero, None, false).
Proof.
  intros Hmiss Hlimited v run.
  assert (forall (r : validator.Run cache.Cache) calls,
    (forall token' result err, validator.cache_Set token' result err ∉ calls) ->
    r = validator.mkRun None (Some (fmt_Errorf "%w" validator.ErrRateLimited)) c calls ->
    validator.result r = None /\
    validator.err r = Some (fmt_Errorf "%w" validator.ErrRateLimited) /\
    (forall token' result err,
       validator.cache_Set token' result err ∉ validator.calls r) /\
    validator.cache_state r = c /\
    (cache.entries c !! cache.hashToken token = None ->
     cache.entries (validator.cache_state r) !! cache.hashToken token = None) /\
    (forall e,
       cache.entries (validator.cache_state r) !! cache.hashToken token = Some e ->
       cache.ttl c = 0 \/ cache.ExpiresAt e < tGet) /\
    forall later, tGet <= later ->
      cache.Get later (validator.cache_state r) token = (validator.zero, None, false))
    as Hshape.
  { intros r calls Hcalls ->. simpl. repeat split; [done|done| |].
    { intros e He. apply Get_miss in Hmiss as [?|[Hnone|(e' & He' & ?)]];
        [by left|congruence|]. right. congruence. }
    intros later Hlater. apply Get_miss_value. by apply (Get_miss_later tGet). }
  subst run v. unfold validator.Validate. simpl.
  rewrite (Get_miss_value _ _ _ Hmiss).
  destruct Hlimited as [(err & -> & ->)|(user & isClassicPAT & -> & -> & Hrest)].
  - eapply Hshape; [|reflexivity]. no_cache_Set.
  - destruct Hrest as [(err & -> & ->)|(-> & err & -> & ->)];
      (eapply Hshape; [|reflexivity]); no_cache_Set.
Qed.

(** C3, as the code has it.  On a cache whose [ttl] is positive: on a
    miss, when [GetUser] fails with the provider's [ErrUnauthorized],
    [Validate] stores the negative entry for the token (it calls [Set]
    with the zero result and [ErrUnauthorized], and the map holds that
    entry) and returns no result and an error that wraps
    [ErrUnauthorized].  Within the TTL of that entry, [Get] on the token
    is a negative hit for [ErrUnauthorized], and another [Validate]
    returns [ErrUnauthorized] from the cache: its only call is the
    [Get], whatever provider it has. *)
Theorem Validate_unauthorized_cached gh org rejectClassicPATs tGet visit tSet c token err :
  0 < cache.ttl c ->
  (cache.Get tGet c token).2 = false ->
  github.GetUser gh token = inr err ->
  errors_Is err github.ErrUnauthorized = true ->
  let v := validator.New gh (cache.as_validator_Cache tGet visit tSet)
             org rejectClassicPATs in
  let run := validator.Validate v c token in
  let c' := validator.cache_state run in
  validator.result run = None /\
  validator.err run = Some (fmt_Errorf "%w" validator.ErrUnauthorized) /\
  validator.calls run
    = [validator.cache_Get token; validator.github_GetUser token;
       validator.cache_Set token validator.zero (Some validator.ErrUnauthorized)] /\
  c' = cache.Set_ visit tSet c token validator.zero (Some validator.ErrUnauthorized) /\
  cache.entries c' !! cache.hashToken token
    = Some {| cache.Result := validator.zero;
              cache.Err := Some validator.ErrUnauthorized;
              cache.ExpiresAt := time.Add tSet (cache.ttl c) |} /\
  forall later, tSet <= later -> later - tSet < cache.ttl c ->
    cache.Get later c' token
      = (validator.zero, Some validator.ErrUnauthorized, true) /\
    forall gh' org' rejectClassicPATs' visit' tSet',
      validator.Validate
        (validator.New gh' (cache.as_validator_Cache later visit' tSet')
           org' rejectClassicPATs') c' token
      = validator.mkRun None (Some validator.ErrUnauthorized) c'
          [validator.cache_Get token].
Proof.
  intros Httl Hmiss HgetUser Hunauth v run c'.
  assert (run = validator.mkRun None (Some (fmt_Errorf "%w" validator.ErrUnauthorized))
                  (cache.Set_ visit tSet c token validator.zero
                     (Some validator.ErrUnauthorized))
                  [validator.cache_Get token; validator.github_GetUser token;
                   validator.cache_Set token validator.zero
                     (Some validator.ErrUnauthorized)]) as Hrun.
  { subst run v. unfold validator.Validate. simpl.
    rewrite (Get_miss_value _ _ _ Hmiss), HgetUser.
    by rewrite (Unauthorized_not_RateLimited _ Hunauth), Hunauth. }
  subst c'. rewrite Hrun. simpl. repeat split.
  - apply Set_lookup. lia.
  - apply Get_after_Set; unfold time.Add; lia.
  - intros gh' org' rejectClassicPATs' visit' tSet'.
    unfold validator.Validate. simpl.
    rewrite Get_after_Set by (unfold time.Add; lia). done.
Qed.

(** The run that succeeds, for any provider: the slugs of the teams the
    client returns go into the result as they are. *)
Lemma Validate_success_run gh org rejectClassicPATs tGet visit tSet c token
    user isClassicPAT teams :
  (cache.Get tGet c token).2 = false ->
  github.GetUser gh token = inl (user, isClassicPAT) ->
  rejectClassicPATs && isClassicPAT = false ->
  github.CheckOrgMembership gh token org (github.User_Login user) = None ->
  github.ListUserTeams gh token org = inl teams ->
  let identity :=
    {| validator.Login := github.User_Login user;
       validator.ID := github.User_ID user;
       validator.Email := github.User_Email user;
       validator.Org := org;
       validator.Teams := map github.Team_Slug teams |} in
  validator.Validate
    (validator.New gh (cache.as_validator_Cache tGet visit tSet) org rejectClassicPATs)
    c token
  = validator.mkRun (Some identity) None
      (cache.Set_ visit tSet c token identity None)
      [validator.cache_Get token; validator.github_GetUser token;
       validator.github_CheckOrgMembership token org (github.User_Login user);
       validator.github_ListUserTeams token org;
       validator.cache_Set token identity None].
Proof.
  intros Hmiss HgetUser Hclassic Hmember Hteams identity.
  unfold validator.Validate. simpl.
  by rewrite (Get_miss_value _ _ _ Hmiss), HgetUser, Hclassic, Hmember, Hteams.
Qed.

(** C8, as the code has it.  On a cache whose [ttl] is positive: on a
    miss, when the three calls to the provider are made and succeed,
    [Validate] returns the identity of the user with [Org] the
    organization of the validator and [Teams] the slugs of the teams the
    provider returned, in the order it returned them; it stores that
    identity for the token (the map holds the entry), and until the TTL
    of the entry has elapsed [Get] returns it.

    The three calls are made when the token is not rejected as a classic
    PAT after the first.  The teams the provider returns are the teams
    of the organization up to case: when [ListUserTeams] is the one of
    the HTTP client, they are the teams [allTeams] of the pages of the
    API, filtered with [strings.EqualFold] on the organization. *)
Theorem Validate_success_identity gh org rejectClassicPATs tGet visit tSet c token
    user isClassicPAT teams :
  0 < cache.ttl c ->
  (cache.Get tGet c token).2 = false ->
  github.GetUser gh token = inl (user, isClassicPAT) ->
  rejectClassicPATs && isClassicPAT = false ->
  github.CheckOrgMembership gh token org (github.User_Login user) = None ->
  github.ListUserTeams gh token org = inl teams ->
  let identity :=
    {| validator.Login := github.User_Login user;
       validator.ID := github.User_ID user;
       validator.Email := github.User_Email user;
       validator.Org := org;
       validator.Teams := map github.Team_Slug teams |} in
  let v := validator.New gh (cache.as_validator_Cache tGet visit tSet)
             org rejectClassicPATs in
  let run := validator.Validate v c token in
  validator.result run = Some identity /\
  validator.err run = None /\
  validator.calls run
    = [validator.cache_Get token; validator.github_GetUser token;
       validator.github_CheckOrgMembership token org (github.User_Login user);
       validator.github_ListUserTeams token org;
       validator.cache_Set token identity None] /\
  validator.cache_state run = cache.Set_ visit tSet c token identity None /\
  cache.entries (validator.cache_state run) !! cache.hashToken token
    = Some {| cache.Result := identity; cache.Err := None;
              cache.ExpiresAt := time.Add tSet (cache.ttl c) |} /\
  (forall later, tSet <= later -> later - tSet < cache.ttl c ->
     cache.Get later (validator.cache_state run) token = (identity, None, true)) /\
  (forall strings_EqualFold fetchTeamsPage fuel hc,
     github.HTTPClient_ListUserTeams strings_EqualFold fetchTeamsPage fuel hc token org
       = Some (github.ListUserTeams gh token org) ->
     exists allTeams,
       github.HTTPClient_allTeams fetchTeamsPage fuel hc token = Some (inl allTeams) /\
       validator.Teams identity
       = map github.Team_Slug
           (List.filter
              (fun t => strings_EqualFold
                          (github.Organization_Login (github.Team_Organization t)) org)
              allTeams)).
Proof.
  intros Httl Hmiss HgetUser Hclassic Hmember Hteams identity v run.
  subst run v.
  rewrite (Validate_success_run _ _ _ _ _ _ _ _ _ _ _
             Hmiss HgetUser Hclassic Hmember Hteams).
  simpl. repeat split.
  - apply Set_lookup. lia.
  - intros later Hafter Hwithin. apply Get_after_Set; unfold time.Add; lia.
  - intros strings_EqualFold fetchTeamsPage fuel hc Hclient.
    unfold github.HTTPClient_ListUserTeams in Hclient. rewrite Hteams in Hclient.
    destruct (github.HTTPClient_allTeams fetchTeamsPage fuel hc token)
      as [[allTeams|err]|]; [|done|done].
    exists allTeams. split; [done|]. injection Hclient as <-. reflexivity.
Qed.

(** ** The theorems on the sample data *)

Lemma ranges_map_to_list (m : gmap string cache.Entry) :
  cache.ranges (map_to_list m) m.
Proof. unfold cache.ranges. reflexivity. Defined.

Lemma Get_never_returns_expired_witness :
  let e := {| cache.Result := userA; cache.Err := None; cache.ExpiresAt := 61 |} in
  let ticks := [(map_to_list (cache.entries cache_ab), 30)] in
  cache.entries cache_ab !! cache.hashToken "token-a" = Some e /\
  cache.ExpiresAt e < 62 /\
  cache.Get 62 (cache.sweeps ticks cache_ab) "token-a" = (validator.zero, None, false).
Proof.
  intros e ticks.
  assert (cache.entries cache_ab !! cache.hashToken "token-a" = Some e) as Hkey
    by (vm_compute; reflexivity).
  assert (cache.ExpiresAt e < 62) as Hexp by (simpl; lia).
  split; [exact Hkey|]. split; [exact Hexp|].
  exact (Get_never_returns_expired cache_ab "token-a" e 62 ticks Hkey Hexp).
Defined.

Lemma Set_then_Get_witness :
  0 < cache.ttl cache_ab /\
  10 - 3 < cache.ttl cache_ab /\
  cache.Get 10
    (cache.Set_ (map_to_list (cache.entries cache_ab)) 3 cache_ab "token-c"
       validator.zero (Some validator.ErrUnauthorized)) "token-c"
  = (validator.zero, Some validator.ErrUnauthorized, true).
Proof.
  assert (0 < cache.ttl cache_ab) as Httl by (vm_compute; reflexivity).
  assert (10 - 3 < cache.ttl cache_ab) as Hwithin by (vm_compute; reflexivity).
  split; [exact Httl|]. split; [exact Hwithin|].
  exact (Set_then_Get _ 3 cache_ab "token-c" _ _ 10 Httl Hwithin).
Defined.

Lemma Set_existing_key_witness :
  0 < cache.ttl cache_ab /\
  is_Some (cache.entries cache_ab !! cache.hashToken "token-a") /\
  cache.Len (cache.Set_ (map_to_list (cache.entries cache_ab)) 3 cache_ab
               "token-a" userC None) = cache.Len cache_ab.
Proof.
  assert (0 < cache.ttl cache_ab) as Httl by (vm_compute; reflexivity).
  assert (is_Some (cache.entries cache_ab !! cache.hashToken "token-a")) as Hkey
    by (vm_compute; eexists; reflexivity).
  split; [exact Httl|]. split; [exact Hkey|].
  exact (proj1 (proj2 (Set_existing_key (map_to_list (cache.entries cache_ab)) 3
                         cache_ab "token-a" userC None Httl Hkey))).
Defined.

Lemma Set_new_key_evicts_earliest_witness :
  let visit := map_to_list (cache.entries cache_ab) in
  0 < cache.ttl cache_ab /\
  0 < cache.maxSize cache_ab /\
  cache.ranges visit (cache.entries cache_ab) /\
  cache.maxSize cache_ab <= cache.Len cache_ab /\
  cache.entries cache_ab !! cache.hashToken "token-c" = None /\
  exists k e,
    cache.entries cache_ab !! k = Some e /\
    (forall k' e', cache.entries cache_ab !! k' = Some e' ->
                   cache.ExpiresAt e <= cache.ExpiresAt e') /\
    cache.entries (cache.Set_ visit 3 cache_ab "token-c" userC None)
    = <[cache.hashToken "token-c" :=
          {| cache.Result := userC; cache.Err := None;
             cache.ExpiresAt := time.Add 3 (cache.ttl cache_ab) |}]>
        (delete k (cache.entries cache_ab)) /\
    cache.Len (cache.Set_ visit 3 cache_ab "token-c" userC None) = cache.Len cache_ab.
Proof.
  intros visit.
  assert (0 < cache.ttl cache_ab) as Httl by (vm_compute; reflexivity).
  assert (0 < cache.maxSize cache_ab) as Hmax by (vm_compute; reflexivity).
  assert (cache.maxSize cache_ab <= cache.Len cache_ab) as Hfull
    by (vm_compute; discriminate).
  assert (cache.entries cache_ab !! cache.hashToken "token-c" = None) as Hnew
    by (vm_compute; reflexivity).
  pose proof (ranges_map_to_list (cache.entries cache_ab)) as Hvisit.
  split; [exact Httl|]. split; [exact Hmax|]. split; [exact Hvisit|].
  split; [exact Hfull|]. split; [exact Hnew|].
  exact (proj1 (Set_new_key_evicts_earliest visit 3 cache_ab "token-c" userC None
                  Httl Hmax Hvisit) Hfull Hnew).
Defined.

Lemma removeExpired_removes_the_expired_witness :
  let visit := map_to_list (cache.entries cache_ab) in
  cache.ranges visit (cache.entries cache_ab) /\
  forall key,
    match cache.entries cache_ab !! key with
    | Some e =>
        (cache.ExpiresAt e < 62 ->
         cache.entries (cache.removeExpired visit 62 cache_ab) !! key = None) /\
        (62 <= cache.ExpiresAt e ->
         cache.entries (cache.removeExpired visit 62 cache_ab) !! key = Some e)
    | None => cache.entries (cache.removeExpired visit 62 cache_ab) !! key = None
    end.
Proof.
  intros visit.
  pose proof (ranges_map_to_list (cache.entries cache_ab)) as Hvisit.
  split; [exact Hvisit|].
  exact (removeExpired_removes_the_expired visit 62 cache_ab Hvisit).
Defined.

Lemma expiry_is_strict_witness :
  let visit := map_to_list (cache.entries cache_ab) in
  let e := {| cache.Result := userB; cache.Err := None; cache.ExpiresAt := 62 |} in
  0 < cache.ttl cache_ab /\
  cache.entries cache_ab !! cache.hashToken "token-b" = Some e /\
  cache.ranges visit (cache.entries cache_ab) /\
  cache.Get 62 cache_ab "token-b" = (userB, None, true) /\
  cache.entries (cache.removeExpired visit 62 cache_ab) !! cache.hashToken "token-b"
  = Some e.
Proof.
  intros visit e.
  assert (0 < cache.ttl cache_ab) as Httl by (vm_compute; reflexivity).
  assert (cache.entries cache_ab !! cache.hashToken "token-b" = Some e) as Hkey
    by (vm_compute; reflexivity).
  pose proof (ranges_map_to_list (cache.entries cache_ab)) as Hvisit.
  split; [exact Httl|]. split; [exact Hkey|]. split; [exact Hvisit|].
  exact (proj2 (proj2 (proj2 (proj2
           (expiry_is_strict visit 62 cache_ab "token-b" e Httl Hkey Hvisit))))).
Defined.

Lemma Len_never_exceeds_maxSize_witness :
  let c1 := cache.Set_ (map_to_list (cache.entries cache_a)) 2 cache_a
              "token-b" userB None in
  let c2 := cache.Set_ (map_to_list (cache.entries c1)) 3 c1 "token-c" userC None in
  let c3 := cache.Set_ (map_to_list (cache.entries c2)) 4 c2 "token-d" userA None in
  0 < 2 /\
  cache.reachable 60 2 cache_a /\
  cache.Len cache_a <= 2 /\
  cache.distinct_new_keys cache_a ["token-b"; "token-c"; "token-d"] /\
  cache.inserted cache_a ["token-b"; "token-c"; "token-d"] c3 /\
  cache.Len c3 = 2.
Proof.
  intros c1 c2 c3.
  assert (0 < 2) as Hmax by lia.
  assert (cache.reachable 60 2 cache_a) as Hreach.
  { apply rtc_once. apply cache.step_Set. vm_compute. reflexivity. }
  assert (cache.distinct_new_keys cache_a ["token-b"; "token-c"; "token-d"]) as Hkeys.
  { split.
    - apply (bool_decide_unpack _). vm_compute. exact I.
    - intros token Hin.
      repeat (apply elem_of_cons in Hin as [->|Hin]; [vm_compute; reflexivity|]).
      by apply elem_of_nil in Hin. }
  assert (cache.inserted cache_a ["token-b"; "token-c"; "token-d"] c3) as Hins.
  { exact (cache.inserted_cons cache_a _ 2 "token-b" userB None _ c3
             (ranges_map_to_list _)
             (cache.inserted_cons c1 _ 3 "token-c" userC None _ c3
                (ranges_map_to_list _)
                (cache.inserted_cons c2 _ 4 "token-d" userA None _ c3
                   (ranges_map_to_list _) (cache.inserted_nil c3)))). }
  destruct (Len_never_exceeds_maxSize 60 2 cache_a Hmax Hreach) as [Hbound Hfull].
  split; [exact Hmax|]. split; [exact Hreach|]. split; [exact Hbound|].
  split; [exact Hkeys|]. split; [exact Hins|].
  apply (Hfull ["token-b"; "token-c"; "token-d"] c3); [discriminate|exact Hkeys| |exact Hins].
  reflexivity.
Defined.

Lemma Validate_rate_limited_not_cached_witness :
  let visit := map_to_list (cache.entries cache_ab) in
  let v := validator.New gh_rate_limited (cache.as_validator_Cache 5 visit 6)
             "acme" true in
  let run := validator.Validate v cache_ab "tok" in
  (cache.Get 5 cache_ab "tok").2 = false /\
  rate_limited gh_rate_limited "acme" true "tok" /\
  validator.result run = None /\
  validator.err run = Some (fmt_Errorf "%w" validator.ErrRateLimited) /\
  validator.cache_state run = cache_ab /\
  cache.Get 7 (validator.cache_state run) "tok" = (validator.zero, None, false).
Proof.
  intros visit v run.
  assert ((cache.Get 5 cache_ab "tok").2 = false) as Hmiss by (vm_compute; reflexivity).
  assert (rate_limited gh_rate_limited "acme" true "tok") as Hlimited.
  { right. exists testuser, false. split; [reflexivity|]. split; [reflexivity|].
    left. exists github.ErrRateLimited. split; [reflexivity|]. vm_compute. reflexivity. }
  destruct (Validate_rate_limited_not_cached gh_rate_limited "acme" true 5 visit 6
              cache_ab "tok" Hmiss Hlimited)
    as (Hres & Herr & _ & Hstate & _ & _ & Hlater).
  split; [exact Hmiss|]. split; [exact Hlimited|]. split; [exact Hres|].
  split; [exact Herr|]. split; [exact Hstate|].
  apply Hlater. lia.
Defined.

Lemma Validate_unauthorized_cached_witness :
  let visit := map_to_list (cache.entries cache_ab) in
  let v := validator.New gh_unauthorized (cache.as_validator_Cache 5 visit 6)
             "acme" true in
  let run := validator.Validate v cache_ab "tok" in
  0 < cache.ttl cache_ab /\
  (cache.Get 5 cache_ab "tok").2 = false /\
  github.GetUser gh_unauthorized "tok" = inr github.ErrUnauthorized /\
  errors_Is github.ErrUnauthorized github.ErrUnauthorized = true /\
  validator.err run = Some (fmt_Errorf "%w" validator.ErrUnauthorized) /\
  6 <= 30 /\ 30 - 6 < cache.ttl cache_ab /\
  cache.Get 30 (validator.cache_state run) "tok"
  = (validator.zero, Some validator.ErrUnauthorized, true) /\
  validator.Validate
    (validator.New gh_member (cache.as_validator_Cache 30 [] 31) "acme" true)
    (validator.cache_state run) "tok"
  = validator.mkRun None (Some validator.ErrUnauthorized) (validator.cache_state run)
      [validator.cache_Get "tok"].
Proof.
  intros visit v run.
  assert (0 < cache.ttl cache_ab) as Httl by (vm_compute; reflexivity).
  assert ((cache.Get 5 cache_ab "tok").2 = false) as Hmiss by (vm_compute; reflexivity).
  assert (github.GetUser gh_unauthorized "tok" = inr github.ErrUnauthorized) as HgetUser
    by reflexivity.
  assert (errors_Is github.ErrUnauthorized github.ErrUnauthorized = true) as Hunauth
    by (vm_compute; reflexivity).
  assert (6 <= 30) as Hafter by lia.
  assert (30 - 6 < cache.ttl cache_ab) as Hwithin by (vm_compute; reflexivity).
  destruct (Validate_unauthorized_cached gh_unauthorized "acme" true 5 visit 6
              cache_ab "tok" github.ErrUnauthorized Httl Hmiss HgetUser Hunauth)
    as (_ & Herr & _ & _ & _ & Hlater).
  destruct (Hlater 30 Hafter Hwithin) as [Hhit Hagain].
  split; [exact Httl|].
  split; [exact Hmiss|]. split; [exact HgetUser|]. split; [exact Hunauth|].
  split; [exact Herr|]. split; [exact Hafter|]. split; [exact Hwithin|].
  split; [exact Hhit|]. exact (Hagain gh_member "acme" true [] 31).
Defined.

Lemma Validate_success_identity_witness :
  let visit := map_to_list (cache.entries cache_ab) in
  let teams := [team "platform" "Acme"; team "security" "ACME"; team "sre" "acme"] in
  let allTeams := [team "platform" "Acme"; team "docs" "other-org";
                   team "security" "ACME"; team "sre" "acme"] in
  let identity :=
    {| validator.Login := "testuser"; validator.ID := 42;
       validator.Email := "test@example.com"; validator.Org := "acme";
       validator.Teams := ["platform"; "security"; "sre"] |} in
  let v := validator.New gh_member (cache.as_validator_Cache 5 visit 6) "acme" true in
  let run := validator.Validate v cache_ab "tok" in
  0 < cache.ttl cache_ab /\
  (cache.Get 5 cache_ab "tok").2 = false /\
  github.GetUser gh_member "tok" = inl (testuser, false) /\
  true && false = false /\
  github.CheckOrgMembership gh_member "tok" "acme" (github.User_Login testuser) = None /\
  github.ListUserTeams gh_member "tok" "acme" = inl teams /\
  github.HTTPClient_ListUserTeams EqualFold_ascii api_pages 8 api "tok" "acme"
    = Some (github.ListUserTeams gh_member "tok" "acme") /\
  github.HTTPClient_allTeams api_pages 8 api "tok" = Some (inl allTeams) /\
  validator.result run = Some identity /\
  validator.err run = None /\
  6 <= 30 /\ 30 - 6 < cache.ttl cache_ab /\
  cache.Get 30 (validator.cache_state run) "tok" = (identity, None, true).
Proof.
  intros visit teams allTeams identity v run.
  assert (0 < cache.ttl cache_ab) as Httl by (vm_compute; reflexivity).
  assert ((cache.Get 5 cache_ab "tok").2 = false) as Hmiss by (vm_compute; reflexivity).
  assert (github.GetUser gh_member "tok" = inl (testuser, false)) as HgetUser
    by reflexivity.
  assert (true && false = false) as Hclassic by reflexivity.
  assert (github.CheckOrgMembership gh_member "tok" "acme" (github.User_Login testuser)
          = None) as Hmember by reflexivity.
  assert (github.ListUserTeams gh_member "tok" "acme" = inl teams) as Hteams
    by (vm_compute; reflexivity).
  assert (github.HTTPClient_ListUserTeams EqualFold_ascii api_pages 8 api "tok" "acme"
          = Some (github.ListUserTeams gh_member "tok" "acme")) as Hclient
    by (vm_compute; reflexivity).
  assert (github.HTTPClient_allTeams api_pages 8 api "tok" = Some (inl allTeams))
    as Hpages by (vm_compute; reflexivity).
  assert (6 <= 30) as Hafter by lia.
  assert (30 - 6 < cache.ttl cache_ab) as Hwithin by (vm_compute; reflexivity).
  destruct (Validate_success_identity gh_member "acme" true 5 visit 6 cache_ab "tok"
              testuser false teams Httl Hmiss HgetUser Hclassic Hmember Hteams)
    as (Hres & Herr & _ & _ & _ & Hlater & _).
  split; [exact Httl|].
  split; [exact Hmiss|]. split; [exact HgetUser|]. split; [exact Hclassic|].
  split; [exact Hmember|]. split; [exact Hteams|]. split; [exact Hclient|].
  split; [exact Hpages|].
  split; [exact Hres|]. split; [exact Herr|]. split; [exact Hafter|].
  split; [exact Hwithin|]. exact (Hlater 30 Hafter Hwithin).
Defined.

(** ** Where statements, as first stated, fail on the code *)

(** C2 as first stated (no entry exists afterwards).  The entry of
    "token-a" expires at 61; at 100 the sweep has not run, [Get] is a
    miss, the provider is out of quota, [Validate] fails with the rate
    limit, and the expired entry is in the map as before. *)
Lemma expired_entry_remains_after_rate_limit :
  let visit := map_to_list (cache.entries cache_ab) in
  let v := validator.New gh_rate_limited (cache.as_validator_Cache 100 visit 101)
             "acme" true in
  let run := validator.Validate v cache_ab "token-a" in
  (cache.Get 100 cache_ab "token-a").2 = false /\
  rate_limited gh_rate_limited "acme" true "token-a" /\
  validator.result run = None /\
  validator.err run = Some (fmt_Errorf "%w" validator.ErrRateLimited) /\
  cache.entries (validator.cache_state run) !! cache.hashToken "token-a"
  = Some {| cache.Result := userA; cache.Err := None; cache.ExpiresAt := 61 |} /\
  cache.Len (validator.cache_state run) = 2.
Proof.
  intros visit v run. split; [vm_compute; reflexivity|]. split.
  { right. exists testuser, false. split; [reflexivity|]. split; [reflexivity|].
    left. exists github.ErrRateLimited. split; [reflexivity|]. vm_compute. reflexivity. }
  repeat split; vm_compute; reflexivity.
Qed.

(** C3 as first stated (any [ttl]).  With [ttl] zero the cache is
    disabled: [Validate] calls [Set], which returns at once, the map
    stays empty, and the next [Validate] calls the provider again. *)
Lemma unauthorized_not_stored_when_ttl_is_zero :
  let v := validator.New gh_unauthorized (cache.as_validator_Cache 5 [] 6) "acme" true in
  let run := validator.Validate v cache_disabled "tok" in
  let v' := validator.New gh_unauthorized (cache.as_validator_Cache 6 [] 7) "acme" true in
  let run' := validator.Validate v' (validator.cache_state run) "tok" in
  (cache.Get 5 cache_disabled "tok").2 = false /\
  github.GetUser gh_unauthorized "tok" = inr github.ErrUnauthorized /\
  validator.err run = Some (fmt_Errorf "%w" validator.ErrUnauthorized) /\
  cache.entries (validator.cache_state run) !! cache.hashToken "tok" = None /\
  cache.Len (validator.cache_state run) = 0 /\
  cache.Get 6 (validator.cache_state run) "tok" = (validator.zero, None, false) /\
  validator.github_GetUser "tok" ∈ validator.calls run'.
Proof.
  intros v run v' run'. repeat split; try (vm_compute; reflexivity).
  vm_compute. apply elem_of_cons. right. apply elem_of_cons. by left.
Qed.

(** C8 as first stated (any [ttl]).  With [ttl] zero the run succeeds
    and nothing is stored: the map stays empty and [Get] is a miss. *)
Lemma identity_not_stored_when_ttl_is_zero :
  let v := validator.New gh_member (cache.as_validator_Cache 5 [] 6) "acme" true in
  let run := validator.Validate v cache_disabled "tok" in
  (cache.Get 5 cache_disabled "tok").2 = false /\
  github.GetUser gh_member "tok" = inl (testuser, false) /\
  github.CheckOrgMembership gh_member "tok" "acme" "testuser" = None /\
  github.ListUserTeams gh_member "tok" "acme"
  = inl [team "platform" "Acme"; team "security" "ACME"; team "sre" "acme"] /\
  validator.result run
  = Some {| validator.Login := "testuser"; validator.ID := 42;
            validator.Email := "test@example.com"; validator.Org := "acme";
            validator.Teams := ["platform"; "security"; "sre"] |} /\
  validator.err run = None /\
  cache.entries (validator.cache_state run) !! cache.hashToken "tok" = None /\
  cache.Len (validator.cache_state run) = 0 /\
  cache.Get 6 (validator.cache_state run) "tok" = (validator.zero, None, false).
Proof. intros v run. repeat split; vm_compute; reflexivity. Qed.


(** C4 as first stated (any [ttl]).  A cache whose [ttl] is zero is
    disabled: [Set] returns at once.  On [New(0, 1)], whose [maxSize] is
    positive, [Set] on two new and different keys leaves [Len] at 0, not
    at [maxSize]. *)
Lemma Len_is_zero_when_ttl_is_zero :
  let c0 := cache.New 0 1 in
  let c1 := cache.Set_ (map_to_list (cache.entries c0)) 10 c0 "token-a" userA None in
  let c2 := cache.Set_ (map_to_list (cache.entries c1)) 20 c1 "token-b" userB None in
  0 < cache.maxSize c0 /\
  cache.reachable 0 1 c0 /\
  cache.distinct_new_keys c0 ["token-a"; "token-b"] /\
  Z.of_nat (length ["token-a"; "token-b"]) = cache.maxSize c0 + 1 /\
  cache.inserted c0 ["token-a"; "token-b"] c2 /\
  cache.Len c2 = 0 /\
  cache.Len c2 <> cache.maxSize c0.
Proof.
  intros c0 c1 c2.
  split; [reflexivity|]. split; [apply rtc_refl|]. split.
  { split.
    - apply (bool_decide_unpack _). vm_compute. exact I.
    - intros token _. apply lookup_empty. }
  split; [reflexivity|]. split.
  { exact (cache.inserted_cons c0 (map_to_list (cache.entries c0)) 10 "token-a"
             userA None ["token-b"] c2 (ranges_map_to_list _)
             (cache.inserted_cons c1 (map_to_list (cache.entries c1)) 20 "token-b"
                userB None [] c2 (ranges_map_to_list _) (cache.inserted_nil c2))). }
  split; [vm_compute; reflexivity|]. vm_compute. discriminate.
Qed.

(** C9 as first stated ([ExpiresAt <= now]).  An entry whose
    [ExpiresAt] is the time of the tick satisfies [ExpiresAt <= now], and
    the tick keeps it. *)
Lemma sweep_keeps_entry_expiring_at_the_tick :
  let visit := map_to_list (cache.entries cache_ab) in
  let e := {| cache.Result := userA; cache.Err := None; cache.ExpiresAt := 61 |} in
  0 < cache.ttl cache_ab /\
  cache.ranges visit (cache.entries cache_ab) /\
  cache.entries cache_ab !! cache.hashToken "token-a" = Some e /\
  cache.ExpiresAt e <= 61 /\
  cache.entries (cache.removeExpired visit 61 cache_ab) !! cache.hashToken "token-a"
  = Some e.
Proof.
  intros visit e.
  split; [reflexivity|]. split; [apply ranges_map_to_list|].
  split; [vm_compute; reflexivity|]. split; [simpl; lia|].
  vm_compute. reflexivity.
Qed.

(** ** The further embedding on the tests of the repository *)

Example strconv_Atoi_samples :
  map strconv_Atoi ["0"; "+0"; "-0"; "000"; "4999"; "-7"; "1_0"; " 0"; "+";
                    "9223372036854775807"; "9223372036854775808"]
  = [Some 0; Some 0; Some 0; Some 0; Some 4999; Some (-7); None; None; None;
     Some 9223372036854775807; None]
  /\ strconv_Atoi EmptyString = None.
Proof. split; vm_compute; reflexivity. Qed.

Example CanonicalHeaderKey_samples :
  map http.CanonicalHeaderKey
    ["X-RateLimit-Remaining"; "X-OAuth-Scopes"; "x-auth-user-login"; "Authorization";
     "content-type"; "a b"]
  = ["X-Ratelimit-Remaining"; "X-Oauth-Scopes"; "X-Auth-User-Login"; "Authorization";
     "Content-Type"; "a b"].
Proof. vm_compute. reflexivity. Qed.

Example TestCache_Delete :
  let c := cache.Set_ [] 1 (cache.New 60 1000) "test-token-1" userA None in
  (cache.Get 2 c "test-token-1").2 = true /\
  (cache.Get 3 (cache.Delete c "test-token-1") "test-token-1").2 = false /\
  cache.Len (cache.Delete c "test-token-1") = 0 /\
  cache.Delete (cache.New 60 1000) "nonexistent" = cache.New 60 1000.
Proof. repeat split; vm_compute; reflexivity. Qed.

Example TestConfig_Validate :
  let cfg org ttl maxSize :=
    {| main.Org := org; main.Listen := ":8080"; main.CacheTTL := ttl;
       main.CacheMaxSize := maxSize; main.RejectClassicPATs := true |} in
  let validate := main.validate (fun d => fmt_d d +:+ "ns") in
  validate (cfg "my-org" (300 * time.Second) 1000) = None /\
  validate (cfg EmptyString (300 * time.Second) 1000)
  = Some (errors_New "flag -org is required") /\
  validate (cfg "my-org" (- time.Second) 1000) <> None /\
  validate (cfg "my-org" 0 1000) = None /\
  validate (cfg "my-org" (300 * time.Second) 0)
  = Some (errors_New "flag -cache-max-size must be positive, got 0") /\
  validate (cfg "my-org" (300 * time.Second) (-1))
  = Some (errors_New "flag -cache-max-size must be positive, got -1").
Proof. repeat split; vm_compute; (reflexivity || discriminate). Qed.

Example TestHTTPClient_GetUser_RateLimited_Header :
  httpclient.GetUser (fun _ => None)
    (fun _ => inl {| http.StatusCode := 403;
                     http.Response_Header :=
                       http.Header_Set (http.Header_Set ∅ "X-RateLimit-Remaining" "0")
                         "X-RateLimit-Reset" "1234567890";
                     http.Body := "API rate limit exceeded" |})
    (fun _ => inl testuser) TrimSpace_ascii api "ghp_test"
  = inr github.ErrRateLimited.
Proof. vm_compute. reflexivity. Qed.

Example TestHTTPClient_GetUser_ServerError :
  httpclient.GetUser (fun _ => None)
    (fun _ => inl {| http.StatusCode := 500; http.Response_Header := ∅;
                     http.Body := " Internal Server Error " |})
    (fun _ => inl testuser) TrimSpace_ascii api "ghp_test"
  = inr (errors_New "github: unexpected status 500: Internal Server Error").
Proof. vm_compute. reflexivity. Qed.

Example TestHTTPClient_GetUser_ClassicPAT :
  httpclient.GetUser (fun _ => None)
    (fun _ => inl {| http.StatusCode := 200;
                     http.Response_Header := http.Header_Set ∅ "X-OAuth-Scopes" "repo, read:org";
                     http.Body := "testuser" |})
    (fun _ => inl testuser) TrimSpace_ascii api "ghp_test"
  = inl (testuser, true).
Proof. vm_compute. reflexivity. Qed.

Example TestHTTPClient_AuthHeaderSet :
  http.Header_Get (http.Request_Header (api_request "https://api.github.com/user" "ghp_test"))
    "Authorization" = "Bearer ghp_test" /\
  http.Header_Get (http.Request_Header (api_request "https://api.github.com/user" "ghp_test"))
    "Accept" = "application/vnd.github+json".
Proof. split; vm_compute; reflexivity. Qed.

Example TestHTTPClient_CheckOrgMembership_statuses :
  map (fun code =>
         httpclient.CheckOrgMembership (fun _ => None)
           (fun _ => inl {| http.StatusCode := code; http.Response_Header := ∅;
                            http.Body := EmptyString |})
           TrimSpace_ascii api "ghp_test" "my-org" "octocat")
      [204; 404; 401; 429; 200]
  = [None; Some github.ErrNotOrgMember; Some github.ErrUnauthorized;
     Some github.ErrRateLimited;
     Some (errors_New "github: unexpected status 200: ")].
Proof. vm_compute. reflexivity. Qed.

Example TestValidate_MalformedAuthHeader :
  let refused :=
    Some (handler.mkServed
            (handler.writeJSONError handler.new_writer 401
               "missing or malformed Authorization header") tt []) in
  let h := mockValidator (Some (octocat []), None) in
  handler.handleValidate TrimSpace_ascii h tt handler.new_writer (request_auth "Basic xxx")
  = refused /\
  handler.handleValidate TrimSpace_ascii h tt handler.new_writer (request_auth "Bearer ")
  = refused /\
  handler.handleValidate TrimSpace_ascii h tt handler.new_writer (request_auth "bearer tok")
  = refused /\
  handler.handleValidate TrimSpace_ascii h tt handler.new_writer
    {| http.Method := "GET"; http.URL := "/validate"; http.Request_Header := ∅ |}
  = refused.
Proof. repeat split; vm_compute; reflexivity. Qed.

Example TestValidate_MultipleTeams :
  let served teams :=
    handler.handleValidate TrimSpace_ascii (mockValidator (Some (octocat teams), None)) tt
      handler.new_writer (request_auth "Bearer test-token") in
  (handler.Header ∘ handler.response <$> served ["engineering"; "security"; "platform"])
  = Some {[ "X-Auth-User-Login" := ["octocat"]; "X-Auth-User-Id" := ["12345"];
            "X-Auth-User-Org" := ["test-org"];
            "X-Auth-User-Teams" := ["engineering,security,platform"] ]} /\
  (handler.Code ∘ handler.response <$> served []) = Some 200 /\
  ((fun w => http.Header_Get (handler.Header (handler.response w)) "X-Auth-User-Teams")
     <$> served []) = Some EmptyString.
Proof. repeat split; vm_compute; reflexivity. Qed.

Example TestValidate_HeaderInjection_Teams :
  handler.handleValidate TrimSpace_ascii (mockValidator (Some (octocat []), None)) tt
    handler.new_writer
    {| http.Method := "GET"; http.URL := "/validate";
       http.Request_Header :=
         http.Header_Set (http.Header_Set ∅ "Authorization" "Bearer valid-token")
           "X-Auth-User-Teams" "admin-team" |}
  = Some (handler.mkServed
            (handler.writeJSONError handler.new_writer 403
               "forbidden: request contains disallowed headers") tt []).
Proof. vm_compute. reflexivity. Qed.

(** ** More properties of the cache *)

Lemma Delete_entries c token :
  cache.entries (cache.Delete c token)
  = delete (cache.hashToken token) (cache.entries c).
Proof.
  unfold cache.Delete. case_bool_decide as Hin; [done|].
  symmetry. apply delete_id. by apply eq_None_not_Some.
Qed.

(** X1. [Delete] removes the entry of its token and nothing else: the
    key is gone, every other key is as before, [Get] on the token is a
    miss at any time, [Len] is down by one when the key was there and the
    same when it was not, and a second [Delete] changes nothing. *)
Theorem Delete_removes_only_its_key c token :
  let c' := cache.Delete c token in
  cache.entries c' !! cache.hashToken token = None /\
  (forall key, key <> cache.hashToken token ->
     cache.entries c' !! key = cache.entries c !! key) /\
  cache.ttl c' = cache.ttl c /\
  cache.maxSize c' = cache.maxSize c /\
  (forall now, cache.Get now c' token = (validator.zero, None, false)) /\
  cache.Len c'
  = (if bool_decide (is_Some (cache.entries c !! cache.hashToken token))
     then cache.Len c - 1 else cache.Len c) /\
  cache.Delete c' token = c'.
Proof.
  intros c'.
  assert (cache.entries c' !! cache.hashToken token = None) as Hgone.
  { subst c'. rewrite Delete_entries. apply lookup_delete_eq. }
  split; [done|]. split.
  { intros key Hne. subst c'. rewrite Delete_entries. by apply lookup_delete_ne. }
  split. { subst c'. unfold cache.Delete. by case_bool_decide. }
  split. { subst c'. unfold cache.Delete. by case_bool_decide. }
  split.
  { intros now. apply Get_miss_value, Get_miss. right. by left. }
  split.
  { subst c'. unfold cache.Delete, cache.Len.
    case_bool_decide as Hin; [|done].
    rewrite with_entries_entries, map_size_delete_Some by done.
    assert (size (cache.entries c) <> 0%nat).
    { apply map_size_non_empty_iff. intros Hempty.
      rewrite Hempty, lookup_empty in Hin. by destruct Hin. }
    lia. }
  unfold cache.Delete at 1.
  rewrite bool_decide_eq_false_2; [done|]. rewrite Hgone. by intros [? ?].
Qed.

Lemma step_disabled c c' :
  cache.step c c' -> cache.ttl c = 0 -> cache.entries c = ∅ ->
  cache.ttl c' = 0 /\ cache.entries c' = ∅.
Proof.
  intros [visit now token result err Hvisit|token|visit now Hvisit|visit Hvisit]
    Httl Hempty.
  - unfold cache.Set_. by rewrite Httl.
  - rewrite Delete_entries, Hempty. split; [|apply delete_empty].
    unfold cache.Delete. by case_bool_decide.
  - split; [done|]. apply map_eq. intros key.
    rewrite (removeExpired_lookup _ _ _ _ Hvisit), Hempty, !lookup_empty. done.
  - by rewrite evictOldest_empty.
Qed.

(** X2. A cache made with a zero TTL is disabled for good: whatever
    is called on it, its map stays empty, [Len] stays 0, and every
    [Get] is a miss. *)
Theorem disabled_cache_stays_empty maxSize c :
  cache.reachable 0 maxSize c ->
  cache.entries c = ∅ /\
  cache.Len c = 0 /\
  forall now token, cache.Get now c token = (validator.zero, None, false).
Proof.
  intros Hreach.
  assert (cache.ttl c = 0 /\ cache.entries c = ∅) as [Httl Hempty].
  { revert c Hreach. unfold cache.reachable. apply rtc_ind_r; [done|].
    intros c1 c2 _ Hstep [Httl Hempty]. by apply (step_disabled c1). }
  split; [done|]. split.
  - unfold cache.Len. by rewrite Hempty, map_size_empty.
  - intros now token. unfold cache.Get. by rewrite Httl.
Qed.

Lemma removeExpired_entries visit now c :
  cache.ranges visit (cache.entries c) ->
  cache.entries (cache.removeExpired visit now c)
  = filter (fun kv => now <= cache.ExpiresAt kv.2) (cache.entries c).
Proof.
  intros Hvisit. apply map_eq. intros key.
  rewrite (removeExpired_lookup _ _ _ _ Hvisit).
  destruct (cache.entries c !! key) as [e|] eqn:Hkey.
  - destruct (time.After now (cache.ExpiresAt e)) eqn:Hexp.
    + apply After_true in Hexp. symmetry. apply map_lookup_filter_None.
      right. intros e' Hkey'. simpl. assert (e' = e) as -> by congruence. lia.
    + apply After_false in Hexp. symmetry. by apply map_lookup_filter_Some.
  - symmetry. apply map_lookup_filter_None. by left.
Qed.

(** X3. The outcome of a sweep does not depend on the order in which
    the runtime ranges over the map: it keeps the entries that expire at
    the tick or later.  A second sweep at the same or an earlier time
    changes nothing. *)
Theorem removeExpired_any_order visit visit' now c :
  cache.ranges visit (cache.entries c) ->
  cache.ranges visit' (cache.entries c) ->
  cache.removeExpired visit now c = cache.removeExpired visit' now c /\
  cache.entries (cache.removeExpired visit now c)
  = filter (fun kv => now <= cache.ExpiresAt kv.2) (cache.entries c) /\
  forall again earlier,
    cache.ranges again (cache.entries (cache.removeExpired visit now c)) ->
    earlier <= now ->
    cache.removeExpired again earlier (cache.removeExpired visit now c)
    = cache.removeExpired visit now c.
Proof.
  intros Hvisit Hvisit'.
  pose proof (removeExpired_entries _ now _ Hvisit) as Hm.
  pose proof (removeExpired_entries _ now _ Hvisit') as Hm'.
  split.
  { unfold cache.removeExpired in *. rewrite with_entries_entries in Hm, Hm'.
    by rewrite Hm, Hm'. }
  split; [done|].
  intros again earlier Hagain Hle.
  pose proof (removeExpired_entries _ earlier _ Hagain) as Hm2.
  unfold cache.removeExpired at 1. unfold cache.removeExpired at 1 in Hm2.
  rewrite with_entries_entries in Hm2. rewrite Hm2.
  rewrite <- (with_entries_same (cache.removeExpired visit now c)) at 3.
  f_equal. rewrite Hm. apply map_eq. intros key.
  destruct (filter _ (cache.entries c) !! key) as [e|] eqn:Hkey.
  - apply map_lookup_filter_Some. split; [done|].
    apply map_lookup_filter_Some in Hkey as [_ Hlive]. simpl in *. lia.
  - apply map_lookup_filter_None. by left.
Qed.

(** X4. A sweep cannot be seen through [Get]: at the time of the tick
    or later, [Get] returns on the swept cache what it returns on the
    cache as it was, for every token. *)
Theorem removeExpired_invisible_to_Get visit tick now c token :
  cache.ranges visit (cache.entries c) ->
  tick <= now ->
  cache.Get now (cache.removeExpired visit tick c) token = cache.Get now c token.
Proof.
  intros Hvisit Hle. unfold cache.Get.
  change (cache.ttl (cache.removeExpired visit tick c)) with (cache.ttl c).
  destruct (cache.ttl c =? 0); [done|].
  rewrite (removeExpired_lookup _ _ _ _ Hvisit).
  destruct (cache.entries c !! cache.hashToken token) as [e|]; [|done].
  destruct (time.After tick (cache.ExpiresAt e)) eqn:Hexp; [|done].
  apply After_true in Hexp.
  by rewrite (proj2 (After_true now (cache.ExpiresAt e))) by lia.
Qed.

(** X5. When no two entries expire at the same instant, [evictOldest]
    evicts the same entry whatever the order of the range: the one that
    expires first. *)
Theorem evictOldest_any_order visit visit' c :
  cache.ranges visit (cache.entries c) ->
  cache.ranges visit' (cache.entries c) ->
  (forall k k' e e',
     cache.entries c !! k = Some e -> cache.entries c !! k' = Some e' ->
     cache.ExpiresAt e = cache.ExpiresAt e' -> k = k') ->
  cache.evictOldest visit c = cache.evictOldest visit' c.
Proof.
  intros Hvisit Hvisit' Hties.
  destruct (decide (cache.entries c = ∅)) as [Hempty|Hne].
  { by rewrite !evictOldest_empty. }
  destruct (evictOldest_evicts visit c Hvisit Hne) as (k & e & Hk & Hmin & ->).
  destruct (evictOldest_evicts visit' c Hvisit' Hne) as (k' & e' & Hk' & Hmin' & ->).
  assert (k = k') as ->; [|done].
  apply (Hties k k' e e' Hk Hk').
  pose proof (Hmin _ _ Hk'). pose proof (Hmin' _ _ Hk). lia.
Qed.

(** X6. Eviction takes expired entries first: when [Set] runs while
    some entry of the cache has expired, every entry of another key that
    has not expired is kept, whether or not the call evicts. *)
Theorem Set_evicts_no_live_entry_before_an_expired_one
    visit now c token result err k e :
  cache.ttl c <> 0 ->
  cache.ranges visit (cache.entries c) ->
  cache.entries c !! k = Some e ->
  cache.ExpiresAt e < now ->
  forall k' e',
    cache.entries c !! k' = Some e' ->
    now <= cache.ExpiresAt e' ->
    k' <> cache.hashToken token ->
    cache.entries (cache.Set_ visit now c token result err) !! k' = Some e'.
Proof.
  intros Httl Hvisit Hk Hexp k' e' Hk' Hlive Hother.
  destruct (cache.entries c !! cache.hashToken token) as [e0|] eqn:Hkey.
  { rewrite Set_no_eviction; [|done|left; rewrite Hkey; by eexists].
    by rewrite with_entries_entries, lookup_insert_ne. }
  destruct (decide (0 < cache.maxSize c <= cache.Len c)) as [Hfull|Hroom].
  - rewrite Set_eviction by done.
    rewrite with_entries_entries, lookup_insert_ne by done.
    destruct (evictOldest_evicts visit c Hvisit) as (k0 & e0 & Hk0 & Hmin & ->).
    { intros Hempty. rewrite Hempty, lookup_empty in Hk. done. }
    rewrite with_entries_entries, lookup_delete_ne; [done|].
    intros <-. pose proof (Hmin _ _ Hk). assert (e0 = e') as -> by congruence. lia.
  - rewrite Set_no_eviction; [|done|right; lia].
    by rewrite with_entries_entries, lookup_insert_ne.
Qed.

(** The state of SHA-256 has eight words, whatever the blocks. *)
Lemma sha256_round_length s kw : length s = 8%nat -> length (sha256.round s kw) = 8%nat.
Proof.
  intros Hlen.
  do 9 (destruct s as [|? s]; try discriminate Hlen). reflexivity.
Qed.

Lemma sha256_rounds_length kws s :
  length s = 8%nat -> length (fold_left sha256.round kws s) = 8%nat.
Proof.
  revert s. induction kws as [|kw kws IH]; intros s Hlen; simpl; [done|].
  apply IH. by apply sha256_round_length.
Qed.

Lemma sha256_block_length h words16 :
  length h = 8%nat -> length (sha256.block h words16) = 8%nat.
Proof.
  intros Hlen. unfold sha256.block.
  rewrite length_map, length_combine, sha256_rounds_length by done. lia.
Qed.

Lemma sha256_blocks_length count h words :
  length h = 8%nat -> length (sha256.blocks count h words) = 8%nat.
Proof.
  revert h words. induction count as [|count IH]; intros h words Hlen; simpl; [done|].
  apply IH. by apply sha256_block_length.
Qed.

Lemma sha256_Sum256_length data : length (sha256.Sum256 data) = 32%nat.
Proof.
  unfold sha256.Sum256.
  pose proof (sha256_blocks_length
                (length (sha256.be_words (sha256.pad data)) / 16) sha256.init
                (sha256.be_words (sha256.pad data)) eq_refl) as Hlen.
  destruct (sha256.blocks _ _ _) as [|h0 h]; [discriminate|].
  do 8 (destruct h as [|? h]; try discriminate Hlen). reflexivity.
Qed.

Lemma hex_EncodeToString_length src :
  String.length (hex.EncodeToString src) = (2 * length src)%nat.
Proof. induction src as [|v src IH]; simpl; [done|]. rewrite IH. lia. Qed.

Lemma hex_digit_in_table n : hex.digit n ∈ list_ascii_of_string hex.hextable.
Proof.
  unfold hex.digit.
  destruct (String.get (Z.to_nat n) hex.hextable) as [a|] eqn:Hget.
  - revert Hget. generalize (Z.to_nat n). intros i.
    do 16 (destruct i as [|i];
           [intros [= <-]; simpl; repeat (apply elem_of_cons; (by left) || right)|]).
    discriminate.
  - simpl. apply elem_of_cons. by left.
Qed.

Lemma hex_EncodeToString_digits src :
  Forall (fun a => a ∈ list_ascii_of_string hex.hextable)
         (list_ascii_of_string (hex.EncodeToString src)).
Proof.
  induction src as [|v src IH]; simpl; [constructor|].
  repeat (constructor; [apply hex_digit_in_table|]). exact IH.
Qed.

Lemma hashToken_length token : String.length (cache.hashToken token) = 64%nat.
Proof.
  unfold cache.hashToken.
  by rewrite hex_EncodeToString_length, sha256_Sum256_length.
Qed.

(** X7. The key of a token is always 64 characters, each a lower-case
    hexadecimal digit, whatever the token (its length, its bytes). *)
Theorem hashToken_is_a_hex_digest token :
  String.length (cache.hashToken token) = 64%nat /\
  Forall (fun a => a ∈ list_ascii_of_string "0123456789abcdef")
         (list_ascii_of_string (cache.hashToken token)).
Proof.
  split; [apply hashToken_length|].
  unfold cache.hashToken. apply hex_EncodeToString_digits.
Qed.

Lemma step_keys c c' :
  cache.step c c' ->
  (forall key e, cache.entries c !! key = Some e -> exists token, key = cache.hashToken token) ->
  forall key e, cache.entries c' !! key = Some e -> exists token, key = cache.hashToken token.
Proof.
  intros [visit now token result err Hvisit|token|visit now Hvisit|visit Hvisit]
    Hkeys key e Hkey.
  - destruct (decide (key = cache.hashToken token)) as [->|Hne]; [by eexists|].
    destruct (cache.entries c !! key) as [e0|] eqn:Hold; [by eapply Hkeys|].
    by rewrite Set_other_key_absent in Hkey.
  - eapply Hkeys. eapply lookup_weaken; [exact Hkey|apply Delete_subseteq].
  - eapply Hkeys. eapply lookup_weaken; [exact Hkey|apply removeExpired_subseteq].
  - eapply Hkeys. eapply lookup_weaken; [exact Hkey|apply evictOldest_subseteq].
Qed.

(** X8. The cache never holds a token as a key: in every state of a
    cache made by [New], each key of the map is the digest of a token,
    64 characters long. *)
Theorem keys_are_digests ttl maxSize c :
  cache.reachable ttl maxSize c ->
  forall key e,
    cache.entries c !! key = Some e ->
    (exists token, key = cache.hashToken token) /\ String.length key = 64%nat.
Proof.
  intros Hreach.
  assert (forall key e, cache.entries c !! key = Some e ->
                        exists token, key = cache.hashToken token) as Hkeys.
  { revert c Hreach. unfold cache.reachable.
    apply (rtc_ind_r (fun c => forall key e, cache.entries c !! key = Some e ->
                                 exists token, key = cache.hashToken token)).
    - intros key e Hkey. simpl in Hkey. by rewrite lookup_empty in Hkey.
    - intros c1 c2 _ Hstep IH. by apply (step_keys c1). }
  intros key e Hkey. destruct (Hkeys key e Hkey) as [token ->].
  split; [by eexists|]. apply hashToken_length.
Qed.

(** X9. The interval [cleanupLoop] computes is always a valid ticker
    interval, positive and at most thirty seconds: half the TTL for a
    TTL from 2 ns to 60 s, thirty seconds above, and one second for a
    TTL below 2 ns, where half the TTL is not positive ([New] starts the
    loop for a positive TTL only, so that is a TTL of 1 ns). *)
Theorem cleanupLoop_interval_spec c :
  0 < cache.cleanupLoop_interval c <= 30 * time.Second /\
  (2 <= cache.ttl c <= 60 * time.Second ->
   cache.cleanupLoop_interval c = Z.quot (cache.ttl c) 2 /\
   2 * cache.cleanupLoop_interval c <= cache.ttl c) /\
  (60 * time.Second <= cache.ttl c -> cache.cleanupLoop_interval c = 30 * time.Second) /\
  (cache.ttl c < 2 -> cache.cleanupLoop_interval c = time.Second).
Proof.
  split; [apply cleanupLoop_interval_bounds|].
  unfold cache.cleanupLoop_interval, time.Second.
  assert (forall t, 0 <= t -> 2 * Z.quot t 2 <= t < 2 * Z.quot t 2 + 2) as Hquot.
  { intros t Ht. rewrite Z.quot_div_nonneg by lia.
    pose proof (Z.div_mod t 2). pose proof (Z.mod_pos_bound t 2). lia. }
  assert (forall t, t <= 0 -> Z.quot t 2 <= 0) as Hneg.
  { intros t Ht. rewrite <- (Z.opp_involutive t), Z.quot_opp_l by lia.
    pose proof (Hquot (- t)). lia. }
  split; [|split].
  - intros [Hlo Hhi]. pose proof (Hquot (cache.ttl c)).
    rewrite (proj2 (Z.ltb_ge _ _)) by lia.
    rewrite (proj2 (Z.leb_gt _ _)) by lia. lia.
  - intros Hhi. pose proof (Hquot (cache.ttl c)).
    destruct (Z.ltb_spec (30 * 1000000000) (Z.quot (cache.ttl c) 2)).
    + reflexivity.
    + rewrite (proj2 (Z.leb_gt _ _)) by lia. lia.
  - intros Hlo.
    assert (Z.quot (cache.ttl c) 2 <= 0) as Hq.
    { destruct (decide (cache.ttl c <= 0)) as [Hle|Hgt]; [by apply Hneg|].
      pose proof (Hquot (cache.ttl c)). lia. }
    rewrite (proj2 (Z.ltb_ge _ _)) by lia.
    by rewrite (proj2 (Z.leb_le _ _)).
Qed.

(** ** More properties of [Validate] *)

(** ** More properties of [Validate] *)

Lemma internal_error_wrapped format err :
  internal_error err -> internal_error (fmt_Errorf format err).
Proof.
  intros (H1 & H2 & H3 & H4). unfold internal_error.
  repeat split;
    (cbn [errors_Is]; rewrite decide_False by discriminate; assumption).
Qed.

Lemma errors_Is_wrapped_cause format err : errors_Is (fmt_Errorf format err) err = true.
Proof.
  simpl. case_decide; [done|].
  destruct err; simpl; by rewrite decide_True.
Qed.

(** An error that is [github.ErrNotOrgMember] is not [github.ErrRateLimited]. *)
Lemma NotOrgMember_not_RateLimited err :
  errors_Is err github.ErrNotOrgMember = true ->
  errors_Is err github.ErrRateLimited = false.
Proof.
  unfold github.ErrNotOrgMember, github.ErrRateLimited.
  rewrite !errors_Is_innermost. intros Hun%bool_decide_eq_true.
  apply bool_decide_eq_false. rewrite Hun. discriminate.
Qed.

(** X10. [Validate] returns a result or an error, never both and
    never neither, whatever the cache and the provider do. *)
Theorem Validate_result_xor_err {C : Type} (v : validator.Validator C) (c : C) token :
  let run := validator.Validate v c token in
  (exists result, validator.result run = Some result /\ validator.err run = None) \/
  (exists err, validator.result run = None /\ validator.err run = Some err).
Proof.
  intros run. subst run. unfold validator.Validate.
  destruct (validator.Get (validator.cache v) c token) as [[result cachedErr] ok].
  destruct ok.
  { destruct cachedErr; simpl; eauto. }
  destruct (github.GetUser (validator.github v) token) as [[user isClassicPAT]|err].
  2:{ destruct (errors_Is err github.ErrRateLimited); [simpl; eauto|].
      destruct (errors_Is err github.ErrUnauthorized); simpl; eauto. }
  destruct (validator.rejectClassicPATs v && isClassicPAT); [simpl; eauto|].
  destruct (github.CheckOrgMembership _ _ _ _) as [err|].
  { destruct (errors_Is err github.ErrRateLimited); [simpl; eauto|].
    destruct (errors_Is err github.ErrNotOrgMember); simpl; eauto. }
  destruct (github.ListUserTeams _ _ _) as [teams|err]; [simpl; eauto|].
  destruct (errors_Is err github.ErrRateLimited); simpl; eauto.
Qed.

(** X11. The order of the calls of [Validate]: the lookup in the
    cache comes first and is on the token; the calls on the provider
    are a prefix of [GetUser], [CheckOrgMembership], [ListUserTeams],
    each on the token, the last two on the organization of the
    validator, the membership check on the login [GetUser] returned. *)
Theorem Validate_call_order {C : Type} (v : validator.Validator C) (c : C) token :
  let run := validator.Validate v c token in
  let login := match github.GetUser (validator.github v) token with
               | inl (user, _) => github.User_Login user
               | inr _ => EmptyString
               end in
  exists rest,
    validator.calls run = validator.cache_Get token :: rest /\
    List.filter is_provider_call rest
    `prefix_of` [validator.github_GetUser token;
                 validator.github_CheckOrgMembership token (validator.org v) login;
                 validator.github_ListUserTeams token (validator.org v)].
Proof.
  intros run login. subst run login. unfold validator.Validate.
  destruct (validator.Get (validator.cache v) c token) as [[result cachedErr] ok].
  destruct ok.
  { destruct cachedErr; simpl; (eexists; split; [reflexivity|]); simpl; by eexists. }
  destruct (github.GetUser (validator.github v) token) as [[user isClassicPAT]|err].
  2:{ destruct (errors_Is err github.ErrRateLimited);
        [simpl; (eexists; split; [reflexivity|]); simpl; by eexists|].
      destruct (errors_Is err github.ErrUnauthorized);
        simpl; (eexists; split; [reflexivity|]); simpl; by eexists. }
  destruct (validator.rejectClassicPATs v && isClassicPAT);
    [simpl; (eexists; split; [reflexivity|]); simpl; by eexists|].
  destruct (github.CheckOrgMembership _ _ _ _) as [err|].
  { destruct (errors_Is err github.ErrRateLimited);
      [simpl; (eexists; split; [reflexivity|]); simpl; by eexists|].
    destruct (errors_Is err github.ErrNotOrgMember);
      simpl; (eexists; split; [reflexivity|]); simpl; by eexists. }
  destruct (github.ListUserTeams _ _ _) as [teams|err];
    [simpl; (eexists; split; [reflexivity|]); simpl; by eexists|].
  destruct (errors_Is err github.ErrRateLimited);
    simpl; (eexists; split; [reflexivity|]); simpl; by eexists.
Qed.

(** X12. [Validate] writes to the cache in two cases only, and then
    once, for the token it was called on: the identity it returns, or
    [ErrUnauthorized] when it returns that error.  In every other case,
    whatever error it returns, the cache is as it was. *)
Theorem Validate_writes_the_cache_only_on_success_or_unauthorized
    {C : Type} (v : validator.Validator C) (c : C) token :
  let run := validator.Validate v c token in
  (validator.cache_state run = c /\
   forall token' result err,
     validator.cache_Set token' result err ∉ validator.calls run)
  \/
  (exists identity,
     validator.result run = Some identity /\ validator.err run = None /\
     validator.cache_state run
     = validator.Set_ (validator.cache v) c token identity None)
  \/
  (validator.err run = Some (fmt_Errorf "%w" validator.ErrUnauthorized) /\
   validator.cache_state run
   = validator.Set_ (validator.cache v) c token validator.zero
       (Some validator.ErrUnauthorized)).
Proof.
  intros run. subst run. unfold validator.Validate.
  destruct (validator.Get (validator.cache v) c token) as [[result cachedErr] ok].
  destruct ok.
  { destruct cachedErr; simpl; left; (split; [done|no_cache_Set]). }
  destruct (github.GetUser (validator.github v) token) as [[user isClassicPAT]|err].
  2:{ destruct (errors_Is err github.ErrRateLimited);
        [simpl; left; (split; [done|no_cache_Set])|].
      destruct (errors_Is err github.ErrUnauthorized); simpl.
      - right. right. done.
      - left. split; [done|no_cache_Set]. }
  destruct (validator.rejectClassicPATs v && isClassicPAT);
    [simpl; left; (split; [done|no_cache_Set])|].
  destruct (github.CheckOrgMembership _ _ _ _) as [err|].
  { destruct (errors_Is err github.ErrRateLimited);
      [simpl; left; (split; [done|no_cache_Set])|].
    destruct (errors_Is err github.ErrNotOrgMember);
      simpl; left; (split; [done|no_cache_Set]). }
  destruct (github.ListUserTeams _ _ _) as [teams|err].
  { simpl. right. left. eexists. done. }
  destruct (errors_Is err github.ErrRateLimited);
    simpl; left; (split; [done|no_cache_Set]).
Qed.

(** [Validate] on a token whose entry is in the cache and has not
    expired: the entry is the answer, and the lookup the only call. *)
Lemma Validate_live_entry gh org rejectClassicPATs tGet visit tSet c token e :
  cache.ttl c <> 0 ->
  cache.entries c !! cache.hashToken token = Some e ->
  tGet <= cache.ExpiresAt e ->
  validator.Validate
    (validator.New gh (cache.as_validator_Cache tGet visit tSet) org rejectClassicPATs)
    c token
  = match cache.Err e with
    | Some cachedErr => validator.mkRun None (Some cachedErr) c [validator.cache_Get token]
    | None => validator.mkRun (Some (cache.Result e)) None c [validator.cache_Get token]
    end.
Proof.
  intros Httl Hkey Hlive. unfold validator.Validate. simpl.
  rewrite (Get_entry _ _ _ e Httl Hkey).
  by rewrite (proj2 (After_false _ _) Hlive).
Qed.

(** X13. After a validation that succeeded, and until the TTL of the
    entry has elapsed, [Validate] on the same token answers from the
    cache: it returns the same identity, its only call is the lookup,
    and the cache is unchanged.  No call goes to the provider, so the
    answer is the same whatever the provider would say by then, and
    whatever the organization and the flag of the validator that
    asks. *)
Theorem Validate_again_within_TTL_asks_no_provider
    gh org rejectClassicPATs tGet visit tSet c token user isClassicPAT teams
    gh' org' rejectClassicPATs' tGet' visit' tSet' :
  0 < cache.ttl c ->
  (cache.Get tGet c token).2 = false ->
  github.GetUser gh token = inl (user, isClassicPAT) ->
  rejectClassicPATs && isClassicPAT = false ->
  github.CheckOrgMembership gh token org (github.User_Login user) = None ->
  github.ListUserTeams gh token org = inl teams ->
  tGet' <= time.Add tSet (cache.ttl c) ->
  let first_run :=
    validator.Validate
      (validator.New gh (cache.as_validator_Cache tGet visit tSet) org rejectClassicPATs)
      c token in
  let second_run :=
    validator.Validate
      (validator.New gh' (cache.as_validator_Cache tGet' visit' tSet') org'
         rejectClassicPATs')
      (validator.cache_state first_run) token in
  validator.result second_run = validator.result first_run /\
  validator.err second_run = None /\
  validator.calls second_run = [validator.cache_Get token] /\
  validator.cache_state second_run = validator.cache_state first_run.
Proof.
  intros Httl Hmiss HgetUser Hclassic Hmember Hteams Hwithin first_run second_run.
  subst second_run first_run.
  rewrite (Validate_success_run gh org rejectClassicPATs tGet visit tSet c token
             user isClassicPAT teams) by done.
  cbn [validator.cache_state validator.result].
  match goal with
  | |- context [cache.Set_ visit tSet c token ?identity None] =>
      rewrite (Validate_live_entry gh' org' rejectClassicPATs' tGet' visit' tSet'
                 (cache.Set_ visit tSet c token identity None) token
                 (set_entry tSet c identity None))
  end.
  - done.
  - rewrite Set_ttl. lia.
  - apply Set_lookup. lia.
  - done.
Qed.

(** X14. A classic PAT, when the validator rejects them, is refused
    right after [GetUser]: the error is [ErrClassicPAT], neither the
    membership nor the teams are asked for, and nothing is cached.
    When the validator does not reject them, the run goes on to the
    membership check. *)
Theorem Validate_classic_PAT {C : Type} (v : validator.Validator C) (c : C) token user :
  (validator.Get (validator.cache v) c token).2 = false ->
  github.GetUser (validator.github v) token = inl (user, true) ->
  let run := validator.Validate v c token in
  (validator.rejectClassicPATs v = true ->
   validator.result run = None /\
   validator.err run = Some (fmt_Errorf "%w" validator.ErrClassicPAT) /\
   validator.calls run = [validator.cache_Get token; validator.github_GetUser token] /\
   validator.cache_state run = c) /\
  (validator.rejectClassicPATs v = false ->
   validator.github_CheckOrgMembership token (validator.org v) (github.User_Login user)
   ∈ validator.calls run /\
   validator.err run <> Some (fmt_Errorf "%w" validator.ErrClassicPAT)).
Proof.
  intros Hmiss HgetUser run. subst run. unfold validator.Validate.
  destruct (validator.Get (validator.cache v) c token) as [[result cachedErr] ok].
  simpl in Hmiss. subst ok. rewrite HgetUser. split.
  - intros ->. simpl. done.
  - intros ->. simpl.
    destruct (github.CheckOrgMembership _ _ _ _) as [err|].
    { destruct (errors_Is err github.ErrRateLimited);
        [simpl; split; [|discriminate];
         do 2 (apply elem_of_cons; right); apply elem_of_cons; by left|].
      destruct (errors_Is err github.ErrNotOrgMember);
        simpl; (split; [|discriminate]);
        do 2 (apply elem_of_cons; right); apply elem_of_cons; by left. }
    destruct (github.ListUserTeams _ _ _) as [teams|err].
    { simpl. split; [|discriminate].
      do 2 (apply elem_of_cons; right); apply elem_of_cons; by left. }
    destruct (errors_Is err github.ErrRateLimited);
      simpl; (split; [|discriminate]);
      do 2 (apply elem_of_cons; right); apply elem_of_cons; by left.
Qed.

(** X15. A user who is not a member of the organization is refused
    with [ErrNotOrgMember] after the membership check: the teams are
    not asked for and nothing is cached, so the next [Validate] on the
    token asks the provider again. *)
Theorem Validate_not_org_member {C : Type} (v : validator.Validator C) (c : C)
    token user isClassicPAT err :
  (validator.Get (validator.cache v) c token).2 = false ->
  github.GetUser (validator.github v) token = inl (user, isClassicPAT) ->
  validator.rejectClassicPATs v && isClassicPAT = false ->
  github.CheckOrgMembership (validator.github v) token (validator.org v)
    (github.User_Login user) = Some err ->
  errors_Is err github.ErrNotOrgMember = true ->
  let run := validator.Validate v c token in
  validator.result run = None /\
  validator.err run = Some (fmt_Errorf "%w" validator.ErrNotOrgMember) /\
  validator.calls run
  = [validator.cache_Get token; validator.github_GetUser token;
     validator.github_CheckOrgMembership token (validator.org v)
       (github.User_Login user)] /\
  validator.cache_state run = c.
Proof.
  intros Hmiss HgetUser Hclassic Hmember Hnot run. subst run.
  unfold validator.Validate.
  destruct (validator.Get (validator.cache v) c token) as [[result cachedErr] ok].
  simpl in Hmiss. subst ok.
  rewrite HgetUser, Hclassic, Hmember, (NotOrgMember_not_RateLimited _ Hnot), Hnot.
  done.
Qed.

(** X16. Any other failure of the provider is passed on wrapped, with
    the call that failed named in its text and the cause still found by
    [errors.Is], and is never cached.  It is none of the four errors of
    the validator when its cause is none. *)
Theorem Validate_other_provider_error {C : Type} (v : validator.Validator C) (c : C)
    token :
  (validator.Get (validator.cache v) c token).2 = false ->
  let run := validator.Validate v c token in
  let failed format cause :=
    validator.result run = None /\
    validator.err run = Some (fmt_Errorf format cause) /\
    errors_Is (fmt_Errorf format cause) cause = true /\
    (internal_error cause -> internal_error (fmt_Errorf format cause)) /\
    validator.cache_state run = c in
  (forall cause,
     github.GetUser (validator.github v) token = inr cause ->
     errors_Is cause github.ErrRateLimited = false ->
     errors_Is cause github.ErrUnauthorized = false ->
     failed "getting user: %w" cause) /\
  (forall user isClassicPAT,
     github.GetUser (validator.github v) token = inl (user, isClassicPAT) ->
     validator.rejectClassicPATs v && isClassicPAT = false ->
     (forall cause,
        github.CheckOrgMembership (validator.github v) token (validator.org v)
          (github.User_Login user) = Some cause ->
        errors_Is cause github.ErrRateLimited = false ->
        errors_Is cause github.ErrNotOrgMember = false ->
        failed "checking org membership: %w" cause) /\
     (forall cause,
        github.CheckOrgMembership (validator.github v) token (validator.org v)
          (github.User_Login user) = None ->
        github.ListUserTeams (validator.github v) token (validator.org v) = inr cause ->
        errors_Is cause github.ErrRateLimited = false ->
        failed "listing user teams: %w" cause)).
Proof.
  intros Hmiss run failed. subst failed run. unfold validator.Validate.
  destruct (validator.Get (validator.cache v) c token) as [[result cachedErr] ok].
  simpl in Hmiss. subst ok.
  split.
  - intros cause -> -> ->. cbn.
    split; [done|]. split; [done|]. split; [apply errors_Is_wrapped_cause|].
    split; [apply internal_error_wrapped|done].
  - intros user isClassicPAT -> ->. split.
    + intros cause -> -> ->. cbn.
      split; [done|]. split; [done|]. split; [apply errors_Is_wrapped_cause|].
      split; [apply internal_error_wrapped|done].
    + intros cause -> -> ->. cbn.
      split; [done|]. split; [done|]. split; [apply errors_Is_wrapped_cause|].
      split; [apply internal_error_wrapped|done].
Qed.

(** ** Properties of the HTTP client *)

Lemma checkRateLimit_cases resp :
  httpclient.checkRateLimit resp = Some github.ErrRateLimited \/
  httpclient.checkRateLimit resp = None.
Proof.
  unfold httpclient.checkRateLimit.
  destruct (http.StatusCode resp =? http.StatusTooManyRequests); [by left|].
  destruct (decide _); [by right|].
  destruct (strconv_Atoi _) as [remaining|]; [|by right].
  destruct (remaining =? 0); auto.
Qed.

(** The error of an unexpected status is none of the errors of the two
    packages. *)
Lemma unexpected_status_is_no_sentinel TrimSpace resp :
  errors_Is (httpclient.unexpected_status TrimSpace resp) github.ErrRateLimited = false /\
  errors_Is (httpclient.unexpected_status TrimSpace resp) github.ErrUnauthorized = false /\
  errors_Is (httpclient.unexpected_status TrimSpace resp) github.ErrNotOrgMember = false /\
  internal_error (httpclient.unexpected_status TrimSpace resp).
Proof.
  unfold internal_error, httpclient.unexpected_status.
  repeat split; (cbn [errors_Is]; rewrite decide_False; [done|]);
    intros Heq; injection Heq as Heq; discriminate Heq.
Qed.

(** X17. [GetUser] fails closed: it returns a user exactly when the URL
    parses, the round trip gives a response, the response is not rate
    limited, its status is 2xx and its body decodes to that user; the
    token then counts as a classic PAT exactly when the response has a
    non-empty X-OAuth-Scopes header.  The request is a GET of
    [baseURL + /user] with the token as bearer. *)
Theorem GetUser_succeeds_only_on_2xx url_Parse httpClient_Do json_Decode_User
    strings_TrimSpace c token user isClassicPAT :
  httpclient.GetUser url_Parse httpClient_Do json_Decode_User strings_TrimSpace c token
  = inl (user, isClassicPAT)
  <->
  exists resp,
    url_Parse (github.baseURL c +:+ "/user") = None /\
    httpClient_Do (api_request (github.baseURL c +:+ "/user") token) = inl resp /\
    httpclient.checkRateLimit resp = None /\
    200 <= http.StatusCode resp < 300 /\
    json_Decode_User (http.Body resp) = inl user /\
    isClassicPAT
    = negb (bool_decide (http.Header_Get (http.Response_Header resp) "X-OAuth-Scopes"
                         = EmptyString)).
Proof.
  unfold httpclient.GetUser, httpclient.newRequest, api_request. split.
  - destruct (url_Parse _) as [err|]; [done|].
    destruct (httpClient_Do _) as [resp|err]; [|done].
    destruct (httpclient.checkRateLimit resp) as [err|] eqn:Hlimit; [done|].
    destruct (Z.eqb_spec (http.StatusCode resp) http.StatusUnauthorized); [done|].
    destruct (Z.ltb_spec (http.StatusCode resp) 200); [done|].
    destruct (Z.leb_spec 300 (http.StatusCode resp)); [done|]. simpl.
    destruct (json_Decode_User _) as [user'|err] eqn:Hdecode; [|done].
    intros [= <- <-]. exists resp. repeat split; try done; lia.
  - intros (resp & -> & -> & -> & [Hlo Hhi] & -> & ->).
    unfold http.StatusUnauthorized.
    rewrite (proj2 (Z.eqb_neq _ _)) by lia.
    rewrite (proj2 (Z.ltb_ge _ _)) by lia.
    rewrite (proj2 (Z.leb_gt _ _)) by lia. done.
Qed.

(** X18. [CheckOrgMembership] fails closed: it returns nil, membership
    confirmed, exactly when the response to
    [GET baseURL/orgs/org/members/username] is not rate limited and its
    status is 204.  No other status of success confirms membership. *)
Theorem CheckOrgMembership_confirms_only_on_204 url_Parse httpClient_Do
    strings_TrimSpace c token org username :
  httpclient.CheckOrgMembership url_Parse httpClient_Do strings_TrimSpace c token org
    username = None
  <->
  exists resp,
    let fullURL := github.baseURL c +:+ "/orgs/" +:+ org +:+ "/members/" +:+ username in
    url_Parse fullURL = None /\
    httpClient_Do (api_request fullURL token) = inl resp /\
    httpclient.checkRateLimit resp = None /\
    http.StatusCode resp = 204.
Proof.
  unfold httpclient.CheckOrgMembership, httpclient.newRequest, api_request. split.
  - destruct (url_Parse _) as [err|]; [done|].
    destruct (httpClient_Do _) as [resp|err]; [|done].
    destruct (httpclient.checkRateLimit resp) as [err|] eqn:Hlimit; [done|].
    destruct (Z.eqb_spec (http.StatusCode resp) http.StatusNoContent) as [Hcode|].
    + intros _. by exists resp.
    + destruct (http.StatusCode resp =? http.StatusNotFound); [done|].
      destruct (http.StatusCode resp =? http.StatusUnauthorized); done.
  - intros (resp & -> & -> & -> & ->). done.
Qed.

(** X19. The rate limit comes before the status.  A response with
    status 429, or whose X-RateLimit-Remaining header reads as the
    number 0, makes each of the three requests fail with
    [ErrRateLimited], whatever its status and its body: also a 401, and
    also a 200 with a body that would decode. *)
Theorem rate_limit_comes_before_the_status url_Parse httpClient_Do json_Decode_User
    json_Decode_Teams FindStringSubmatch strings_TrimSpace c token url resp :
  url_Parse url = None ->
  httpClient_Do (api_request url token) = inl resp ->
  http.StatusCode resp = 429 \/
  strconv_Atoi (http.Header_Get (http.Response_Header resp) "X-RateLimit-Remaining")
  = Some 0 ->
  httpclient.checkRateLimit resp = Some github.ErrRateLimited /\
  (url = github.baseURL c +:+ "/user" ->
   httpclient.GetUser url_Parse httpClient_Do json_Decode_User strings_TrimSpace c token
   = inr github.ErrRateLimited) /\
  (forall org username,
     url = github.baseURL c +:+ "/orgs/" +:+ org +:+ "/members/" +:+ username ->
     httpclient.CheckOrgMembership url_Parse httpClient_Do strings_TrimSpace c token org
       username = Some github.ErrRateLimited) /\
  httpclient.fetchTeamsPage url_Parse httpClient_Do json_Decode_Teams FindStringSubmatch
    strings_TrimSpace c token url = inr github.ErrRateLimited.
Proof.
  intros Hparse Hdo Hlimited.
  assert (httpclient.checkRateLimit resp = Some github.ErrRateLimited) as Hcheck.
  { unfold httpclient.checkRateLimit.
    destruct Hlimited as [->|Hzero]; [done|].
    destruct (http.StatusCode resp =? http.StatusTooManyRequests); [done|].
    rewrite Hzero. destruct (decide _) as [Hempty|_]; [|done].
    rewrite Hempty in Hzero. discriminate Hzero. }
  split; [done|]. split; [|split].
  - intros ->. unfold httpclient.GetUser, httpclient.newRequest.
    rewrite Hparse. unfold api_request in Hdo. by rewrite Hdo, Hcheck.
  - intros org username ->. unfold httpclient.CheckOrgMembership, httpclient.newRequest.
    rewrite Hparse. unfold api_request in Hdo. by rewrite Hdo, Hcheck.
  - unfold httpclient.fetchTeamsPage, httpclient.newRequest.
    rewrite Hparse. unfold api_request in Hdo. by rewrite Hdo, Hcheck.
Qed.

Lemma fetchAllTeams_follows fetchTeamsPage c token url pages outcome fuel allTeams :
  follows fetchTeamsPage c token url pages outcome ->
  (length pages < fuel)%nat ->
  github.fetchAllTeams fetchTeamsPage fuel c token url allTeams
  = Some (match outcome with
          | None => inl (allTeams ++ concat pages)%list
          | Some err => inr err
          end).
Proof.
  intros Hfollows. revert fuel allTeams.
  induction Hfollows as [|url err Hurl Hfetch|url teams next pages outcome Hurl Hfetch _ IH];
    intros fuel allTeams Hfuel.
  - destruct fuel; simpl; by rewrite app_nil_r.
  - destruct fuel as [|fuel]; [simpl in Hfuel; lia|]. simpl.
    rewrite decide_False by done. by rewrite Hfetch.
  - destruct fuel as [|fuel]; [simpl in Hfuel; lia|]. simpl.
    rewrite decide_False by done. rewrite Hfetch.
    rewrite IH by (simpl in Hfuel; lia).
    destruct outcome; [done|]. by rewrite <- app_assoc.
Qed.

(** X20. [ListUserTeams] goes through the pages the server links, from
    [baseURL/user/teams?per_page=100] on.  When the walk ends at a page
    with no next link, the result is the teams of all the pages in
    their order, kept when [strings.EqualFold] matches their
    organization; when a request of the walk fails, the result is its
    error and no team of the pages before.  (The walk has [pages]
    pages; the loop needs that many rounds and one more to end.) *)
Theorem ListUserTeams_walks_the_pages strings_EqualFold fetchTeamsPage c token org
    pages outcome fuel :
  follows fetchTeamsPage c token
    (github.baseURL c +:+ "/user/teams" +:+ "?per_page=100") pages outcome ->
  (length pages < fuel)%nat ->
  github.HTTPClient_ListUserTeams strings_EqualFold fetchTeamsPage fuel c token org
  = Some (match outcome with
          | None => inl (List.filter (github.inOrg strings_EqualFold org) (concat pages))
          | Some err => inr err
          end).
Proof.
  intros Hfollows Hfuel.
  unfold github.HTTPClient_ListUserTeams, github.HTTPClient_allTeams.
  rewrite (fetchAllTeams_follows _ _ _ _ _ _ _ _ Hfollows Hfuel).
  by destruct outcome.
Qed.

(** ** Properties of the handler *)

Lemma substring_all s : String.substring 0 (String.length s) s = s.
Proof. induction s as [|a s IH]; simpl; [done|]. by rewrite IH. Qed.

Lemma append_String a s t : String a s +:+ t = String a (s +:+ t).
Proof. reflexivity. Qed.

Lemma HasPrefix_split s prefix :
  strings_HasPrefix s prefix = true ->
  s = prefix +:+ strings_TrimPrefix s prefix.
Proof.
  unfold strings_TrimPrefix. intros Hprefix. rewrite Hprefix.
  unfold strings_HasPrefix in Hprefix. revert s Hprefix.
  induction prefix as [|a prefix IH]; intros s Hprefix.
  - simpl. by rewrite Nat.sub_0_r, substring_all.
  - destruct s as [|b s]; [done|]. simpl in Hprefix.
    destruct (ascii_dec a b) as [->|]; [|done].
    rewrite append_String. simpl. f_equal. by apply IH.
Qed.

Lemma HasPrefix_app prefix rest : strings_HasPrefix (prefix +:+ rest) prefix = true.
Proof.
  unfold strings_HasPrefix. induction prefix as [|a prefix IH].
  - by destruct rest.
  - rewrite append_String. simpl. by destruct (ascii_dec a a).
Qed.

Lemma TrimPrefix_app prefix rest : strings_TrimPrefix (prefix +:+ rest) prefix = rest.
Proof.
  unfold strings_TrimPrefix. rewrite HasPrefix_app.
  induction prefix as [|a prefix IH].
  - simpl. by rewrite Nat.sub_0_r, substring_all.
  - rewrite append_String. simpl. exact IH.
Qed.

(** X21. [parseBearerToken] accepts a header exactly when it starts
    with [Bearer ], in that case and with one space, and what follows
    is not empty once [strings.TrimSpace] has trimmed it; the token is
    then that trimmed text, never the empty string.  When it refuses,
    the token it returns is empty. *)
Theorem parseBearerToken_spec strings_TrimSpace header :
  match handler.parseBearerToken strings_TrimSpace header with
  | (token, true) =>
      token <> EmptyString /\
      exists rest, header = "Bearer " +:+ rest /\ token = strings_TrimSpace rest
  | (token, false) =>
      token = EmptyString /\
      (strings_HasPrefix header "Bearer " = false \/
       exists rest, header = "Bearer " +:+ rest /\ strings_TrimSpace rest = EmptyString)
  end.
Proof.
  unfold handler.parseBearerToken.
  destruct (strings_HasPrefix header "Bearer ") eqn:Hprefix; simpl.
  - apply HasPrefix_split in Hprefix.
    destruct (decide _) as [Hempty|Hfull].
    + split; [done|]. right. eauto.
    + split; [done|]. eauto.
  - auto.
Qed.

Lemma CanonicalHeaderKey_Authorization :
  http.CanonicalHeaderKey "Authorization" = "Authorization".
Proof. reflexivity. Qed.

Lemma injected_false (h : http.Header) :
  (forall name values, h !! name = Some values ->
                       strings_HasPrefix name handler.authHeaderPrefix = false) ->
  handler.injected h = false.
Proof.
  intros Hnone. unfold handler.injected.
  destruct (existsb _ _) eqn:Hex; [|done].
  apply existsb_exists in Hex as ([name values] & Hin & Hprefix).
  apply list_elem_of_In, elem_of_map_to_list in Hin.
  simpl in Hprefix. by rewrite (Hnone _ _ Hin) in Hprefix.
Qed.

Lemma injected_true (h : http.Header) name values :
  h !! name = Some values ->
  strings_HasPrefix name handler.authHeaderPrefix = true ->
  handler.injected h = true.
Proof.
  intros Hin Hprefix. unfold handler.injected.
  apply existsb_exists. exists (name, values). split; [|done].
  by apply list_elem_of_In, elem_of_map_to_list.
Qed.

(** [handleValidate] on a request that has none of the headers of the
    service and a bearer token: the token goes to the validator. *)
Lemma handleValidate_bearer strings_TrimSpace {S : Type} (h : handler.TokenValidator S)
    (s : S) w r rest more :
  (forall name values, http.Request_Header r !! name = Some values ->
                       strings_HasPrefix name handler.authHeaderPrefix = false) ->
  http.Request_Header r !! "Authorization" = Some (("Bearer " +:+ rest) :: more) ->
  strings_TrimSpace rest <> EmptyString ->
  handler.handleValidate strings_TrimSpace h s w r
  = let token := strings_TrimSpace rest in
    let '(result, err, s') := handler.Validate h s token in
    match err with
    | Some err => Some (handler.mkServed (handler.handleValidationError w err) s' [token])
    | None =>
        match result with
        | None => None
        | Some result =>
            Some (handler.mkServed
              {| handler.Header :=
                   <["X-Auth-User-Teams" := [strings_Join (validator.Teams result) ","]]>
                   (<["X-Auth-User-Org" := [validator.Org result]]>
                   (<["X-Auth-User-Id" := [fmt_d (validator.ID result)]]>
                   (<["X-Auth-User-Login" := [validator.Login result]]>
                      (handler.Header w))));
                 handler.Code := 200;
                 handler.Written := handler.Written w |}
              s' [token])
        end
    end.
Proof.
  intros Hclean Hauth Htoken.
  assert (http.Header_Get (http.Request_Header r) "Authorization" = "Bearer " +:+ rest)
    as Hget.
  { unfold http.Header_Get. by rewrite CanonicalHeaderKey_Authorization, Hauth. }
  unfold handler.handleValidate. cbv zeta.
  rewrite (injected_false _ Hclean), !Hget.
  rewrite decide_False by done.
  unfold handler.parseBearerToken.
  rewrite HasPrefix_app, TrimPrefix_app. cbn [negb].
  rewrite decide_False by done. cbn [negb].
  reflexivity.
Qed.

(** X22. A request that carries a header whose name starts with
    [X-Auth-User-] is refused with 403, whatever else it carries, a
    valid bearer token included: the validator is not called and its
    state is untouched.  The four headers the handler sets on success
    have that prefix. *)
Theorem injected_identity_headers_are_refused strings_TrimSpace {S : Type}
    (h : handler.TokenValidator S) (s : S) w r name values :
  http.Request_Header r !! name = Some values ->
  strings_HasPrefix name "X-Auth-User-" = true ->
  handler.handleValidate strings_TrimSpace h s w r
  = Some (handler.mkServed
            (handler.writeJSONError w 403 "forbidden: request contains disallowed headers")
            s []) /\
  Forall (fun set => strings_HasPrefix (http.CanonicalHeaderKey set) "X-Auth-User-" = true)
         ["X-Auth-User-Login"; "X-Auth-User-Id"; "X-Auth-User-Org"; "X-Auth-User-Teams"].
Proof.
  intros Hin Hprefix. split.
  - unfold handler.handleValidate. by rewrite (injected_true _ _ _ Hin Hprefix).
  - repeat constructor.
Qed.

Lemma writeJSONError_new_writer code message :
  handler.writeJSONError handler.new_writer code message
  = {| handler.Header := {["Content-Type" := ["application/json"]]};
       handler.Code := code;
       handler.Written := handler.json_body {| handler.Error := message |} |}.
Proof. reflexivity. Qed.

Lemma handleValidationError_new_writer err :
  exists code message,
    handler.handleValidationError handler.new_writer err
    = {| handler.Header := {["Content-Type" := ["application/json"]]};
         handler.Code := code;
         handler.Written := handler.json_body {| handler.Error := message |} |} /\
    code ∈ [401; 403; 429; 500] /\ message ∈ error_messages.
Proof.
  unfold handler.handleValidationError, error_messages.
  destruct (errors_Is err validator.ErrUnauthorized).
  { eexists _, _. split; [apply writeJSONError_new_writer|]. split; in_list. }
  destruct (errors_Is err validator.ErrNotOrgMember).
  { eexists _, _. split; [apply writeJSONError_new_writer|]. split; in_list. }
  destruct (errors_Is err validator.ErrClassicPAT).
  { eexists _, _. split; [apply writeJSONError_new_writer|]. split; in_list. }
  destruct (errors_Is err validator.ErrRateLimited).
  { eexists _, _. split; [apply writeJSONError_new_writer|]. split; in_list. }
  eexists _, _. split; [apply writeJSONError_new_writer|]. split; in_list.
Qed.

(** X23. The two shapes of a response of [handleValidate].  Either the
    status is 200, there is no body, and the four identity headers are
    those of the result the validator returned for the token of the
    request: the login, the ID in decimal, the organization, the teams
    joined with commas.  Or the status is 401, 403, 429 or 500, the one
    header is the content type of JSON, so no identity header is set,
    and the body is one of six fixed messages: no text of the request,
    of the token or of the error of the validator is in it. *)
Theorem handleValidate_response_shape strings_TrimSpace {S : Type}
    (h : handler.TokenValidator S) (s : S) r served :
  handler.handleValidate strings_TrimSpace h s handler.new_writer r = Some served ->
  let w := handler.response served in
  (handler.Code w = 200 /\ handler.Written w = handler.no_body /\
   exists token result,
     handler.validated served = [token] /\
     handler.Validate h s token = (Some result, None, handler.state served) /\
     handler.Header w !! "X-Auth-User-Login" = Some [validator.Login result] /\
     handler.Header w !! "X-Auth-User-Id" = Some [fmt_d (validator.ID result)] /\
     handler.Header w !! "X-Auth-User-Org" = Some [validator.Org result] /\
     handler.Header w !! "X-Auth-User-Teams"
     = Some [strings_Join (validator.Teams result) ","])
  \/
  (handler.Code w ∈ [401; 403; 429; 500] /\
   handler.Header w = {["Content-Type" := ["application/json"]]} /\
   exists message,
     handler.Written w = handler.json_body {| handler.Error := message |} /\
     message ∈ error_messages).
Proof.
  unfold handler.handleValidate.
  destruct (handler.injected _).
  { intros [= <-]. right. simpl. split; [in_list|]. split; [done|].
    eexists. split; [done|]. unfold error_messages. in_list. }
  destruct (decide _).
  { intros [= <-]. right. simpl. split; [in_list|]. split; [done|].
    eexists. split; [done|]. unfold error_messages. in_list. }
  destruct (handler.parseBearerToken _ _) as [token ok]. destruct ok; simpl.
  2:{ intros [= <-]. right. simpl. split; [in_list|]. split; [done|].
      eexists. split; [done|]. unfold error_messages. in_list. }
  destruct (handler.Validate h s token) as [[result err] s'] eqn:Hvalidate.
  destruct err as [err|].
  { intros [= <-]. right. simpl.
    destruct (handleValidationError_new_writer err) as (code & message & -> & ? & ?).
    simpl. eauto. }
  destruct result as [result|]; [|done].
  intros [= <-]. left. simpl. split; [done|]. split; [done|].
  exists token, result. repeat split; done.
Qed.

Lemma Validate_result_or_err {C : Type} (v : validator.Validator C) (c : C) token :
  validator.result (validator.Validate v c token) = None ->
  validator.err (validator.Validate v c token) <> None.
Proof.
  unfold validator.Validate.
  destruct (validator.Get (validator.cache v) c token) as [[result cachedErr] ok].
  destruct ok.
  { destruct cachedErr; simpl; done. }
  destruct (github.GetUser (validator.github v) token) as [[user isClassicPAT]|err].
  2:{ destruct (errors_Is err github.ErrRateLimited); [simpl; done|].
      destruct (errors_Is err github.ErrUnauthorized); simpl; done. }
  destruct (validator.rejectClassicPATs v && isClassicPAT); [simpl; done|].
  destruct (github.CheckOrgMembership _ _ _ _) as [err|].
  { destruct (errors_Is err github.ErrRateLimited); [simpl; done|].
    destruct (errors_Is err github.ErrNotOrgMember); simpl; done. }
  destruct (github.ListUserTeams _ _ _) as [teams|err]; [simpl; done|].
  destruct (errors_Is err github.ErrRateLimited); simpl; done.
Qed.

(** X24. With the validator of the repository behind it,
    [handleValidate] answers every request: the dereference of the
    result never meets a nil pointer, since [Validate] returns a nil
    result only with an error. *)
Theorem handleValidate_answers_every_request strings_TrimSpace {C : Type}
    (v : validator.Validator C) (c : C) w r :
  is_Some (handler.handleValidate strings_TrimSpace (handler.of_Validator v) c w r).
Proof.
  unfold handler.handleValidate.
  destruct (handler.injected _); [by eexists|].
  destruct (decide _); [by eexists|].
  destruct (handler.parseBearerToken _ _) as [token ok]. destruct ok; simpl;
    [|by eexists].
  pose proof (Validate_result_or_err v c token) as Hrun.
  destruct (validator.err (validator.Validate v c token)) as [err|]; [by eexists|].
  destruct (validator.result (validator.Validate v c token)); [by eexists|].
  by destruct Hrun.
Qed.

(** [handleValidate] over [Validate], on a request with a bearer token. *)
Lemma handleValidate_of_Validator strings_TrimSpace {C : Type}
    (v : validator.Validator C) (c : C) w r token :
  bearer strings_TrimSpace r token ->
  handler.handleValidate strings_TrimSpace (handler.of_Validator v) c w r
  = let run := validator.Validate v c token in
    match validator.err run with
    | Some err =>
        Some (handler.mkServed (handler.handleValidationError w err)
                (validator.cache_state run) [token])
    | None =>
        match validator.result run with
        | None => None
        | Some result =>
            Some (handler.mkServed
              {| handler.Header :=
                   <["X-Auth-User-Teams" := [strings_Join (validator.Teams result) ","]]>
                   (<["X-Auth-User-Org" := [validator.Org result]]>
                   (<["X-Auth-User-Id" := [fmt_d (validator.ID result)]]>
                   (<["X-Auth-User-Login" := [validator.Login result]]>
                      (handler.Header w))));
                 handler.Code := 200;
                 handler.Written := handler.Written w |}
              (validator.cache_state run) [token])
        end
    end.
Proof.
  intros (Hclean & Hfull & rest & more & Hauth & <-).
  by rewrite (handleValidate_bearer _ _ _ _ _ rest more).
Qed.

(** X25. The answers to a token the provider refuses, each after a
    miss in the cache.  A token [GetUser] reports as unauthorized: 401,
    [access denied], and the refusal is written to the cache.  A
    classic PAT when they are rejected: 403 with the message on classic
    PATs.  A user who is not a member: 403, [access denied].  In the
    last two cases the cache is not written. *)
Theorem forward_auth_denials strings_TrimSpace {C : Type} (v : validator.Validator C)
    (c : C) w r token :
  bearer strings_TrimSpace r token ->
  (validator.Get (validator.cache v) c token).2 = false ->
  let served := handler.handleValidate strings_TrimSpace (handler.of_Validator v) c w r in
  (forall err,
     github.GetUser (validator.github v) token = inr err ->
     errors_Is err github.ErrUnauthorized = true ->
     served = Some (handler.mkServed
                      (handler.writeJSONError w 401 "access denied")
                      (validator.Set_ (validator.cache v) c token validator.zero
                         (Some validator.ErrUnauthorized))
                      [token])) /\
  (forall user,
     github.GetUser (validator.github v) token = inl (user, true) ->
     validator.rejectClassicPATs v = true ->
     served = Some (handler.mkServed
                      (handler.writeJSONError w 403 "forbidden: classic PATs are not allowed")
                      c [token])) /\
  (forall user isClassicPAT err,
     github.GetUser (validator.github v) token = inl (user, isClassicPAT) ->
     validator.rejectClassicPATs v && isClassicPAT = false ->
     github.CheckOrgMembership (validator.github v) token (validator.org v)
       (github.User_Login user) = Some err ->
     errors_Is err github.ErrNotOrgMember = true ->
     served = Some (handler.mkServed (handler.writeJSONError w 403 "access denied")
                      c [token])).
Proof.
  intros Hbearer Hmiss served. subst served.
  rewrite (handleValidate_of_Validator _ _ _ _ _ _ Hbearer).
  unfold validator.Validate.
  destruct (validator.Get (validator.cache v) c token) as [[result cachedErr] ok].
  simpl in Hmiss. subst ok.
  split; [|split].
  - intros err -> Hun. by rewrite (Unauthorized_not_RateLimited _ Hun), Hun.
  - intros user -> ->. done.
  - intros user isClassicPAT err -> -> -> Hnot.
    by rewrite (NotOrgMember_not_RateLimited _ Hnot), Hnot.
Qed.

Lemma Validate_rate_limited_run {C : Type} (v : validator.Validator C) (c : C) token :
  (validator.Get (validator.cache v) c token).2 = false ->
  rate_limited (validator.github v) (validator.org v) (validator.rejectClassicPATs v)
    token ->
  validator.err (validator.Validate v c token)
  = Some (fmt_Errorf "%w" validator.ErrRateLimited) /\
  validator.cache_state (validator.Validate v c token) = c.
Proof.
  intros Hmiss Hlimited. unfold validator.Validate.
  destruct (validator.Get (validator.cache v) c token) as [[result cachedErr] ok].
  simpl in Hmiss. subst ok.
  destruct Hlimited as [(err & -> & ->)|(user & isClassicPAT & -> & -> & Hrest)];
    [done|].
  destruct Hrest as [(err & -> & ->)|(-> & err & -> & ->)]; done.
Qed.

(** X26. When a call of the run meets the rate limit of the provider,
    the answer is 429 with the message of the rate limit, and the
    state of the validator is as before: nothing is cached, the next
    request on the token goes to the provider again. *)
Theorem forward_auth_rate_limited strings_TrimSpace {C : Type}
    (v : validator.Validator C) (c : C) w r token :
  bearer strings_TrimSpace r token ->
  (validator.Get (validator.cache v) c token).2 = false ->
  rate_limited (validator.github v) (validator.org v) (validator.rejectClassicPATs v)
    token ->
  handler.handleValidate strings_TrimSpace (handler.of_Validator v) c w r
  = Some (handler.mkServed
            (handler.writeJSONError w 429 "rate limit exceeded, try again later")
            c [token]).
Proof.
  intros Hbearer Hmiss Hlimited.
  rewrite (handleValidate_of_Validator _ _ _ _ _ _ Hbearer). cbv zeta.
  destruct (Validate_rate_limited_run v c token Hmiss Hlimited) as [-> ->].
  done.
Qed.



(** X28. A request whose token the provider accepts, after a miss in
    the cache, is answered with 200 and the identity in the four
    headers: the login and the ID of the user of [GetUser], the
    organization of the validator, and the slugs of the teams of
    [ListUserTeams], in their order, joined with commas.  The identity
    is written to the cache. *)
Theorem forward_auth_success strings_TrimSpace {C : Type} (v : validator.Validator C)
    (c : C) r token user isClassicPAT teams :
  bearer strings_TrimSpace r token ->
  (validator.Get (validator.cache v) c token).2 = false ->
  github.GetUser (validator.github v) token = inl (user, isClassicPAT) ->
  validator.rejectClassicPATs v && isClassicPAT = false ->
  github.CheckOrgMembership (validator.github v) token (validator.org v)
    (github.User_Login user) = None ->
  github.ListUserTeams (validator.github v) token (validator.org v) = inl teams ->
  exists served,
    handler.handleValidate strings_TrimSpace (handler.of_Validator v) c
      handler.new_writer r = Some served /\
    handler.Code (handler.response served) = 200 /\
    handler.Written (handler.response served) = handler.no_body /\
    handler.Header (handler.response served)
    = {[ "X-Auth-User-Login" := [github.User_Login user];
         "X-Auth-User-Id" := [fmt_d (github.User_ID user)];
         "X-Auth-User-Org" := [validator.org v];
         "X-Auth-User-Teams" := [strings_Join (map github.Team_Slug teams) ","] ]} /\
    handler.validated served = [token] /\
    handler.state served
    = validator.Set_ (validator.cache v) c token
        {| validator.Login := github.User_Login user;
           validator.ID := github.User_ID user;
           validator.Email := github.User_Email user;
           validator.Org := validator.org v;
           validator.Teams := map github.Team_Slug teams |} None.
Proof.
  intros Hbearer Hmiss HgetUser Hclassic Hmember Hteams.
  rewrite (handleValidate_of_Validator _ _ _ _ _ _ Hbearer).
  unfold validator.Validate.
  destruct (validator.Get (validator.cache v) c token) as [[result cachedErr] ok].
  simpl in Hmiss. subst ok.
  rewrite HgetUser, Hclassic, Hmember, Hteams. cbn.
  eexists. split; [reflexivity|]. cbn. repeat split.
Qed.

(** ** The HTTP client behind [Validate] *)

(** X29. What the response to [GET /user] means for the cache, when
    [GetUser] is the one of the HTTP client and the lookup was a miss.
    A response that is rate limited (status 429, or a remaining quota
    of 0 whatever the status, a 401 included) gives [ErrRateLimited]
    and is not cached.  A 401 that is not rate limited gives
    [ErrUnauthorized] and is the one response cached as a refusal.  Any
    other status outside 2xx gives an error that is none of the four
    errors of the validator, and is not cached. *)
Theorem Validate_over_HTTP_caches_only_a_401 url_Parse httpClient_Do json_Decode_User
    strings_TrimSpace hc {C : Type} (v : validator.Validator C) (c : C) token resp :
  github.GetUser (validator.github v)
  = httpclient.GetUser url_Parse httpClient_Do json_Decode_User strings_TrimSpace hc ->
  (validator.Get (validator.cache v) c token).2 = false ->
  url_Parse (github.baseURL hc +:+ "/user") = None ->
  httpClient_Do (api_request (github.baseURL hc +:+ "/user") token) = inl resp ->
  let run := validator.Validate v c token in
  (http.StatusCode resp = 429 \/
   strconv_Atoi (http.Header_Get (http.Response_Header resp) "X-RateLimit-Remaining")
   = Some 0 ->
   validator.err run = Some (fmt_Errorf "%w" validator.ErrRateLimited) /\
   validator.cache_state run = c) /\
  (httpclient.checkRateLimit resp = None ->
   http.StatusCode resp = 401 ->
   validator.err run = Some (fmt_Errorf "%w" validator.ErrUnauthorized) /\
   validator.cache_state run
   = validator.Set_ (validator.cache v) c token validator.zero
       (Some validator.ErrUnauthorized)) /\
  (httpclient.checkRateLimit resp = None ->
   http.StatusCode resp <> 401 ->
   ~ 200 <= http.StatusCode resp < 300 ->
   validator.err run
   = Some (fmt_Errorf "getting user: %w"
             (httpclient.unexpected_status strings_TrimSpace resp)) /\
   (forall err, validator.err run = Some err -> internal_error err) /\
   validator.cache_state run = c).
Proof.
  intros Hclient Hmiss Hparse Hdo run. subst run.
  unfold validator.Validate.
  destruct (validator.Get (validator.cache v) c token) as [[result cachedErr] ok].
  simpl in Hmiss. subst ok. rewrite Hclient.
  unfold httpclient.GetUser, httpclient.newRequest.
  rewrite Hparse. unfold api_request in Hdo. rewrite Hdo.
  split; [|split].
  - intros Hlimited.
    assert (httpclient.checkRateLimit resp = Some github.ErrRateLimited) as ->.
    { unfold httpclient.checkRateLimit.
      destruct Hlimited as [->|Hzero]; [done|].
      destruct (http.StatusCode resp =? http.StatusTooManyRequests); [done|].
      rewrite Hzero. destruct (decide _) as [Hempty|_]; [|done].
      rewrite Hempty in Hzero. discriminate Hzero. }
    done.
  - intros -> ->. done.
  - intros -> Hnot401 Hnot2xx. unfold http.StatusUnauthorized.
    rewrite (proj2 (Z.eqb_neq _ _) Hnot401).
    assert ((http.StatusCode resp <? 200) || (300 <=? http.StatusCode resp) = true) as ->.
    { apply orb_true_iff.
      destruct (Z.ltb_spec (http.StatusCode resp) 200); [by left|].
      right. apply Z.leb_le. lia. }
    destruct (unexpected_status_is_no_sentinel strings_TrimSpace resp)
      as (-> & -> & _ & Hinternal).
    cbn. split; [done|]. split; [|done].
    intros err [= <-]. by apply internal_error_wrapped.
Qed.

(** ** The configuration *)

(** X30. [validate] accepts a configuration exactly when the
    organization is not empty, the TTL is not negative and the maximal
    size is positive.  The cache [main] builds from an accepted
    configuration never holds more than [CacheMaxSize] entries. *)
Theorem validated_config_bounds_the_cache Duration_String cfg :
  (main.validate Duration_String cfg = None
   <-> main.Org cfg <> EmptyString /\ 0 <= main.CacheTTL cfg /\ 0 < main.CacheMaxSize cfg)
  /\
  (main.validate Duration_String cfg = None ->
   forall c, rtc cache.step (main.tokenCache cfg) c ->
             cache.ttl c = main.CacheTTL cfg /\
             0 <= cache.Len c <= main.CacheMaxSize cfg).
Proof.
  assert (main.validate Duration_String cfg = None
          <-> main.Org cfg <> EmptyString /\ 0 <= main.CacheTTL cfg
              /\ 0 < main.CacheMaxSize cfg) as Hiff.
  { unfold main.validate.
    destruct (decide (main.Org cfg = EmptyString)) as [Horg|Horg].
    { split; [done|]. by intros [? _]. }
    destruct (Z.ltb_spec (main.CacheTTL cfg) 0).
    { split; [done|]. intros (_ & ? & _). lia. }
    destruct (Z.leb_spec (main.CacheMaxSize cfg) 0).
    { split; [done|]. intros (_ & _ & ?). lia. }
    split; [|done]. intros _. repeat split; [done|lia..]. }
  split; [exact Hiff|].
  intros (_ & _ & Hmax)%Hiff c Hreach.
  destruct (reachable_bound _ _ _ Hreach) as (Httl & _ & Hbound).
  split; [done|]. split; [apply Len_nonneg|by apply Hbound].
Qed.

(** ** The further theorems on the sample data *)

Lemma cache_ab_reachable : cache.reachable 60 2 cache_ab.
Proof.
  unfold cache.reachable.
  apply (rtc_l _ _ cache_a).
  { exact (cache.step_Set (cache.New 60 2) [] 1 "token-a" userA None
             (ranges_map_to_list ∅)). }
  apply rtc_once.
  exact (cache.step_Set cache_a (map_to_list (cache.entries cache_a)) 2 "token-b"
           userB None (ranges_map_to_list _)).
Defined.

Lemma cache_ab_reversed :
  cache.ranges (reverse (map_to_list (cache.entries cache_ab))) (cache.entries cache_ab).
Proof. unfold cache.ranges. apply reverse_Permutation. Defined.

Lemma cache_ab_no_ties k k' e e' :
  cache.entries cache_ab !! k = Some e ->
  cache.entries cache_ab !! k' = Some e' ->
  cache.ExpiresAt e = cache.ExpiresAt e' -> k = k'.
Proof.
  intros Hk Hk' Hsame.
  apply elem_of_map_to_list in Hk, Hk'.
  set (l := map_to_list (cache.entries cache_ab)) in *.
  vm_compute in (value of l). subst l.
  repeat (apply elem_of_cons in Hk as [Hk|Hk]);
    [..|by apply elem_of_nil in Hk];
    (repeat (apply elem_of_cons in Hk' as [Hk'|Hk']);
     [..|by apply elem_of_nil in Hk']);
    injection Hk as -> ->; injection Hk' as -> ->;
    (reflexivity || (simpl in Hsame; discriminate Hsame)).
Defined.

Lemma request_bearer_carries : bearer TrimSpace_ascii request_bearer "tok".
Proof.
  split; [|split].
  - intros name values Hin.
    change (({[ "Authorization" := ["Bearer tok"] ]} : http.Header) !! name
            = Some values) in Hin.
    apply lookup_singleton_Some in Hin as [<- _]. reflexivity.
  - discriminate.
  - exists "tok", []. split; reflexivity.
Defined.

Lemma disabled_cache_stays_empty_witness :
  let c := cache.Set_ [] 10 cache_disabled "token-a" userA None in
  cache.reachable 0 1000 c /\
  cache.entries c = ∅ /\ cache.Len c = 0 /\
  cache.Get 11 c "token-a" = (validator.zero, None, false).
Proof.
  intros c.
  assert (cache.reachable 0 1000 c) as Hreach.
  { apply rtc_once.
    exact (cache.step_Set cache_disabled [] 10 "token-a" userA None
             (ranges_map_to_list ∅)). }
  destruct (disabled_cache_stays_empty 1000 c Hreach) as (Hempty & Hlen & Hget).
  split; [exact Hreach|]. split; [exact Hempty|]. split; [exact Hlen|].
  exact (Hget 11 "token-a").
Defined.

Lemma removeExpired_any_order_witness :
  let visit := map_to_list (cache.entries cache_ab) in
  let visit' := reverse (map_to_list (cache.entries cache_ab)) in
  cache.ranges visit (cache.entries cache_ab) /\
  cache.ranges visit' (cache.entries cache_ab) /\
  visit <> visit' /\
  cache.removeExpired visit 62 cache_ab = cache.removeExpired visit' 62 cache_ab.
Proof.
  intros visit visit'.
  split; [apply ranges_map_to_list|]. split; [apply cache_ab_reversed|].
  split; [vm_compute; discriminate|].
  exact (proj1 (removeExpired_any_order visit visit' 62 cache_ab
                  (ranges_map_to_list _) cache_ab_reversed)).
Defined.

Lemma removeExpired_invisible_to_Get_witness :
  let visit := map_to_list (cache.entries cache_ab) in
  cache.ranges visit (cache.entries cache_ab) /\
  62 <= 62 /\
  cache.Get 62 (cache.removeExpired visit 62 cache_ab) "token-a"
  = cache.Get 62 cache_ab "token-a" /\
  cache.Get 62 (cache.removeExpired visit 62 cache_ab) "token-b"
  = cache.Get 62 cache_ab "token-b".
Proof.
  intros visit.
  assert (62 <= 62) as Hle by lia.
  split; [apply ranges_map_to_list|]. split; [exact Hle|]. split.
  - exact (removeExpired_invisible_to_Get visit 62 62 cache_ab "token-a"
             (ranges_map_to_list _) Hle).
  - exact (removeExpired_invisible_to_Get visit 62 62 cache_ab "token-b"
             (ranges_map_to_list _) Hle).
Defined.

Lemma evictOldest_any_order_witness :
  let visit := map_to_list (cache.entries cache_ab) in
  let visit' := reverse (map_to_list (cache.entries cache_ab)) in
  cache.ranges visit (cache.entries cache_ab) /\
  cache.ranges visit' (cache.entries cache_ab) /\
  visit <> visit' /\
  cache.evictOldest visit cache_ab = cache.evictOldest visit' cache_ab.
Proof.
  intros visit visit'.
  split; [apply ranges_map_to_list|]. split; [apply cache_ab_reversed|].
  split; [vm_compute; discriminate|].
  exact (evictOldest_any_order visit visit' cache_ab
           (ranges_map_to_list _) cache_ab_reversed cache_ab_no_ties).
Defined.

Lemma Set_evicts_no_live_entry_before_an_expired_one_witness :
  let visit := map_to_list (cache.entries cache_ab) in
  let a := {| cache.Result := userA; cache.Err := None; cache.ExpiresAt := 61 |} in
  let b := {| cache.Result := userB; cache.Err := None; cache.ExpiresAt := 62 |} in
  cache.ttl cache_ab <> 0 /\
  cache.ranges visit (cache.entries cache_ab) /\
  cache.entries cache_ab !! cache.hashToken "token-a" = Some a /\
  cache.ExpiresAt a < 62 /\
  cache.entries cache_ab !! cache.hashToken "token-b" = Some b /\
  62 <= cache.ExpiresAt b /\
  cache.hashToken "token-b" <> cache.hashToken "token-c" /\
  cache.entries (cache.Set_ visit 62 cache_ab "token-c" userC None)
    !! cache.hashToken "token-b" = Some b.
Proof.
  intros visit a b.
  assert (cache.ttl cache_ab <> 0) as Httl by (vm_compute; discriminate).
  assert (cache.entries cache_ab !! cache.hashToken "token-a" = Some a) as Ha
    by (vm_compute; reflexivity).
  assert (cache.ExpiresAt a < 62) as Hexpired by (simpl; lia).
  assert (cache.entries cache_ab !! cache.hashToken "token-b" = Some b) as Hb
    by (vm_compute; reflexivity).
  assert (62 <= cache.ExpiresAt b) as Hlive by (simpl; lia).
  assert (cache.hashToken "token-b" <> cache.hashToken "token-c") as Hother
    by (vm_compute; discriminate).
  split; [exact Httl|]. split; [apply ranges_map_to_list|]. split; [exact Ha|].
  split; [exact Hexpired|]. split; [exact Hb|]. split; [exact Hlive|].
  split; [exact Hother|].
  exact (Set_evicts_no_live_entry_before_an_expired_one visit 62 cache_ab "token-c"
           userC None (cache.hashToken "token-a") a Httl (ranges_map_to_list _)
           Ha Hexpired (cache.hashToken "token-b") b Hb Hlive Hother).
Defined.

Lemma keys_are_digests_witness :
  let b := {| cache.Result := userB; cache.Err := None; cache.ExpiresAt := 62 |} in
  cache.reachable 60 2 cache_ab /\
  cache.entries cache_ab !! cache.hashToken "token-b" = Some b /\
  (exists token, cache.hashToken "token-b" = cache.hashToken token) /\
  String.length (cache.hashToken "token-b") = 64%nat.
Proof.
  intros b.
  assert (cache.entries cache_ab !! cache.hashToken "token-b" = Some b) as Hb
    by (vm_compute; reflexivity).
  split; [exact cache_ab_reachable|]. split; [exact Hb|].
  exact (keys_are_digests 60 2 cache_ab cache_ab_reachable _ b Hb).
Defined.

Lemma Validate_again_within_TTL_asks_no_provider_witness :
  let visit := map_to_list (cache.entries cache_ab) in
  let teams := [team "platform" "Acme"; team "security" "ACME"; team "sre" "acme"] in
  let first_run :=
    validator.Validate
      (validator.New gh_member (cache.as_validator_Cache 5 visit 6) "acme" true)
      cache_ab "tok" in
  let second_run :=
    validator.Validate
      (validator.New gh_unauthorized (cache.as_validator_Cache 66 [] 67) "other" false)
      (validator.cache_state first_run) "tok" in
  0 < cache.ttl cache_ab /\
  (cache.Get 5 cache_ab "tok").2 = false /\
  github.GetUser gh_member "tok" = inl (testuser, false) /\
  true && false = false /\
  github.CheckOrgMembership gh_member "tok" "acme" (github.User_Login testuser) = None /\
  github.ListUserTeams gh_member "tok" "acme" = inl teams /\
  66 <= time.Add 6 (cache.ttl cache_ab) /\
  validator.result second_run = validator.result first_run /\
  validator.err second_run = None /\
  validator.calls second_run = [validator.cache_Get "tok"] /\
  validator.cache_state second_run = validator.cache_state first_run.
Proof.
  intros visit teams first_run second_run.
  assert (0 < cache.ttl cache_ab) as Httl by (vm_compute; reflexivity).
  assert ((cache.Get 5 cache_ab "tok").2 = false) as Hmiss by (vm_compute; reflexivity).
  assert (github.GetUser gh_member "tok" = inl (testuser, false)) as HgetUser
    by reflexivity.
  assert (true && false = false) as Hclassic by reflexivity.
  assert (github.CheckOrgMembership gh_member "tok" "acme" (github.User_Login testuser)
          = None) as Hmember by reflexivity.
  assert (github.ListUserTeams gh_member "tok" "acme" = inl teams) as Hteams
    by (vm_compute; reflexivity).
  assert (66 <= time.Add 6 (cache.ttl cache_ab)) as Hwithin
    by (vm_compute; discriminate).
  split; [exact Httl|].
  split; [exact Hmiss|]. split; [exact HgetUser|]. split; [exact Hclassic|].
  split; [exact Hmember|]. split; [exact Hteams|]. split; [exact Hwithin|].
  exact (Validate_again_within_TTL_asks_no_provider gh_member "acme" true 5 visit 6
           cache_ab "tok" testuser false teams gh_unauthorized "other" false 66 [] 67
           Httl Hmiss HgetUser Hclassic Hmember Hteams Hwithin).
Defined.

Lemma Validate_classic_PAT_witness :
  let run := validator.Validate (sample_validator gh_classic) cache_ab "tok" in
  (validator.Get (validator.cache (sample_validator gh_classic)) cache_ab "tok").2
  = false /\
  github.GetUser (validator.github (sample_validator gh_classic)) "tok"
  = inl (testuser, true) /\
  validator.rejectClassicPATs (sample_validator gh_classic) = true /\
  validator.result run = None /\
  validator.err run = Some (fmt_Errorf "%w" validator.ErrClassicPAT) /\
  validator.calls run = [validator.cache_Get "tok"; validator.github_GetUser "tok"] /\
  validator.cache_state run = cache_ab.
Proof.
  intros run.
  assert ((validator.Get (validator.cache (sample_validator gh_classic)) cache_ab
             "tok").2 = false) as Hmiss by (vm_compute; reflexivity).
  assert (github.GetUser (validator.github (sample_validator gh_classic)) "tok"
          = inl (testuser, true)) as HgetUser by reflexivity.
  assert (validator.rejectClassicPATs (sample_validator gh_classic) = true) as Hreject
    by reflexivity.
  split; [exact Hmiss|]. split; [exact HgetUser|]. split; [exact Hreject|].
  exact (proj1 (Validate_classic_PAT (sample_validator gh_classic) cache_ab "tok"
                  testuser Hmiss HgetUser) Hreject).
Defined.

Lemma Validate_not_org_member_witness :
  let v := sample_validator gh_not_member in
  let run := validator.Validate v cache_ab "tok" in
  (validator.Get (validator.cache v) cache_ab "tok").2 = false /\
  github.GetUser (validator.github v) "tok" = inl (testuser, false) /\
  validator.rejectClassicPATs v && false = false /\
  github.CheckOrgMembership (validator.github v) "tok" (validator.org v)
    (github.User_Login testuser) = Some github.ErrNotOrgMember /\
  errors_Is github.ErrNotOrgMember github.ErrNotOrgMember = true /\
  validator.result run = None /\
  validator.err run = Some (fmt_Errorf "%w" validator.ErrNotOrgMember) /\
  validator.calls run
  = [validator.cache_Get "tok"; validator.github_GetUser "tok";
     validator.github_CheckOrgMembership "tok" (validator.org v)
       (github.User_Login testuser)] /\
  validator.cache_state run = cache_ab.
Proof.
  intros v run.
  assert ((validator.Get (validator.cache v) cache_ab "tok").2 = false) as Hmiss
    by (vm_compute; reflexivity).
  assert (github.GetUser (validator.github v) "tok" = inl (testuser, false))
    as HgetUser by reflexivity.
  assert (validator.rejectClassicPATs v && false = false) as Hclassic by reflexivity.
  assert (github.CheckOrgMembership (validator.github v) "tok" (validator.org v)
            (github.User_Login testuser) = Some github.ErrNotOrgMember) as Hmember
    by reflexivity.
  assert (errors_Is github.ErrNotOrgMember github.ErrNotOrgMember = true) as Hnot
    by (vm_compute; reflexivity).
  split; [exact Hmiss|]. split; [exact HgetUser|]. split; [exact Hclassic|].
  split; [exact Hmember|]. split; [exact Hnot|].
  exact (Validate_not_org_member v cache_ab "tok" testuser false github.ErrNotOrgMember
           Hmiss HgetUser Hclassic Hmember Hnot).
Defined.

Lemma Validate_other_provider_error_witness :
  let v := sample_validator gh_down in
  let run := validator.Validate v cache_ab "tok" in
  (validator.Get (validator.cache v) cache_ab "tok").2 = false /\
  github.GetUser (validator.github v) "tok" = inr connection_refused /\
  errors_Is connection_refused github.ErrRateLimited = false /\
  errors_Is connection_refused github.ErrUnauthorized = false /\
  validator.result run = None /\
  validator.err run = Some (fmt_Errorf "getting user: %w" connection_refused) /\
  errors_Is (fmt_Errorf "getting user: %w" connection_refused) connection_refused = true /\
  validator.cache_state run = cache_ab.
Proof.
  intros v run.
  assert ((validator.Get (validator.cache v) cache_ab "tok").2 = false) as Hmiss
    by (vm_compute; reflexivity).
  assert (github.GetUser (validator.github v) "tok" = inr connection_refused)
    as HgetUser by reflexivity.
  assert (errors_Is connection_refused github.ErrRateLimited = false) as Hlimit
    by (vm_compute; reflexivity).
  assert (errors_Is connection_refused github.ErrUnauthorized = false) as Hunauth
    by (vm_compute; reflexivity).
  destruct (proj1 (Validate_other_provider_error v cache_ab "tok" Hmiss)
              connection_refused HgetUser Hlimit Hunauth)
    as (Hres & Herr & Hcause & _ & Hstate).
  split; [exact Hmiss|]. split; [exact HgetUser|]. split; [exact Hlimit|].
  split; [exact Hunauth|]. split; [exact Hres|]. split; [exact Herr|].
  split; [exact Hcause|]. exact Hstate.
Defined.

Lemma rate_limit_comes_before_the_status_witness :
  let url := github.baseURL api +:+ "/user" in
  let Do := fun _ : http.Request => inl resp_exhausted : http.Response + error in
  (fun _ : string => None : option error) url = None /\
  Do (api_request url "tok") = inl resp_exhausted /\
  http.StatusCode resp_exhausted = 401 /\
  strconv_Atoi (http.Header_Get (http.Response_Header resp_exhausted)
                  "X-RateLimit-Remaining") = Some 0 /\
  httpclient.checkRateLimit resp_exhausted = Some github.ErrRateLimited /\
  httpclient.GetUser (fun _ => None) Do (fun _ => inl testuser) TrimSpace_ascii api "tok"
  = inr github.ErrRateLimited.
Proof.
  intros url Do.
  assert ((fun _ : string => None : option error) url = None) as Hparse by reflexivity.
  assert (Do (api_request url "tok") = inl resp_exhausted) as Hdo by reflexivity.
  assert (strconv_Atoi (http.Header_Get (http.Response_Header resp_exhausted)
                          "X-RateLimit-Remaining") = Some 0) as Hzero
    by (vm_compute; reflexivity).
  destruct (rate_limit_comes_before_the_status (fun _ => None) Do
              (fun _ => inl testuser) (fun _ => inl []) (fun _ => []) TrimSpace_ascii
              api "tok" url resp_exhausted Hparse Hdo (or_intror Hzero))
    as (Hcheck & HgetUser & _ & _).
  split; [exact Hparse|]. split; [exact Hdo|]. split; [reflexivity|].
  split; [exact Hzero|]. split; [exact Hcheck|]. exact (HgetUser eq_refl).
Defined.

Lemma api_pages_follows :
  follows api_pages api "tok" (github.baseURL api +:+ "/user/teams" +:+ "?per_page=100")
    [[team "platform" "Acme"; team "docs" "other-org"; team "security" "ACME"];
     [team "sre" "acme"]]
    None.
Proof.
  apply (follows_next api_pages api "tok" _ _
           "https://api.github.com/user/teams?per_page=100&page=2");
    [vm_compute; discriminate|reflexivity|].
  apply (follows_next api_pages api "tok" _ _ EmptyString);
    [discriminate|reflexivity|].
  apply follows_end.
Defined.

Lemma ListUserTeams_walks_the_pages_witness :
  follows api_pages api "tok" (github.baseURL api +:+ "/user/teams" +:+ "?per_page=100")
    [[team "platform" "Acme"; team "docs" "other-org"; team "security" "ACME"];
     [team "sre" "acme"]]
    None /\
  (2 < 3)%nat /\
  github.HTTPClient_ListUserTeams EqualFold_ascii api_pages 3 api "tok" "acme"
  = Some (inl [team "platform" "Acme"; team "security" "ACME"; team "sre" "acme"]).
Proof.
  assert (2 < 3)%nat as Hfuel by lia.
  split; [exact api_pages_follows|]. split; [exact Hfuel|].
  exact (ListUserTeams_walks_the_pages EqualFold_ascii api_pages api "tok" "acme"
           _ None 3 api_pages_follows Hfuel).
Defined.

Lemma injected_identity_headers_are_refused_witness :
  let h := handler.of_Validator (sample_validator gh_member) in
  http.Request_Header request_injected !! "X-Auth-User-Login" = Some ["admin"] /\
  strings_HasPrefix "X-Auth-User-Login" "X-Auth-User-" = true /\
  handler.handleValidate TrimSpace_ascii h cache_ab handler.new_writer request_injected
  = Some (handler.mkServed
            (handler.writeJSONError handler.new_writer 403
               "forbidden: request contains disallowed headers")
            cache_ab []).
Proof.
  intros h.
  assert (http.Request_Header request_injected !! "X-Auth-User-Login" = Some ["admin"])
    as Hin by reflexivity.
  assert (strings_HasPrefix "X-Auth-User-Login" "X-Auth-User-" = true) as Hprefix
    by reflexivity.
  split; [exact Hin|]. split; [exact Hprefix|].
  exact (proj1 (injected_identity_headers_are_refused TrimSpace_ascii h cache_ab
                  handler.new_writer request_injected "X-Auth-User-Login" ["admin"]
                  Hin Hprefix)).
Defined.

Lemma handleValidate_response_shape_witness :
  let h := handler.of_Validator (sample_validator gh_not_member) in
  let served :=
    handler.mkServed
      (handler.writeJSONError handler.new_writer 403 "access denied") cache_ab ["tok"] in
  handler.handleValidate TrimSpace_ascii h cache_ab handler.new_writer request_bearer
  = Some served /\
  ((handler.Code (handler.response served) = 200 /\
    handler.Written (handler.response served) = handler.no_body /\
    exists token result,
      handler.validated served = [token] /\
      handler.Validate h cache_ab token = (Some result, None, handler.state served) /\
      handler.Header (handler.response served) !! "X-Auth-User-Login"
      = Some [validator.Login result] /\
      handler.Header (handler.response served) !! "X-Auth-User-Id"
      = Some [fmt_d (validator.ID result)] /\
      handler.Header (handler.response served) !! "X-Auth-User-Org"
      = Some [validator.Org result] /\
      handler.Header (handler.response served) !! "X-Auth-User-Teams"
      = Some [strings_Join (validator.Teams result) ","])
   \/
   (handler.Code (handler.response served) ∈ [401; 403; 429; 500] /\
    handler.Header (handler.response served)
    = {["Content-Type" := ["application/json"]]} /\
    exists message,
      handler.Written (handler.response served)
      = handler.json_body {| handler.Error := message |} /\
      message ∈ error_messages)).
Proof.
  intros h served.
  assert (handler.handleValidate TrimSpace_ascii h cache_ab handler.new_writer
            request_bearer = Some served) as Hserved by (vm_compute; reflexivity).
  split; [exact Hserved|].
  exact (handleValidate_response_shape TrimSpace_ascii h cache_ab request_bearer served
           Hserved).
Defined.

Lemma forward_auth_denials_witness :
  let v := sample_validator gh_unauthorized in
  bearer TrimSpace_ascii request_bearer "tok" /\
  (validator.Get (validator.cache v) cache_ab "tok").2 = false /\
  github.GetUser (validator.github v) "tok" = inr github.ErrUnauthorized /\
  errors_Is github.ErrUnauthorized github.ErrUnauthorized = true /\
  handler.handleValidate TrimSpace_ascii (handler.of_Validator v) cache_ab
    handler.new_writer request_bearer
  = Some (handler.mkServed
            (handler.writeJSONError handler.new_writer 401 "access denied")
            (validator.Set_ (validator.cache v) cache_ab "tok" validator.zero
               (Some validator.ErrUnauthorized))
            ["tok"]).
Proof.
  intros v.
  assert ((validator.Get (validator.cache v) cache_ab "tok").2 = false) as Hmiss
    by (vm_compute; reflexivity).
  assert (github.GetUser (validator.github v) "tok" = inr github.ErrUnauthorized)
    as HgetUser by reflexivity.
  assert (errors_Is github.ErrUnauthorized github.ErrUnauthorized = true) as Hunauth
    by (vm_compute; reflexivity).
  split; [exact request_bearer_carries|]. split; [exact Hmiss|].
  split; [exact HgetUser|]. split; [exact Hunauth|].
  exact (proj1 (forward_auth_denials TrimSpace_ascii v cache_ab handler.new_writer
                  request_bearer "tok" request_bearer_carries Hmiss)
           github.ErrUnauthorized HgetUser Hunauth).
Defined.

Lemma forward_auth_rate_limited_witness :
  let v := sample_validator gh_rate_limited in
  bearer TrimSpace_ascii request_bearer "tok" /\
  (validator.Get (validator.cache v) cache_ab "tok").2 = false /\
  rate_limited (validator.github v) (validator.org v) (validator.rejectClassicPATs v)
    "tok" /\
  handler.handleValidate TrimSpace_ascii (handler.of_Validator v) cache_ab
    handler.new_writer request_bearer
  = Some (handler.mkServed
            (handler.writeJSONError handler.new_writer 429
               "rate limit exceeded, try again later")
            cache_ab ["tok"]).
Proof.
  intros v.
  assert ((validator.Get (validator.cache v) cache_ab "tok").2 = false) as Hmiss
    by (vm_compute; reflexivity).
  assert (rate_limited (validator.github v) (validator.org v)
            (validator.rejectClassicPATs v) "tok") as Hlimited.
  { right. exists testuser, false. split; [reflexivity|]. split; [reflexivity|].
    left. exists github.ErrRateLimited. split; [reflexivity|]. vm_compute. reflexivity. }
  split; [exact request_bearer_carries|]. split; [exact Hmiss|].
  split; [exact Hlimited|].
  exact (forward_auth_rate_limited TrimSpace_ascii v cache_ab handler.new_writer
           request_bearer "tok" request_bearer_carries Hmiss Hlimited).
Defined.


Lemma forward_auth_success_witness :
  let v := sample_validator gh_member in
  let teams := [team "platform" "Acme"; team "security" "ACME"; team "sre" "acme"] in
  bearer TrimSpace_ascii request_bearer "tok" /\
  (validator.Get (validator.cache v) cache_ab "tok").2 = false /\
  github.GetUser (validator.github v) "tok" = inl (testuser, false) /\
  validator.rejectClassicPATs v && false = false /\
  github.CheckOrgMembership (validator.github v) "tok" (validator.org v)
    (github.User_Login testuser) = None /\
  github.ListUserTeams (validator.github v) "tok" (validator.org v) = inl teams /\
  exists served,
    handler.handleValidate TrimSpace_ascii (handler.of_Validator v) cache_ab
      handler.new_writer request_bearer = Some served /\
    handler.Code (handler.response served) = 200 /\
    handler.Header (handler.response served)
    = {[ "X-Auth-User-Login" := ["testuser"];
         "X-Auth-User-Id" := ["42"];
         "X-Auth-User-Org" := ["acme"];
         "X-Auth-User-Teams" := ["platform,security,sre"] ]}.
Proof.
  intros v teams.
  assert ((validator.Get (validator.cache v) cache_ab "tok").2 = false) as Hmiss
    by (vm_compute; reflexivity).
  assert (github.GetUser (validator.github v) "tok" = inl (testuser, false))
    as HgetUser by reflexivity.
  assert (validator.rejectClassicPATs v && false = false) as Hclassic by reflexivity.
  assert (github.CheckOrgMembership (validator.github v) "tok" (validator.org v)
            (github.User_Login testuser) = None) as Hmember by reflexivity.
  assert (github.ListUserTeams (validator.github v) "tok" (validator.org v) = inl teams)
    as Hteams by (vm_compute; reflexivity).
  split; [exact request_bearer_carries|]. split; [exact Hmiss|].
  split; [exact HgetUser|]. split; [exact Hclassic|]. split; [exact Hmember|].
  split; [exact Hteams|].
  destruct (forward_auth_success TrimSpace_ascii v cache_ab request_bearer "tok"
              testuser false teams request_bearer_carries Hmiss HgetUser Hclassic
              Hmember Hteams)
    as (served & Hserved & Hcode & _ & Hheader & _).
  exists served. split; [exact Hserved|]. split; [exact Hcode|].
  rewrite Hheader. vm_compute. reflexivity.
Defined.

Lemma Validate_over_HTTP_caches_only_a_401_witness :
  let none := fun _ : string => None : option error in
  let limited := fun _ : http.Request => inl resp_exhausted : http.Response + error in
  let refused := fun _ : http.Request => inl resp_bad_credentials : http.Response + error in
  let decode := fun _ : string => inl testuser : github.User + error in
  let v resp := sample_validator (gh_http resp) in
  (validator.Get (validator.cache (v resp_exhausted)) cache_ab "tok").2 = false /\
  strconv_Atoi (http.Header_Get (http.Response_Header resp_exhausted)
                  "X-RateLimit-Remaining") = Some 0 /\
  validator.err (validator.Validate (v resp_exhausted) cache_ab "tok")
  = Some (fmt_Errorf "%w" validator.ErrRateLimited) /\
  validator.cache_state (validator.Validate (v resp_exhausted) cache_ab "tok")
  = cache_ab /\
  httpclient.checkRateLimit resp_bad_credentials = None /\
  http.StatusCode resp_bad_credentials = 401 /\
  validator.err (validator.Validate (v resp_bad_credentials) cache_ab "tok")
  = Some (fmt_Errorf "%w" validator.ErrUnauthorized) /\
  validator.cache_state (validator.Validate (v resp_bad_credentials) cache_ab "tok")
  = validator.Set_ (validator.cache (v resp_bad_credentials)) cache_ab "tok"
      validator.zero (Some validator.ErrUnauthorized).
Proof.
  intros none limited refused decode v.
  assert ((validator.Get (validator.cache (v resp_exhausted)) cache_ab "tok").2 = false)
    as Hmiss by (vm_compute; reflexivity).
  assert (strconv_Atoi (http.Header_Get (http.Response_Header resp_exhausted)
                          "X-RateLimit-Remaining") = Some 0) as Hzero
    by (vm_compute; reflexivity).
  assert (httpclient.checkRateLimit resp_bad_credentials = None) as Hquota
    by (vm_compute; reflexivity).
  assert (http.StatusCode resp_bad_credentials = 401) as Hcode by reflexivity.
  destruct (proj1 (Validate_over_HTTP_caches_only_a_401 none limited decode
                     TrimSpace_ascii api (v resp_exhausted) cache_ab "tok"
                     resp_exhausted eq_refl Hmiss eq_refl eq_refl)
              (or_intror Hzero)) as [Herr Hstate].
  destruct (proj1 (proj2 (Validate_over_HTTP_caches_only_a_401 none refused decode
                            TrimSpace_ascii api (v resp_bad_credentials) cache_ab "tok"
                            resp_bad_credentials eq_refl Hmiss eq_refl eq_refl))
              Hquota Hcode) as [Herr' Hstate'].
  split; [exact Hmiss|]. split; [exact Hzero|]. split; [exact Herr|].
  split; [exact Hstate|]. split; [exact Hquota|]. split; [exact Hcode|].
  split; [exact Herr'|]. exact Hstate'.
Defined.
